(** * TRENZ POS: the offline synchronisation engine of [src/services/sync.ts]

    A shallow embedding of the sync service: the operation queue kept in the
    [sync_queue] table, the four per-entity drains, the full cycle [syncAll],
    the bills step of [initialSync] and the connectivity listener installed by
    [initNetworkListener].

    Conventions of the embedding.
    - The SQLite tables are lists of rows in rowid order.  [sync_queue] rows
      follow [DBSyncQueue]; the other tables hold rows as the driver returns
      them (a JS object per row), i.e. a column/value association list.
    - [ORDER BY] is the engine's: a conforming engine returns a permutation
      of the selected rows that is sorted on the key ([SqlEngine]).
    - What can throw is the network ([ApiResult]), [JSON.parse], a property
      access on a value that has none, a download, and an INSERT that the
      table definitions of [src/database/schema.ts] refuse: [sync_queue]
      declares [data TEXT NOT NULL], and [bills] declares, among others,
      [updated_at TEXT NOT NULL].  The other statements executed through
      [executeSql] are taken to succeed.
    - [new Date().toISOString()] is a wall-clock reading: the [n]-th reading
      of a run is [date_iso env n].  Stamps are compared as SQLite compares
      TEXT, byte by byte.
    - The file first gives the definitions (the service, the notions the
      statements use, the listener, a concrete shop), then the properties.

    Around the sync service the file also embeds what it shares state with:
    the image cache of [src/utils/imageCache.ts], which the item drain fills,
    the authentication service of [src/services/auth.ts], the cart of the
    billing screen, and the bill and invoice numbers of
    [src/utils/billNumbering.ts]. *)

From Stdlib Require Import ZArith String Ascii List Bool Lia DecimalString.
From Stdlib Require QArith.
From stdpp Require Import base list sorting.

Local Open Scope Z_scope.

(** ** SQL values and rows *)

Inductive SqlValue : Type :=
| VNull
| VInt (n : Z)
| VReal (q : QArith_base.Q)
| VText (s : string).

Definition Row : Type := list (string * SqlValue).
Definition Table : Type := list Row.

(** [row.c]: a column that is absent reads as [undefined], which binds as NULL. *)
Fixpoint col (r : Row) (c : string) : SqlValue :=
  match r with
  | [] => VNull
  | (k, v) :: r' => if String.eqb k c then v else col r' c
  end.

(** JS truthiness of a column value. *)
Definition truthy (v : SqlValue) : bool :=
  match v with
  | VNull => false
  | VInt n => negb (n =? 0)
  | VReal q => negb (QArith_base.Qeq_bool q (QArith_base.inject_Z 0))
  | VText s => negb (String.eqb s EmptyString)
  end.

(** [a || b] *)
Definition js_or (a b : SqlValue) : SqlValue := if truthy a then a else b.

(** SQL [=]: NULL is equal to nothing, numbers compare by value. *)
Definition sql_eq (a b : SqlValue) : bool :=
  match a, b with
  | VInt n, VInt m => n =? m
  | VInt n, VReal q | VReal q, VInt n =>
      QArith_base.Qeq_bool (QArith_base.inject_Z n) q
  | VReal p, VReal q => QArith_base.Qeq_bool p q
  | VText s, VText t => String.eqb s t
  | _, _ => false
  end.

(** SQLite's order of values: NULL, then numbers, then text (bytewise). *)
Definition sql_le (a b : SqlValue) : bool :=
  match a, b with
  | VNull, _ => true
  | _, VNull => false
  | VInt n, VInt m => n <=? m
  | VInt n, VReal q => QArith_base.Qle_bool (QArith_base.inject_Z n) q
  | VReal q, VInt n => QArith_base.Qle_bool q (QArith_base.inject_Z n)
  | VReal p, VReal q => QArith_base.Qle_bool p q
  | (VInt _ | VReal _), VText _ => true
  | VText _, (VInt _ | VReal _) => false
  | VText s, VText t => String.leb s t
  end.

(** [INSERT INTO t (cols) VALUES (?, ..., ?)] binds the parameters by
    position; a placeholder left without a parameter stays NULL. *)
Fixpoint bind_columns (cols : list string) (params : list SqlValue) : Row :=
  match cols with
  | [] => []
  | c :: cs =>
      match params with
      | [] => (c, VNull) :: bind_columns cs []
      | p :: ps => (c, p) :: bind_columns cs ps
      end
  end.

(** [UPDATE ... SET c = v]: overwrite the column, or add it. *)
Fixpoint set_col (c : string) (v : SqlValue) (r : Row) : Row :=
  match r with
  | [] => [(c, v)]
  | (k, x) :: r' => if String.eqb k c then (k, v) :: r' else (k, x) :: set_col c v r'
  end.

Definition set_cols (sets : list (string * SqlValue)) (r : Row) : Row :=
  fold_left (fun acc kv => set_col (fst kv) (snd kv) acc) sets r.

(** [UPDATE t SET sets WHERE id = ?] *)
Definition update_where_id (key : SqlValue) (sets : list (string * SqlValue))
    (t : Table) : Table :=
  map (fun r => if sql_eq (col r "id") key then set_cols sets r else r) t.

(** ** ORDER BY *)

(** What the SQL engine guarantees for [ORDER BY key ASC]: the selected rows,
    rearranged so that the keys do not decrease.  Nothing is said about rows
    whose keys are equal. *)
Class SqlEngine : Type := {
  order_by : forall {A : Type}, (A -> A -> bool) -> list A -> list A;
  order_by_perm : forall {A : Type} (le : A -> A -> bool) (l : list A),
      order_by le l ≡ₚ l;
  order_by_sorted : forall {A : Type} (le : A -> A -> bool) (l : list A),
      (forall x y, le x y = true \/ le y x = true) ->
      (forall x y z, le x y = true -> le y z = true -> le x z = true) ->
      Sorted (fun x y => le x y = true) (order_by le l)
}.

(** A stable insertion sort: rows with equal keys stay in rowid order. *)
Fixpoint insert_sorted {A : Type} (le : A -> A -> bool) (x : A) (l : list A) : list A :=
  match l with
  | [] => [x]
  | y :: l' => if le x y then x :: l else y :: insert_sorted le x l'
  end.

Fixpoint insertion_sort {A : Type} (le : A -> A -> bool) (l : list A) : list A :=
  match l with
  | [] => []
  | x :: l' => insert_sorted le x (insertion_sort le l')
  end.

(** An engine that reads the selected rows in some order of its own and
    sorts them stably on the key. *)
Definition sorting_engine (scan : forall A : Type, list A -> list A)
    (scan_perm : forall (A : Type) (l : list A), scan A l ≡ₚ l) : SqlEngine.
Proof.
  refine {| order_by := fun A le l => insertion_sort le (scan A l) |}.
  - intros A le l. rewrite <- (scan_perm A l) at 2. generalize (scan A l). clear.
    assert (forall x l, insert_sorted le x l ≡ₚ x :: l) as Hins.
    { intros x l. induction l as [|y l IH]; simpl; [done|].
      destruct (le x y); [done|]. rewrite IH. apply Permutation_swap. }
    intros l. induction l as [|x l IH]; simpl; [done|]. by rewrite Hins, IH.
  - intros A le l Htot _. generalize (scan A l). clear l.
    assert (forall x l, Sorted (fun a b => le a b = true) l ->
                        Sorted (fun a b => le a b = true) (insert_sorted le x l)) as Hins.
    { intros x l. induction l as [|y l IH]; intros Hs; simpl.
      - repeat constructor.
      - destruct (le x y) eqn:Hxy.
        + constructor; [done|]. by constructor.
        + apply Sorted_inv in Hs as [Hs Hhd].
          constructor; [by apply IH|].
          destruct l as [|z l]; simpl.
          * constructor. destruct (Htot x y) as [H|H]; congruence.
          * destruct (le x z).
            -- constructor. destruct (Htot x y) as [H|H]; congruence.
            -- constructor. by inversion Hhd. }
    intros l. induction l as [|x l IH]; simpl; [constructor|]. by apply Hins.
Defined.

(** The engine that scans in rowid order: rows with equal keys stay in rowid
    order. *)
Definition rowid_engine : SqlEngine :=
  sorting_engine (fun A l => l) (fun A l => reflexivity l).

(** An engine that scans an index backwards: equally conforming, and rows
    with equal keys come out in descending rowid order. *)
Definition backward_scan_engine : SqlEngine :=
  sorting_engine (fun A l => reverse l) (fun A l => reverse_Permutation l).

(** ** The operation queue, the world and the environment *)

Inductive OperationType : Type := Create | Update | Delete.
Inductive EntityType : Type := Category | Item | Bill | Inventory.

Definition OperationType_eqb (a b : OperationType) : bool :=
  match a, b with
  | Create, Create | Update, Update | Delete, Delete => true
  | _, _ => false
  end.

Definition EntityType_eqb (a b : EntityType) : bool :=
  match a, b with
  | Category, Category | Item, Item | Bill, Bill | Inventory, Inventory => true
  | _, _ => false
  end.

(** [SyncOperation].  The field [data] has the type [any]; [op_data] is what
    [JSON.stringify(operation.data)] gives for it: a text, or [undefined]
    ([None]) when [operation.data] is undefined. *)
Record SyncOperation : Type := {
  op_operation_type : OperationType;
  op_entity_type : EntityType;
  op_entity_id : string;
  op_data : option string;
  op_timestamp : string
}.

(** A row of [sync_queue] ([DBSyncQueue]). *)
Record QueueRow : Type := {
  q_id : Z;
  q_operation_type : OperationType;
  q_entity_type : EntityType;
  q_entity_id : string;
  q_data : string;
  q_timestamp : string;
  q_retry_count : Z;
  q_last_error : option string;
  q_synced : Z;
  q_synced_at : option string;
  q_created_at : string
}.

(** A value produced by [JSON.parse], kept as its source text and its JS
    truthiness. *)
Record Json : Type := { json_text : string; json_truthy : bool }.

(** One element of the batch sent to [/items/categories/sync] and
    [/items/sync]. *)
Record SyncPayload : Type := {
  p_operation : OperationType;
  p_data : option Json;
  p_id : option string;
  p_timestamp : string
}.

(** An entity snapshot echoed by a batch endpoint; [image_url] is a text,
    or null or missing ([None]). *)
Record Snapshot : Type := {
  s_id : string;
  s_updated_at : SqlValue;
  s_last_updated : SqlValue;
  s_image_url : option string
}.

(** The body of the answer of a batch endpoint, when it is not null.  The
    endpoints are typed [Promise<any>]: the field [categories] (resp.
    [items]) may be missing ([None]), and an element of the array may be null
    ([None]), on which a property access throws. *)
Record SyncResponse : Type := {
  r_synced : Z;
  r_categories : option (list (option Snapshot));
  r_items : option (list (option Snapshot))
}.

(** A JSON object sent to the server, field by field. *)
Inductive WireValue : Type :=
| WSql (v : SqlValue)
| WJson (j : Json).

Definition WireObject : Type := list (string * WireValue).

Inductive Request : Type :=
| PostCategoriesSync (batch : list SyncPayload)
| PostItemsSync (batch : list SyncPayload)
| PostBackupSync (batch : list WireObject)
| GetBackupSync (limit : Z)
| GetInventory (id : SqlValue)
| PatchInventory (id : SqlValue) (body : WireObject)
| PostInventory (body : WireObject).

(** A promise settles: it resolves with a value or rejects, with the HTTP
    status when the server answered. *)
Inductive ApiResult (A : Type) : Type :=
| Resolved (a : A)
| Rejected (status : option Z).
Arguments Resolved {A} a.
Arguments Rejected {A} status.

Record HistoryItem : Type := { h_name : string; h_count : Z }.

Record HistoryEntry : Type := {
  e_id : string;
  e_date : string;
  e_timestamp : string;
  e_items : list HistoryItem
}.

(** What the device cannot decide by itself.  A batch endpoint resolves with
    a body, which may be null ([None]), or rejects.  [RNFS_downloadFile url
    path files] answers with a status code or rejects ([None]), and leaves
    the files it leaves. *)
Record Env : Type := {
  date_iso : nat -> string;
  netinfo_isConnected : option bool;
  json_parse : string -> option Json;
  formatDisplayDateTime : string -> string;
  api_categories_sync : list SyncPayload -> ApiResult (option SyncResponse);
  api_items_sync : list SyncPayload -> ApiResult (option SyncResponse);
  api_bills_sync : list WireObject -> ApiResult Z;
  api_bills_download : Z -> ApiResult (option (list Row));
  api_inventory_getById : SqlValue -> ApiResult unit;
  api_inventory_update : SqlValue -> WireObject -> ApiResult unit;
  api_inventory_create : WireObject -> ApiResult unit;
  DocumentDirectoryPath : string;
  RNFS_downloadFile : string -> string -> list string -> option Z * list string
}.

(** The device: the tables, the three AsyncStorage keys the service uses,
    the table [image_cache] and the paths of the files there are, the
    requests issued so far (oldest first), the delays of the [syncAll]
    callbacks handed to [setTimeout], and the number of clock readings. *)
Record World : Type := {
  sync_queue : list QueueRow;
  categories : Table;
  items : Table;
  bills : Table;
  inventory_items : Table;
  user_data : option string;
  sync_history : list HistoryEntry;
  last_sync_time : option string;
  image_cache : Table;
  files : list string;
  requests : list Request;
  timers : list Z;
  ticks : nat
}.

Definition set_sync_queue (f : list QueueRow -> list QueueRow) (w : World) : World :=
  {| sync_queue := f (sync_queue w); categories := categories w; items := items w;
     bills := bills w; inventory_items := inventory_items w; user_data := user_data w;
     sync_history := sync_history w; last_sync_time := last_sync_time w;
     image_cache := image_cache w; files := files w;
     requests := requests w; timers := timers w; ticks := ticks w |}.

Definition set_categories (f : Table -> Table) (w : World) : World :=
  {| sync_queue := sync_queue w; categories := f (categories w); items := items w;
     bills := bills w; inventory_items := inventory_items w; user_data := user_data w;
     sync_history := sync_history w; last_sync_time := last_sync_time w;
     image_cache := image_cache w; files := files w;
     requests := requests w; timers := timers w; ticks := ticks w |}.

Definition set_items (f : Table -> Table) (w : World) : World :=
  {| sync_queue := sync_queue w; categories := categories w; items := f (items w);
     bills := bills w; inventory_items := inventory_items w; user_data := user_data w;
     sync_history := sync_history w; last_sync_time := last_sync_time w;
     image_cache := image_cache w; files := files w;
     requests := requests w; timers := timers w; ticks := ticks w |}.

Definition set_bills (f : Table -> Table) (w : World) : World :=
  {| sync_queue := sync_queue w; categories := categories w; items := items w;
     bills := f (bills w); inventory_items := inventory_items w; user_data := user_data w;
     sync_history := sync_history w; last_sync_time := last_sync_time w;
     image_cache := image_cache w; files := files w;
     requests := requests w; timers := timers w; ticks := ticks w |}.

Definition set_inventory_items (f : Table -> Table) (w : World) : World :=
  {| sync_queue := sync_queue w; categories := categories w; items := items w;
     bills := bills w; inventory_items := f (inventory_items w); user_data := user_data w;
     sync_history := sync_history w; last_sync_time := last_sync_time w;
     image_cache := image_cache w; files := files w;
     requests := requests w; timers := timers w; ticks := ticks w |}.

Definition set_sync_history (f : list HistoryEntry -> list HistoryEntry) (w : World) : World :=
  {| sync_queue := sync_queue w; categories := categories w; items := items w;
     bills := bills w; inventory_items := inventory_items w; user_data := user_data w;
     sync_history := f (sync_history w); last_sync_time := last_sync_time w;
     image_cache := image_cache w; files := files w;
     requests := requests w; timers := timers w; ticks := ticks w |}.

Definition set_last_sync_time (t : option string) (w : World) : World :=
  {| sync_queue := sync_queue w; categories := categories w; items := items w;
     bills := bills w; inventory_items := inventory_items w; user_data := user_data w;
     sync_history := sync_history w; last_sync_time := t;
     image_cache := image_cache w; files := files w;
     requests := requests w; timers := timers w; ticks := ticks w |}.

Definition set_user_data (data : option string) (w : World) : World :=
  {| sync_queue := sync_queue w; categories := categories w; items := items w;
     bills := bills w; inventory_items := inventory_items w; user_data := data;
     sync_history := sync_history w; last_sync_time := last_sync_time w;
     image_cache := image_cache w; files := files w;
     requests := requests w; timers := timers w; ticks := ticks w |}.

Definition set_image_cache (f : Table -> Table) (w : World) : World :=
  {| sync_queue := sync_queue w; categories := categories w; items := items w;
     bills := bills w; inventory_items := inventory_items w; user_data := user_data w;
     sync_history := sync_history w; last_sync_time := last_sync_time w;
     image_cache := f (image_cache w); files := files w;
     requests := requests w; timers := timers w; ticks := ticks w |}.

Definition set_files (f : list string -> list string) (w : World) : World :=
  {| sync_queue := sync_queue w; categories := categories w; items := items w;
     bills := bills w; inventory_items := inventory_items w; user_data := user_data w;
     sync_history := sync_history w; last_sync_time := last_sync_time w;
     image_cache := image_cache w; files := f (files w);
     requests := requests w; timers := timers w; ticks := ticks w |}.

Definition add_request (r : Request) (w : World) : World :=
  {| sync_queue := sync_queue w; categories := categories w; items := items w;
     bills := bills w; inventory_items := inventory_items w; user_data := user_data w;
     sync_history := sync_history w; last_sync_time := last_sync_time w;
     image_cache := image_cache w; files := files w;
     requests := requests w ++ [r]; timers := timers w; ticks := ticks w |}.

Definition add_timer (delay : Z) (w : World) : World :=
  {| sync_queue := sync_queue w; categories := categories w; items := items w;
     bills := bills w; inventory_items := inventory_items w; user_data := user_data w;
     sync_history := sync_history w; last_sync_time := last_sync_time w;
     image_cache := image_cache w; files := files w;
     requests := requests w; timers := timers w ++ [delay]; ticks := ticks w |}.

Definition tick (w : World) : World :=
  {| sync_queue := sync_queue w; categories := categories w; items := items w;
     bills := bills w; inventory_items := inventory_items w; user_data := user_data w;
     sync_history := sync_history w; last_sync_time := last_sync_time w;
     image_cache := image_cache w; files := files w;
     requests := requests w; timers := timers w; ticks := S (ticks w) |}.

(** ** Computations: state, and exceptions that [try]/[catch] can stop *)

(** What is thrown: a rejected request, [JSON.parse] on a text that is no
    JSON, a property access on null or undefined, a constraint of the schema
    that refuses a statement, and a plain [Error] (a failed download). *)
Inductive Error : Type :=
| RequestError (status : option Z)
| SyntaxError
| TypeError
| ConstraintError
| PlainError.

Inductive Outcome (A : Type) : Type :=
| Return (a : A)
| Throw (e : Error).
Arguments Return {A} a.
Arguments Throw {A} e.

(** [error.response?.status !== n] *)
Definition status_is_not (error : Error) (n : Z) : bool :=
  match error with
  | RequestError (Some status) => negb (status =? n)
  | _ => true
  end.

Definition M (A : Type) : Type := World -> Outcome A * World.

Definition ret {A : Type} (a : A) : M A := fun w => (Return a, w).
Definition throw {A : Type} (e : Error) : M A := fun w => (Throw e, w).

Definition bind {A B : Type} (m : M A) (k : A -> M B) : M B :=
  fun w => match m w with
           | (Return a, w') => k a w'
           | (Throw e, w') => (Throw e, w')
           end.

(** [try { m } catch (e) { h e }]: what [m] wrote before throwing stays. *)
Definition try_catch {A : Type} (m : M A) (h : Error -> M A) : M A :=
  fun w => match m w with
           | (Return a, w') => (Return a, w')
           | (Throw e, w') => h e w'
           end.

Definition get : M World := fun w => (Return w, w).
Definition modify (f : World -> World) : M unit := fun w => (Return tt, f w).

Notation "'let*' x ':=' m 'in' k" := (bind m (fun x => k))
  (at level 10, x name, m at level 100, k at level 200).
Notation "m ';;' k" := (bind m (fun _ => k))
  (at level 100, k at level 200, right associativity).

(** [for (const x of l) { await f(x) }] *)
Fixpoint for_each {A : Type} (l : list A) (f : A -> M unit) : M unit :=
  match l with
  | [] => ret tt
  | x :: l' => f x ;; for_each l' f
  end.

(** [l.map(f)] where [f] may throw. *)
Fixpoint map_m {A B : Type} (f : A -> M B) (l : list A) : M (list B) :=
  match l with
  | [] => ret []
  | x :: l' => let* y := f x in let* ys := map_m f l' in ret (y :: ys)
  end.

Record DrainResult : Type := { success : bool; synced : Z }.

Record SyncAllResult : Type := {
  all_success : bool;
  categoriesSynced : Z;
  itemsSynced : Z;
  billsSynced : Z;
  inventorySynced : Z
}.

Definition zero_result : SyncAllResult :=
  {| all_success := false; categoriesSynced := 0; itemsSynced := 0;
     billsSynced := 0; inventorySynced := 0 |}.

(** [UPDATE sync_queue SET synced = 1, synced_at = ?] on one row *)
Definition mark_row (now : string) (r : QueueRow) : QueueRow :=
  {| q_id := q_id r; q_operation_type := q_operation_type r;
     q_entity_type := q_entity_type r; q_entity_id := q_entity_id r;
     q_data := q_data r; q_timestamp := q_timestamp r;
     q_retry_count := q_retry_count r; q_last_error := q_last_error r;
     q_synced := 1; q_synced_at := Some now; q_created_at := q_created_at r |}.

(** [UPDATE sync_queue SET retry_count = retry_count + 1, last_error = ?] on
    one row *)
Definition fail_row (error : string) (r : QueueRow) : QueueRow :=
  {| q_id := q_id r; q_operation_type := q_operation_type r;
     q_entity_type := q_entity_type r; q_entity_id := q_entity_id r;
     q_data := q_data r; q_timestamp := q_timestamp r;
     q_retry_count := q_retry_count r + 1; q_last_error := Some error;
     q_synced := q_synced r; q_synced_at := q_synced_at r;
     q_created_at := q_created_at r |}.

(** AUTOINCREMENT: one more than the largest id in use. *)
Definition next_id (q : list QueueRow) : Z := 1 + fold_right Z.max 0 (map q_id q).

Definition le_created_at (a b : QueueRow) : bool :=
  String.leb (q_created_at a) (q_created_at b).

Definition is_pending (e : EntityType) (r : QueueRow) : bool :=
  EntityType_eqb (q_entity_type r) e && (q_synced r =? 0).

Definition is_delete (r : QueueRow) : bool := OperationType_eqb (q_operation_type r) Delete.

(** [s.split('T')[0]] *)
Fixpoint split_T_first (s : string) : string :=
  match s with
  | EmptyString => EmptyString
  | String c s' => if Ascii.eqb c "T" then EmptyString else String c (split_T_first s')
  end.

Definition inventory_fields : list string :=
  ["name"; "description"; "quantity"; "unit_type"; "sku"; "barcode";
   "supplier_name"; "supplier_contact"; "min_stock_level"; "reorder_quantity";
   "is_active"]%string.

Definition inventory_body (item : Row) : WireObject :=
  map (fun c => (c, WSql (col item c))) inventory_fields.

Definition bills_columns : list string :=
  ["id"; "invoice_number"; "bill_number"; "billing_mode"; "restaurant_name";
   "address"; "gstin"; "fssai_license"; "bill_date"; "customer_name";
   "customer_phone"; "items"; "subtotal"; "discount_amount";
   "discount_percentage"; "cgst_amount"; "sgst_amount"; "igst_amount";
   "total_tax"; "total_amount"; "payment_mode"; "payment_reference";
   "amount_paid"; "change_amount"; "notes"; "device_id"; "vendor_id";
   "is_synced"; "created_at"; "updated_at"]%string.

(** [x || null] and [x || undefined] on an optional text: the empty text is
    falsy. *)
Definition or_null (x : option string) : option string :=
  match x with
  | Some s => if String.eqb s EmptyString then None else Some s
  | None => None
  end.

(** A JS text, null or undefined, bound to a placeholder *)
Definition sql_of (x : option string) : SqlValue :=
  match x with Some s => VText s | None => VNull end.

Definition is_null (v : SqlValue) : bool :=
  match v with VNull => true | _ => false end.

(** [UPDATE t SET sets WHERE p] *)
Definition update_where (p : Row -> bool) (sets : list (string * SqlValue))
    (t : Table) : Table :=
  map (fun r => if p r then set_cols sets r else r) t.

(** [DELETE FROM t WHERE p] *)
Definition delete_where (p : Row -> bool) (t : Table) : Table :=
  List.filter (fun r => negb (p r)) t.

(** [await p] of a promise that may reject *)
Definition attempt {A : Type} (f : World -> option A * World) : M A :=
  fun w => match f w with
           | (Some a, w') => (Return a, w')
           | (None, w') => (Throw PlainError, w')
           end.

(** [x.field] on a value that may be null: a [TypeError] when it is. *)
Definition property_of {A : Type} (x : option A) : M A :=
  match x with
  | Some a => ret a
  | None => throw TypeError
  end.

(** ** The image cache ([src/utils/imageCache.ts])

    The cache keeps the table [image_cache] and the downloaded files; the
    item drain fills it for the items the server echoes, and the
    authentication service for the vendor's logo.  A function of the cache
    that rejects answers [None]. *)

Inductive EntityKind : Type := vendor_kind | item_kind.

Definition kind_name (k : EntityKind) : string :=
  match k with vendor_kind => "vendor"%string | item_kind => "item"%string end.

Definition image_cache_columns : list string :=
  ["entity_type"; "entity_id"; "remote_url"; "local_path"; "cached_at";
   "expires_at"]%string.

(** [WHERE entity_type = ? AND entity_id = ?] *)
Definition cache_entry_of (entityType entityId : string) (r : Row) : bool :=
  sql_eq (col r "entity_type") (VText entityType) &&
  sql_eq (col r "entity_id") (VText entityId).

Section ImageCache.

Context (env : Env).

(** [new Date().toISOString()] *)
Definition read_clock (w : World) : string * World :=
  (date_iso env (ticks w), tick w).

Definition VENDOR_LOGO_DIR : string :=
  (DocumentDirectoryPath env ++ "/images/vendors")%string.

Definition ITEM_IMAGE_DIR : string :=
  (DocumentDirectoryPath env ++ "/images/items")%string.

(** [downloadImage]: the path on a status of 200, a throw ([None])
    otherwise. *)
Definition downloadImage (url localPath : string) (w : World)
    : option string * World :=
  let (statusCode, files') := RNFS_downloadFile env url localPath (files w) in
  let w := set_files (fun _ => files') w in
  match statusCode with
  | Some code => if code =? 200 then (Some localPath, w) else (None, w)
  | None => (None, w)
  end.

(** The block "Save to database" of [cacheVendorLogo] and [cacheItemImage]:
    update the cache entries of the entity if there is one, insert one
    otherwise. *)
Definition save_cache_entry (entityType entityId url localPath : string)
    (w : World) : World :=
  let (now, w) := read_clock w in
  let existing := List.filter (cache_entry_of entityType entityId) (image_cache w) in
  if 0 <? Z.of_nat (length existing)
  then set_image_cache
         (update_where (cache_entry_of entityType entityId)
            [("remote_url", VText url); ("local_path", VText localPath);
             ("cached_at", VText now); ("expires_at", VNull)]%string) w
  else set_image_cache
         (fun t => t ++ [bind_columns image_cache_columns
                           [VText entityType; VText entityId; VText url;
                            VText localPath; VText now; VNull]]) w.

Definition cacheVendorLogo (vendorId logoUrl : string) (w : World)
    : option string * World :=
  let filename := ("logo_" ++ vendorId ++ ".jpg")%string in
  let localPath := (VENDOR_LOGO_DIR ++ "/" ++ filename)%string in
  match downloadImage logoUrl localPath w with
  | (Some _, w) => (Some localPath, save_cache_entry "vendor" vendorId logoUrl localPath w)
  | (None, w) => (None, w)
  end.

(** [cacheItemImage]: after the download and the cache entry, the item's row
    gets the local path ([UPDATE items SET local_image_path = ? WHERE id = ?]). *)
Definition cacheItemImage (itemId imageUrl : string) (w : World)
    : option string * World :=
  let filename := ("item_" ++ itemId ++ ".jpg")%string in
  let localPath := (ITEM_IMAGE_DIR ++ "/" ++ filename)%string in
  match downloadImage imageUrl localPath w with
  | (Some _, w) =>
      let w := save_cache_entry "item" itemId imageUrl localPath w in
      (Some localPath,
       set_items (update_where_id (VText itemId)
                    [("local_image_path", VText localPath)]%string) w)
  | (None, w) => (None, w)
  end.

(** [getLocalImagePath]: null when there is no entry; when the file of the
    first entry is gone, the entries of the entity are deleted and the answer
    is null.  [RNFS.exists] of a path that is no text rejects, which the
    [catch] turns into null. *)
Definition getLocalImagePath (entityType : EntityKind) (entityId : string)
    (w : World) : option string * World :=
  let rows := List.filter (cache_entry_of (kind_name entityType) entityId)
                          (image_cache w) in
  match rows with
  | [] => (None, w)
  | row :: _ =>
      match col row "local_path" with
      | VText localPath =>
          if existsb (String.eqb localPath) (files w)
          then (Some localPath, w)
          else (None, set_image_cache
                        (delete_where (cache_entry_of (kind_name entityType) entityId)) w)
      | _ => (None, w)
      end
  end.

(** [getImageSource]: the [uri] of the source, the local file first *)
Definition getImageSource (entityType : EntityKind) (entityId : string)
    (remoteUrl : option string) (w : World) : option string * World :=
  let (localPath, w) := getLocalImagePath entityType entityId w in
  match or_null localPath with
  | Some path => (Some ("file://" ++ path)%string, w)
  | None =>
      match or_null remoteUrl with
      | Some url => (Some url, w)
      | None => (None, w)
      end
  end.

(** [RNFS.unlink] inside its own [try]: a missing file changes nothing *)
Definition unlink (v : SqlValue) (w : World) : World :=
  match v with
  | VText path => set_files (List.filter (fun f => negb (String.eqb f path))) w
  | _ => w
  end.

Definition clearImageCache (entityType : EntityKind) (entityId : string)
    (w : World) : World :=
  let rows := List.filter (cache_entry_of (kind_name entityType) entityId)
                          (image_cache w) in
  let w := match rows with
           | row :: _ => unlink (col row "local_path") w
           | [] => w
           end in
  set_image_cache (delete_where (cache_entry_of (kind_name entityType) entityId)) w.

End ImageCache.

(** ** The sync service *)

Section Service.

Context (env : Env) {engine : SqlEngine}.

(** *** Clock, connectivity, JSON, requests *)

Definition new_Date_toISOString : M string :=
  fun w => (Return (date_iso env (ticks w)), tick w).

(** [(await NetInfo.fetch()).isConnected ?? false] *)
Definition getNetworkStatus : M bool :=
  ret (match netinfo_isConnected env with Some b => b | None => false end).

Definition JSON_parse (s : string) : M Json :=
  match json_parse env s with
  | Some j => ret j
  | None => throw SyntaxError
  end.

(** [JSON.parse] of a column: text is parsed, NULL parses to [null], a
    number to itself. *)
Definition JSON_parse_value (v : SqlValue) : M Json :=
  match v with
  | VText s => JSON_parse s
  | VNull => ret {| json_text := "null"; json_truthy := false |}
  | _ => ret {| json_text := EmptyString; json_truthy := truthy v |}
  end.

(** [await API.x(...)]: the request goes out, then the promise settles. *)
Definition await {A : Type} (req : Request) (res : ApiResult A) : M A :=
  fun w => match res with
           | Resolved a => (Return a, add_request req w)
           | Rejected st => (Throw (RequestError st), add_request req w)
           end.

(** *** Queue operations *)

(** [INSERT INTO sync_queue (..., data, ...)]: the column is declared
    [data TEXT NOT NULL], so the statement is refused when the parameter is
    undefined, which binds as NULL. *)
Definition insert_sync_queue (operation : SyncOperation) (now : string) : M unit :=
  match op_data operation with
  | Some data =>
      modify (set_sync_queue (fun q => q ++ [
        {| q_id := next_id q;
           q_operation_type := op_operation_type operation;
           q_entity_type := op_entity_type operation;
           q_entity_id := op_entity_id operation;
           q_data := data;
           q_timestamp := op_timestamp operation;
           q_retry_count := 0; q_last_error := None;
           q_synced := 0; q_synced_at := None;
           q_created_at := now |} ]))
  | None => throw ConstraintError
  end.

Definition queueOperation (operation : SyncOperation) : M unit :=
  let* now := new_Date_toISOString in
  try_catch
    (insert_sync_queue operation now ;;
     let* online := getNetworkStatus in
     if online then modify (add_timer 500) else ret tt)
    (fun error => throw error).

Definition getPendingOperations : M (list QueueRow) :=
  try_catch
    (let* w := get in
     ret (order_by le_created_at
            (List.filter (fun r => q_synced r =? 0) (sync_queue w))))
    (fun _ => ret []).

Definition markOperationSynced (operationId : Z) : M unit :=
  let* now := new_Date_toISOString in
  try_catch
    (modify (set_sync_queue
       (map (fun r => if q_id r =? operationId then mark_row now r else r))))
    (fun _ => ret tt).

Definition updateRetryCount (operationId : Z) (error : string) : M unit :=
  try_catch
    (modify (set_sync_queue
       (map (fun r => if q_id r =? operationId then fail_row error r else r))))
    (fun _ => ret tt).

(** *** The category and item drains *)

(** [SELECT * FROM sync_queue WHERE entity_type = e AND synced = 0
     ORDER BY created_at ASC] *)
Definition pending_operations (e : EntityType) (w : World) : list QueueRow :=
  order_by le_created_at (List.filter (is_pending e) (sync_queue w)).

Definition sync_payload_of (op : QueueRow) : M SyncPayload :=
  let* data := (if negb (is_delete op)
                then (let* j := JSON_parse (q_data op) in ret (Some j))
                else ret None) in
  ret {| p_operation := q_operation_type op;
         p_data := data;
         p_id := if is_delete op then Some (q_entity_id op) else None;
         p_timestamp := q_timestamp op |}.

(** The batch [operations.map(...)] as a value: [None] when one of the
    [JSON.parse] calls throws. *)
Definition payload_of (op : QueueRow) : option SyncPayload :=
  if is_delete op
  then Some {| p_operation := q_operation_type op; p_data := None;
               p_id := Some (q_entity_id op); p_timestamp := q_timestamp op |}
  else match json_parse env (q_data op) with
       | Some j => Some {| p_operation := q_operation_type op; p_data := Some j;
                           p_id := None; p_timestamp := q_timestamp op |}
       | None => None
       end.

Fixpoint build_payload (ops : list QueueRow) : option (list SyncPayload) :=
  match ops with
  | [] => Some []
  | op :: ops' =>
      match payload_of op, build_payload ops' with
      | Some p, Some ps => Some (p :: ps)
      | _, _ => None
      end
  end.

Definition apply_category_snapshot (category : Snapshot) : M unit :=
  let* now := new_Date_toISOString in
  modify (set_categories (update_where_id (VText (s_id category))
    [("is_synced", VInt 1); ("server_updated_at", s_updated_at category);
     ("updated_at", VText now)]%string)).

(** In both drains the log line after the batch call reads
    [response.synced], which throws on a null body before anything is
    marked; in the loop over the echoed snapshots the parameters of the UPDATE
    read a property of the element, which throws on a null element. *)
Definition syncCategories : M DrainResult :=
  try_catch
    (let* w := get in
     let operations := pending_operations Category w in
     if Z.of_nat (length operations) =? 0
     then ret {| success := true; synced := 0 |}
     else
       let* syncPayload := map_m sync_payload_of operations in
       let* response := await (PostCategoriesSync syncPayload)
                              (api_categories_sync env syncPayload) in
       let* response := property_of response in
       for_each operations (fun op => markOperationSynced (q_id op)) ;;
       match r_categories response with
       | Some cats =>
           for_each cats (fun category =>
             let* category := property_of category in
             apply_category_snapshot category)
       | None => ret tt
       end ;;
       ret {| success := true; synced := Z.of_nat (length operations) |})
    (fun _ => ret {| success := false; synced := 0 |}).

(** One turn of the loop over [response.items]: the UPDATE, then, when the
    snapshot carries an image URL, [cacheItemImage] inside its own [try],
    whose [catch] only warns. *)
Definition apply_item_snapshot (item : Snapshot) : M unit :=
  let* now := new_Date_toISOString in
  modify (set_items (update_where_id (VText (s_id item))
    [("is_synced", VInt 1); ("server_updated_at", s_last_updated item);
     ("image_url", sql_of (s_image_url item)); ("updated_at", VText now)]%string)) ;;
  match or_null (s_image_url item) with
  | Some image_url =>
      try_catch (attempt (cacheItemImage env (s_id item) image_url) ;; ret tt)
                (fun _ => ret tt)
  | None => ret tt
  end.

Definition syncItems : M DrainResult :=
  try_catch
    (let* w := get in
     let operations := pending_operations Item w in
     if Z.of_nat (length operations) =? 0
     then ret {| success := true; synced := 0 |}
     else
       let* syncPayload := map_m sync_payload_of operations in
       let* response := await (PostItemsSync syncPayload)
                              (api_items_sync env syncPayload) in
       let* response := property_of response in
       for_each operations (fun op => markOperationSynced (q_id op)) ;;
       match r_items response with
       | Some its =>
           for_each its (fun item =>
             let* item := property_of item in
             apply_item_snapshot item)
       | None => ret tt
       end ;;
       ret {| success := true; synced := Z.of_nat (length operations) |})
    (fun _ => ret {| success := false; synced := 0 |}).

(** The two drains that upload queued operations, each with its entity
    type and its batch endpoint. *)
Inductive queue_drain_for :
  EntityType -> M DrainResult -> (list SyncPayload -> Request) ->
  (list SyncPayload -> ApiResult (option SyncResponse)) -> Prop :=
| drain_categories :
    queue_drain_for Category syncCategories PostCategoriesSync (api_categories_sync env)
| drain_items :
    queue_drain_for Item syncItems PostItemsSync (api_items_sync env).

(** *** The bills drain *)

(** [getUserData] of [src/services/auth.ts]: the text under [@user_data],
    parsed; [null] when the key is absent or empty, or when parsing throws. *)
Definition getUserData : M (option Json) :=
  try_catch
    (let* w := get in
     match user_data w with
     | Some data =>
         if negb (String.eqb data EmptyString)
         then (let* j := JSON_parse data in ret (Some j))
         else ret None
     | None => ret None
     end)
    (fun _ => ret None).

(** [!userData] *)
Definition not_userData (u : option Json) : bool :=
  match u with
  | Some j => negb (json_truthy j)
  | None => true
  end.

Definition le_bill_created_at (a b : Row) : bool :=
  sql_le (col a "created_at") (col b "created_at").

(** [SELECT * FROM bills WHERE is_synced = 0 ORDER BY created_at ASC LIMIT 50] *)
Definition unsynced_bills (w : World) : list Row :=
  take 50 (order_by le_bill_created_at
             (List.filter (fun b => sql_eq (col b "is_synced") (VInt 0)) (bills w))).

(** One bill in the wire schema of [/backup/sync]. *)
Definition bill_wire (bill : Row) : M WireObject :=
  let* billItems := JSON_parse_value (col bill "items") in
  let* bill_date :=
    (if truthy (col bill "bill_date") then ret (col bill "bill_date")
     else match col bill "created_at" with
          | VText s => ret (VText (split_T_first s))
          | _ => throw TypeError
          end) in
  ret [("invoice_number", WSql (js_or (col bill "invoice_number") (col bill "bill_number")));
       ("bill_id", WSql (col bill "id"));
       ("billing_mode", WSql (js_or (col bill "billing_mode") (VText "gst")));
       ("restaurant_name", WSql (js_or (col bill "restaurant_name") (VText EmptyString)));
       ("address", WSql (js_or (col bill "address") (VText EmptyString)));
       ("gstin", WSql (js_or (col bill "gstin") VNull));
       ("fssai_license", WSql (js_or (col bill "fssai_license") VNull));
       ("bill_date", WSql bill_date);
       ("items", WJson billItems);
       ("subtotal", WSql (col bill "subtotal"));
       ("discount_amount", WSql (js_or (col bill "discount_amount") (VInt 0)));
       ("discount_percentage", WSql (js_or (col bill "discount_percentage") (VInt 0)));
       ("cgst", WSql (js_or (col bill "cgst_amount") (VInt 0)));
       ("sgst", WSql (js_or (col bill "sgst_amount") (VInt 0)));
       ("igst", WSql (js_or (col bill "igst_amount") (VInt 0)));
       ("total_tax", WSql (js_or (col bill "total_tax") (VInt 0)));
       ("total", WSql (col bill "total_amount"));
       ("payment_mode", WSql (js_or (js_or (col bill "payment_mode")
                                           (col bill "payment_method")) (VText "cash")));
       ("payment_reference", WSql (js_or (col bill "payment_reference") VNull));
       ("amount_paid", WSql (js_or (col bill "amount_paid") (col bill "total_amount")));
       ("change_amount", WSql (js_or (col bill "change_amount") (VInt 0)));
       ("customer_name", WSql (js_or (col bill "customer_name") VNull));
       ("customer_phone", WSql (js_or (col bill "customer_phone") VNull));
       ("notes", WSql (js_or (col bill "notes") VNull));
       ("timestamp", WSql (col bill "created_at"));
       ("device_id", WSql (col bill "device_id"))]%string.

(** [UPDATE bills SET is_synced = 1 WHERE id IN (billIds)] *)
Definition mark_bills_synced (billIds : list SqlValue) (t : Table) : Table :=
  map (fun r => if existsb (sql_eq (col r "id")) billIds
                then set_col "is_synced" (VInt 1) r else r) t.

Definition syncBills : M DrainResult :=
  try_catch
    (let* userData := getUserData in
     if not_userData userData
     then ret {| success := false; synced := 0 |}
     else
       let* w := get in
       let bills := unsynced_bills w in
       if Z.of_nat (length bills) =? 0
       then ret {| success := true; synced := 0 |}
       else
         let* billPayload := map_m bill_wire bills in
         let* response := await (PostBackupSync billPayload)
                                (api_bills_sync env billPayload) in
         let billIds := map (fun b => col b "id") bills in
         modify (set_bills (mark_bills_synced billIds)) ;;
         ret {| success := true; synced := Z.of_nat (length bills) |})
    (fun _ => ret {| success := false; synced := 0 |}).

(** *** The inventory drain *)

(** Modelled from the spec: [getUnsyncedInventoryItems] of
    [src/services/storage.ts], which is not among the sources.  The spec has
    the drain work on "each unsynced inventory item": the rows of
    [inventory_items] whose [is_synced] is 0. *)
Definition getUnsyncedInventoryItems : M (list Row) :=
  let* w := get in
  ret (List.filter (fun r => sql_eq (col r "is_synced") (VInt 0)) (inventory_items w)).

(** Modelled from the spec: [markInventoryItemSynced] of
    [src/services/storage.ts], which is not among the sources.  The spec has
    the drain "mark that single item synced". *)
Definition markInventoryItemSynced (id : SqlValue) : M unit :=
  modify (set_inventory_items (update_where_id id [("is_synced", VInt 1)]%string)).

Definition sync_inventory_item (item : Row) : M unit :=
  let* existsOnServer :=
    try_catch
      (await (GetInventory (col item "id")) (api_inventory_getById env (col item "id")) ;;
       ret true)
      (fun error => if status_is_not error 404 then throw error else ret false) in
  (if existsOnServer : bool
   then await (PatchInventory (col item "id") (inventory_body item))
              (api_inventory_update env (col item "id") (inventory_body item))
   else await (PostInventory (inventory_body item))
              (api_inventory_create env (inventory_body item))) ;;
  markInventoryItemSynced (col item "id").

(** The [for] loop of [syncInventory] with its two counters. *)
Fixpoint inventory_loop (l : list Row) (syncedCount errorCount : Z) : M (Z * Z) :=
  match l with
  | [] => ret (syncedCount, errorCount)
  | item :: l' =>
      let* ok := try_catch (sync_inventory_item item ;; ret true)
                           (fun _ => ret false) in
      if ok : bool
      then inventory_loop l' (syncedCount + 1) errorCount
      else inventory_loop l' syncedCount (errorCount + 1)
  end.

Definition syncInventory : M DrainResult :=
  try_catch
    (let* unsyncedItems := getUnsyncedInventoryItems in
     if Z.of_nat (length unsyncedItems) =? 0
     then ret {| success := true; synced := 0 |}
     else
       let* counts := inventory_loop unsyncedItems 0 0 in
       ret {| success := snd counts =? 0; synced := fst counts |})
    (fun _ => ret {| success := false; synced := 0 |}).

(** *** Sync history and the full cycle *)

Definition history_items (categoriesSynced itemsSynced billsSynced : Z)
    (inventorySynced : option Z) : list HistoryItem :=
  List.filter (fun item => 0 <? h_count item)
    [ {| h_name := "Categories"; h_count := categoriesSynced |};
      {| h_name := "Items"; h_count := itemsSynced |};
      {| h_name := "Bills"; h_count := billsSynced |};
      {| h_name := "Inventory";
         h_count := match inventorySynced with Some n => n | None => 0 end |} ].

(** [history.unshift(newEntry)], then keep the first 20. *)
Definition push_history (newEntry : HistoryEntry) (history : list HistoryEntry) :
    list HistoryEntry :=
  let history := newEntry :: history in
  if 20 <? Z.of_nat (length history) then take 20 history else history.

Definition saveSyncToHistory (categoriesSynced itemsSynced billsSynced : Z)
    (inventorySynced : option Z) : M unit :=
  try_catch
    (let* now := new_Date_toISOString in
     let formattedDate := formatDisplayDateTime env now in
     let newEntry :=
       {| e_id := now; e_date := formattedDate; e_timestamp := now;
          e_items := history_items categoriesSynced itemsSynced billsSynced
                       inventorySynced |} in
     modify (set_sync_history (push_history newEntry)))
    (fun _ => ret tt).

Definition syncAll : M SyncAllResult :=
  let* online := getNetworkStatus in
  if negb online
  then ret zero_result
  else
    let* categoriesResult := syncCategories in
    let* itemsResult := syncItems in
    let* billsResult := syncBills in
    let* inventoryResult := syncInventory in
    let success :=
      success categoriesResult && success itemsResult &&
      success billsResult && success inventoryResult in
    (if success && ((0 <? synced categoriesResult) || (0 <? synced itemsResult) ||
                    (0 <? synced billsResult) || (0 <? synced inventoryResult))
     then
       saveSyncToHistory (synced categoriesResult) (synced itemsResult)
         (synced billsResult) (Some (synced inventoryResult)) ;;
       let* now := new_Date_toISOString in
       modify (set_last_sync_time (Some now))
     else ret tt) ;;
    ret {| all_success := success;
           categoriesSynced := synced categoriesResult;
           itemsSynced := synced itemsResult;
           billsSynced := synced billsResult;
           inventorySynced := synced inventoryResult |}.

(** *** The bills step of [initialSync] *)

(** The 29 parameters bound to the 30 placeholders of the INSERT: the array
    has no [bill.notes], so from [notes] on every column receives the
    parameter meant for the next one and [updated_at] receives none.  A
    downloaded bill is read as a row; its [items] field holds the text
    [JSON.stringify(bill.items)]. *)
Definition downloaded_bill_params (bill : Row) (now : string) : M (list SqlValue) :=
  let* bill_date :=
    (if truthy (col bill "bill_date") then ret (col bill "bill_date")
     else match col bill "timestamp" with
          | VText s => ret (VText (split_T_first s))
          | _ => throw TypeError
          end) in
  ret [col bill "id";
       col bill "invoice_number";
       js_or (col bill "bill_number") (col bill "invoice_number");
       js_or (col bill "billing_mode") (VText "gst");
       js_or (col bill "restaurant_name") (VText EmptyString);
       js_or (col bill "address") (VText EmptyString);
       js_or (col bill "gstin") VNull;
       js_or (col bill "fssai_license") VNull;
       bill_date;
       js_or (col bill "customer_name") VNull;
       js_or (col bill "customer_phone") VNull;
       col bill "items";
       col bill "subtotal";
       js_or (col bill "discount_amount") (VInt 0);
       js_or (col bill "discount_percentage") (VInt 0);
       js_or (col bill "cgst") (VInt 0);
       js_or (col bill "sgst") (VInt 0);
       js_or (col bill "igst") (VInt 0);
       js_or (col bill "total_tax") (VInt 0);
       col bill "total";
       js_or (col bill "payment_mode") (VText "cash");
       js_or (col bill "payment_reference") VNull;
       js_or (col bill "amount_paid") (col bill "total");
       js_or (col bill "change_amount") (VInt 0);
       js_or (col bill "device_id") VNull;
       js_or (col bill "vendor_id") VNull;
       VInt 1;
       col bill "timestamp";
       VText now]%string.

(** [SELECT id FROM bills WHERE invoice_number = ?] *)
Definition bills_with_invoice_number (v : SqlValue) (t : Table) : list Row :=
  List.filter (fun r => sql_eq (col r "invoice_number") v) t.

(** The columns that the [bills] table of [src/database/schema.ts] declares
    NOT NULL. *)
Definition bills_not_null : list string :=
  ["bill_number"; "items"; "subtotal"; "total_amount"; "created_at";
   "updated_at"]%string.

(** [INSERT INTO bills]: the row is appended, unless the table refuses it: a
    NOT NULL column left NULL, the primary key [id] or the unique
    [bill_number] already taken. *)
Definition insert_bill (row : Row) : M unit :=
  let* w := get in
  if forallb (fun c => negb (is_null (col row c))) bills_not_null &&
     negb (existsb (fun r => sql_eq (col r "id") (col row "id") ||
                             sql_eq (col r "bill_number") (col row "bill_number"))
                   (bills w))
  then modify (set_bills (fun t => t ++ [row]))
  else throw ConstraintError.

Definition insert_downloaded_bill (now : string) (bill : Row) : M unit :=
  let* w := get in
  let existing := bills_with_invoice_number (col bill "invoice_number") (bills w) in
  if Z.of_nat (length existing) =? 0
  then
    let* params := downloaded_bill_params bill now in
    insert_bill (bind_columns bills_columns params)
  else ret tt.

(** The block "Download recent bills history" of [initialSync]; [now] is the
    clock reading [initialSync] took when it started. *)
Definition initialSync_downloadBills (now : string) : M unit :=
  try_catch
    (let* billsResponse := await (GetBackupSync 100) (api_bills_download env 100) in
     match billsResponse with
     | Some downloaded => for_each downloaded (insert_downloaded_bill now)
     | None => throw TypeError
     end)
    (fun _ => ret tt).

End Service.

(** ** Notions used to state the properties *)

(** [keeps f m]: running [m] leaves the component [f] of the world as it was,
    whether [m] returns or throws. *)
Definition keeps {X A : Type} (f : World -> X) (m : M A) : Prop :=
  forall w o w', m w = (o, w') -> f w' = f w.

Definition returns_unit (m : M unit) : Prop :=
  forall w, exists w', m w = (Return tt, w').

(** What marking the ids [ids] does to one row. *)
Definition marked (ids : list Z) (r r' : QueueRow) : Prop :=
  if existsb (Z.eqb (q_id r)) ids then exists now, r' = mark_row now r else r' = r.

Definition created_le (a b : QueueRow) : Prop := le_created_at a b = true.
Definition created_lt (a b : QueueRow) : Prop :=
  String.ltb (q_created_at a) (q_created_at b) = true.

(** How many local bills carry the invoice number [inv]. *)
Fixpoint count_invoice (inv : string) (t : Table) : nat :=
  match t with
  | [] => 0%nat
  | r :: t' =>
      ((match col r "invoice_number" with
        | VText s => if String.eqb s inv then 1 else 0
        | _ => 0
        end) + count_invoice inv t')%nat
  end.

Definition has_invoice (inv : string) (downloaded : list Row) : bool :=
  existsb (fun b => sql_eq (col b "invoice_number") (VText inv)) downloaded.

(** The snapshots that the answer echoes for the entity type of a drain, and
    whether none of them is null. *)
Definition echoed_snapshots (e : EntityType) (response : SyncResponse)
    : option (list (option Snapshot)) :=
  match e with
  | Category => r_categories response
  | Item => r_items response
  | _ => None
  end.

Definition not_null {A : Type} (x : option A) : bool :=
  match x with Some _ => true | None => false end.

Definition well_formed_echo (e : EntityType) (response : SyncResponse) : bool :=
  match echoed_snapshots e response with
  | Some snapshots => forallb not_null snapshots
  | None => true
  end.


Section ServiceViews.

Context (env : Env) {engine : SqlEngine}.

(** The two queue drains share their shape; they differ in the entity type,
    the endpoint and the table the echoed snapshots go to. *)
Definition queue_drain (e : EntityType) (req : list SyncPayload -> Request)
    (api : list SyncPayload -> ApiResult (option SyncResponse))
    (echo : SyncResponse -> M unit) : M DrainResult :=
  try_catch
    (let* w := get in
     let operations := pending_operations e w in
     if Z.of_nat (length operations) =? 0
     then ret {| success := true; synced := 0 |}
     else
       let* syncPayload := map_m (sync_payload_of env) operations in
       let* response := await (req syncPayload) (api syncPayload) in
       let* response := property_of response in
       for_each operations (fun op => markOperationSynced env (q_id op)) ;;
       echo response ;;
       ret {| success := true; synced := Z.of_nat (length operations) |})
    (fun _ => ret {| success := false; synced := 0 |}).

Definition echo_categories (response : SyncResponse) : M unit :=
  match r_categories response with
  | Some cats =>
      for_each cats (fun category =>
        let* category := property_of category in
        apply_category_snapshot env category)
  | None => ret tt
  end.

Definition echo_items (response : SyncResponse) : M unit :=
  match r_items response with
  | Some its =>
      for_each its (fun item =>
        let* item := property_of item in
        apply_item_snapshot env item)
  | None => ret tt
  end.

Definition cycle_success (c i b v : DrainResult) : bool :=
  success c && success i && success b && success v.

Definition cycle_result (c i b v : DrainResult) : SyncAllResult :=
  {| all_success := cycle_success c i b v;
     categoriesSynced := synced c; itemsSynced := synced i;
     billsSynced := synced b; inventorySynced := synced v |}.

Definition some_synced (c i b v : DrainResult) : bool :=
  (0 <? synced c) || (0 <? synced i) || (0 <? synced b) || (0 <? synced v).

(** The entry [saveSyncToHistory] builds when its clock reading is [now]. *)
Definition history_entry (now : string) (c i b v : DrainResult) : HistoryEntry :=
  {| e_id := now; e_date := formatDisplayDateTime env now; e_timestamp := now;
     e_items := history_items (synced c) (synced i) (synced b) (Some (synced v)) |}.

(** The world at the end of a cycle whose drains left [w4]. *)
Definition after_cycle (c i b v : DrainResult) (w4 : World) : World :=
  if cycle_success c i b v && some_synced c i b v
  then set_last_sync_time (Some (date_iso env (S (ticks w4))))
         (tick (set_sync_history
                  (push_history (history_entry (date_iso env (ticks w4)) c i b v))
                  (tick w4)))
  else w4.

End ServiceViews.

(** ** The connectivity listener of [initNetworkListener] *)

Module NetworkMonitor.

(** A callback handed to [setTimeout]: its handle and the instant from which
    it may run. *)
Record Timer : Type := { handle : nat; due : Z }.

(** The three module variables of the service, the timers that are scheduled
    and neither run nor cleared, the callbacks that are waiting for their
    [syncAll()] to settle, and the instants at which a callback called
    [syncAll()]. *)
Record State : Type := {
  isOnline : bool;
  offlineTimestamp : option Z;
  syncTimeout : option nat;
  scheduled : list Timer;
  next_handle : nat;
  awaiting : nat;
  sync_calls : list Z
}.

Definition initial : State :=
  {| isOnline := true; offlineTimestamp := None; syncTimeout := None;
     scheduled := []; next_handle := 1; awaiting := 0; sync_calls := [] |}.

Definition OFFLINE_THRESHOLD : Z := 3000.
Definition STABILIZATION_DELAY : Z := 2000.

Definition set_isOnline (b : bool) (s : State) : State :=
  {| isOnline := b; offlineTimestamp := offlineTimestamp s;
     syncTimeout := syncTimeout s; scheduled := scheduled s;
     next_handle := next_handle s; awaiting := awaiting s;
     sync_calls := sync_calls s |}.

Definition set_offlineTimestamp (t : option Z) (s : State) : State :=
  {| isOnline := isOnline s; offlineTimestamp := t;
     syncTimeout := syncTimeout s; scheduled := scheduled s;
     next_handle := next_handle s; awaiting := awaiting s;
     sync_calls := sync_calls s |}.

(** [clearTimeout(h)]: a no-op when the timer has already run *)
Definition clearTimeout (h : nat) (s : State) : State :=
  {| isOnline := isOnline s; offlineTimestamp := offlineTimestamp s;
     syncTimeout := syncTimeout s;
     scheduled := List.filter (fun t => negb (Nat.eqb (handle t) h)) (scheduled s);
     next_handle := next_handle s; awaiting := awaiting s;
     sync_calls := sync_calls s |}.

(** [syncTimeout = setTimeout(callback, delay)] at instant [now] *)
Definition setTimeout_sync (now delay : Z) (s : State) : State :=
  {| isOnline := isOnline s; offlineTimestamp := offlineTimestamp s;
     syncTimeout := Some (next_handle s);
     scheduled := scheduled s ++ [ {| handle := next_handle s; due := now + delay |} ];
     next_handle := S (next_handle s); awaiting := awaiting s;
     sync_calls := sync_calls s |}.

(** [offlineTimestamp ? Date.now() - offlineTimestamp : 0] *)
Definition offlineDuration (now : Z) (s : State) : Z :=
  match offlineTimestamp s with
  | Some t => if t =? 0 then 0 else now - t
  | None => 0
  end.

(** The listener registered with [NetInfo.addEventListener], run at instant
    [now] on a state whose [isConnected] is a boolean or null. *)
Definition listener (now : Z) (isConnected : option bool) (s : State) : State :=
  let wasOffline := negb (isOnline s) in
  let s := set_isOnline (match isConnected with Some b => b | None => false end) s in
  let s := if negb (isOnline s) && negb wasOffline
           then set_offlineTimestamp (Some now) s else s in
  if wasOffline && isOnline s
  then
    if OFFLINE_THRESHOLD <? offlineDuration now s
    then
      let s := match syncTimeout s with
               | Some h => clearTimeout h s
               | None => s
               end in
      setTimeout_sync now STABILIZATION_DELAY s
    else set_offlineTimestamp None s
  else s.

(** The timer loop at instant [now]: every scheduled callback that is due
    starts, which calls [syncAll()]. *)
Definition run_timers (now : Z) (s : State) : State :=
  let ready := List.filter (fun t => due t <=? now) (scheduled s) in
  {| isOnline := isOnline s; offlineTimestamp := offlineTimestamp s;
     syncTimeout := syncTimeout s;
     scheduled := List.filter (fun t => negb (due t <=? now)) (scheduled s);
     next_handle := next_handle s;
     awaiting := (awaiting s + length ready)%nat;
     sync_calls := sync_calls s ++ map (fun _ => now) ready |}.

(** [await syncAll()] settles in a callback: its [finally] block runs. *)
Definition settle (s : State) : State :=
  match awaiting s with
  | O => s
  | S n =>
      {| isOnline := isOnline s; offlineTimestamp := None;
         syncTimeout := syncTimeout s; scheduled := scheduled s;
         next_handle := next_handle s; awaiting := n;
         sync_calls := sync_calls s |}
  end.

Inductive Event : Type :=
| NetInfoChange (now : Z) (isConnected : option bool)
| TimersRun (now : Z)
| SyncSettles.

Definition step (s : State) (e : Event) : State :=
  match e with
  | NetInfoChange now isConnected => listener now isConnected s
  | TimersRun now => run_timers now s
  | SyncSettles => settle s
  end.

Definition run (events : list Event) (s : State) : State := fold_left step events s.

(** What the device really went through, read off the events alone: whether
    it is connected, and since when it is not.  [only_flaps] holds when every
    reconnection closes an offline interval of at most 3000 ms. *)
Fixpoint only_flaps (online : bool) (since : Z) (events : list Event) : Prop :=
  match events with
  | [] => True
  | NetInfoChange now isConnected :: events' =>
      let connected := match isConnected with Some b => b | None => false end in
      if online
      then (if connected then only_flaps true since events'
            else only_flaps false now events')
      else (if connected
            then now - since <= OFFLINE_THRESHOLD /\ only_flaps true since events'
            else only_flaps false since events')
  | _ :: events' => only_flaps online since events'
  end.

(** While nothing but flaps has happened: the listener agrees with what the
    device went through, and nothing is scheduled, running or recorded. *)
Definition quiet (online : bool) (since : Z) (s : State) : Prop :=
  isOnline s = online /\
  scheduled s = [] /\
  awaiting s = O /\
  sync_calls s = [] /\
  syncTimeout s = None /\
  offlineTimestamp s = if online then None else Some since.

(** The slot holds the only callback there is. *)
Definition one_slot (s : State) : Prop :=
  scheduled s = [] \/
  exists h d, scheduled s = [ {| handle := h; due := d |} ] /\ syncTimeout s = Some h.

(** The device drops 1 s after a restoration, while the callback of that
    restoration is still waiting; the callback runs and settles during the
    second outage; the device comes back 13 s after it dropped. *)
Definition second_outage : list Event :=
  [ NetInfoChange 1000 (Some false);
    NetInfoChange 6000 (Some true);
    NetInfoChange 7000 (Some false);
    TimersRun 8000;
    SyncSettles ].

End NetworkMonitor.

(** ** A shop, to run the service on *)

Module Scenario.

(** A server and a device clock: the clock shows [stamps] one after the
    other; every non-empty text parses; the two batch endpoints answer or
    fail with a 500; [/backup/sync] returns [downloaded]; no inventory item
    is known to the server; every download goes through. *)
Definition stamps_env (stamps : list string) (isConnected : option bool)
    (categories_up items_up : bool) (downloaded : list Row) : Env :=
  {| date_iso := fun n => nth n stamps "2024-01-02T00:00:00.000Z"%string;
     netinfo_isConnected := isConnected;
     json_parse := fun s => if String.eqb s EmptyString then None
                            else Some {| json_text := s; json_truthy := true |};
     formatDisplayDateTime := fun s => s;
     api_categories_sync := fun batch =>
       if categories_up
       then Resolved (Some {| r_synced := Z.of_nat (length batch);
                              r_categories := None; r_items := None |})
       else Rejected (Some 500);
     api_items_sync := fun batch =>
       if items_up
       then Resolved (Some {| r_synced := Z.of_nat (length batch);
                              r_categories := None; r_items := None |})
       else Rejected (Some 500);
     api_bills_sync := fun batch => Resolved (Z.of_nat (length batch));
     api_bills_download := fun _ => Resolved (Some downloaded);
     api_inventory_getById := fun _ => Rejected (Some 404);
     api_inventory_update := fun _ _ => Resolved tt;
     api_inventory_create := fun _ => Resolved tt;
     DocumentDirectoryPath := "/data";
     RNFS_downloadFile := fun _ toFile files => (Some 200, toFile :: files) |}.

Definition morning : list string :=
  ["2024-01-01T10:00:00.000Z"; "2024-01-01T10:00:01.000Z";
   "2024-01-01T10:00:02.000Z"; "2024-01-01T10:00:03.000Z";
   "2024-01-01T10:00:04.000Z"; "2024-01-01T10:00:05.000Z";
   "2024-01-01T10:00:06.000Z"; "2024-01-01T10:00:07.000Z"]%string.

Definition offline : Env := stamps_env morning (Some false) true true [].
Definition all_up : Env := stamps_env morning (Some true) true true [].
Definition categories_down : Env := stamps_env morning (Some true) false true [].
Definition items_down : Env := stamps_env morning (Some true) true false [].

Definition empty_world : World :=
  {| sync_queue := []; categories := []; items := []; bills := [];
     inventory_items := []; user_data := None; sync_history := [];
     last_sync_time := None; image_cache := []; files := [];
     requests := []; timers := []; ticks := 0 |}.

Definition create_category : SyncOperation :=
  {| op_operation_type := Create; op_entity_type := Category; op_entity_id := "c1";
     op_data := Some "[1]"%string; op_timestamp := "2024-01-01T09:59:00.000Z" |}.

Definition update_category : SyncOperation :=
  {| op_operation_type := Update; op_entity_type := Category; op_entity_id := "c1";
     op_data := Some "[2]"%string; op_timestamp := "2024-01-01T09:59:30.000Z" |}.

Definition create_item : SyncOperation :=
  {| op_operation_type := Create; op_entity_type := Item; op_entity_id := "i1";
     op_data := Some "[3]"%string; op_timestamp := "2024-01-01T09:59:40.000Z" |}.

(** The store after the operations were queued one after the other. *)
Definition enqueued (env : Env) (ops : list SyncOperation) : World :=
  snd (for_each ops (queueOperation env) empty_world).

Definition bill_1 : Row :=
  [("id", VText "b1"); ("bill_number", VText "BILL-1"); ("items", VText "[]");
   ("subtotal", VInt 100); ("total_amount", VInt 100); ("device_id", VText "d1");
   ("is_synced", VInt 0); ("created_at", VText "2024-01-01T09:58:00.000Z");
   ("updated_at", VText "2024-01-01T09:58:00.000Z")]%string.

Definition flour : Row :=
  [("id", VText "v1"); ("name", VText "Flour"); ("quantity", VText "5");
   ("unit_type", VText "kg"); ("is_active", VInt 1); ("is_synced", VInt 0)]%string.

(** A signed-in device that queued a category and an item while offline and
    holds one unsynced bill and one unsynced inventory item. *)
Definition shop : World :=
  {| sync_queue := sync_queue (enqueued offline [create_category; create_item]);
     categories := []; items := []; bills := [bill_1];
     inventory_items := [flour]; user_data := Some "[4]"%string;
     sync_history := []; last_sync_time := None; image_cache := []; files := [];
     requests := []; timers := []; ticks := 2 |}.

(** A device on which, while offline, a category was created and then
    renamed, and an item created. *)
Definition renamed : World :=
  enqueued offline [create_category; update_category; create_item].

(** Two operations on the same category queued within one millisecond. *)
Definition same_millisecond : World :=
  enqueued (stamps_env [] (Some false) true true []) [create_category; update_category].

(** The device clock was set back two seconds between the two operations. *)
Definition clock_set_back : World :=
  enqueued (stamps_env ["2024-01-01T10:00:05.000Z"; "2024-01-01T10:00:03.000Z"]%string
              (Some false) true true [])
    [create_category; update_category].

Definition server_bill : Row :=
  [("id", VText "s1"); ("invoice_number", VText "INV-1"); ("items", VText "[]");
   ("subtotal", VInt 100); ("total", VInt 100);
   ("timestamp", VText "2024-01-01T08:00:00.000Z")]%string.

Definition with_backup : Env := stamps_env morning (Some true) true true [server_bill].


Definition with_items_sync
    (answer : list SyncPayload -> ApiResult (option SyncResponse)) (env : Env) : Env :=
  {| date_iso := date_iso env;
     netinfo_isConnected := netinfo_isConnected env;
     json_parse := json_parse env;
     formatDisplayDateTime := formatDisplayDateTime env;
     api_categories_sync := api_categories_sync env;
     api_items_sync := answer;
     api_bills_sync := api_bills_sync env;
     api_bills_download := api_bills_download env;
     api_inventory_getById := api_inventory_getById env;
     api_inventory_update := api_inventory_update env;
     api_inventory_create := api_inventory_create env;
     DocumentDirectoryPath := DocumentDirectoryPath env;
     RNFS_downloadFile := RNFS_downloadFile env |}.



(** The item endpoint echoes the item [i1], with the image the server keeps
    for it. *)
Definition tea_snapshot : Snapshot :=
  {| s_id := "i1"; s_updated_at := VNull;
     s_last_updated := VText "2024-01-01T10:00:09.000Z";
     s_image_url := Some "https://cdn.example/i1.jpg"%string |}.

Definition echoing : Env :=
  with_items_sync
    (fun batch => Resolved (Some {| r_synced := Z.of_nat (length batch);
                                    r_categories := None;
                                    r_items := Some [Some tea_snapshot] |}))
    all_up.

Definition tea : Row :=
  [("id", VText "i1"); ("name", VText "Tea"); ("price", VInt 20);
   ("is_synced", VInt 0); ("updated_at", VText "2024-01-01T09:59:40.000Z")]%string.

Definition scone : Row :=
  [("id", VText "i2"); ("name", VText "Scone"); ("price", VInt 45);
   ("is_synced", VInt 1); ("updated_at", VText "2023-12-30T08:00:00.000Z")]%string.

(** The shop with its two items in the local table. *)
Definition stocked_shop : World := set_items (fun _ => [tea; scone]) shop.

Definition payload_create_category : SyncPayload :=
  {| p_operation := Create;
     p_data := Some {| json_text := "[1]"; json_truthy := true |};
     p_id := None; p_timestamp := "2024-01-01T09:59:00.000Z" |}.

Definition payload_update_category : SyncPayload :=
  {| p_operation := Update;
     p_data := Some {| json_text := "[2]"; json_truthy := true |};
     p_id := None; p_timestamp := "2024-01-01T09:59:30.000Z" |}.

(** A reconnection 1200 ms after the connection dropped. *)
Definition flicker : list NetworkMonitor.Event :=
  [ NetworkMonitor.NetInfoChange 1000 (Some false);
    NetworkMonitor.NetInfoChange 2200 (Some true) ].

End Scenario.

(** ** Further notions, for the rest of the service *)

Section InventoryViews.

Context (env : Env).

(** The requests the inventory loop issues for one item: the probe, then
    the update when the item was found, the creation when the probe came
    back 404, and nothing more when the probe failed otherwise. *)
Definition inventory_item_requests (item : Row) : list Request :=
  match api_inventory_getById env (col item "id") with
  | Resolved _ =>
      [GetInventory (col item "id");
       PatchInventory (col item "id") (inventory_body item)]
  | Rejected status =>
      if status_is_not (RequestError status) 404
      then [GetInventory (col item "id")]
      else [GetInventory (col item "id"); PostInventory (inventory_body item)]
  end.

(** Whether the loop counts the item as synced. *)
Definition inventory_item_ok (item : Row) : bool :=
  match api_inventory_getById env (col item "id") with
  | Resolved _ =>
      match api_inventory_update env (col item "id") (inventory_body item) with
      | Resolved _ => true
      | Rejected _ => false
      end
  | Rejected status =>
      if status_is_not (RequestError status) 404
      then false
      else match api_inventory_create env (inventory_body item) with
           | Resolved _ => true
           | Rejected _ => false
           end
  end.

End InventoryViews.

(** A queue row that a cycle may have marked: it is as it was, or it was a
    pending operation of one of the entity types [es] and is now synced. *)
Definition kept_or_marked (es : list EntityType) (r r' : QueueRow) : Prop :=
  r' = r \/
  (existsb (EntityType_eqb (q_entity_type r)) es = true /\ q_synced r = 0 /\
   exists now, r' = mark_row now r).

(** The bills a drain would pick: unsynced, with a text id each, no id twice. *)
Definition unsynced (b : Row) : bool := sql_eq (col b "is_synced") (VInt 0).

Definition text_id (b : Row) : bool :=
  match col b "id" with VText _ => true | _ => false end.


(** The snapshots of an echoed array that the loop of a drain reaches: those
    before the first null element. *)
Fixpoint before_null (l : list (option Snapshot)) : list Snapshot :=
  match l with
  | Some s :: l' => s :: before_null l'
  | _ => []
  end.

Section EchoViews.

Context (env : Env) {engine : SqlEngine}.

(** The snapshots that the drain of [e] applies when it runs in [w]: those
    that the batch endpoint echoes for the pending batch, up to the first
    null one; none when the drain sends no batch or gets no body. *)
Definition applied_snapshots (e : EntityType)
    (api : list SyncPayload -> ApiResult (option SyncResponse)) (w : World)
    : list Snapshot :=
  match pending_operations e w with
  | [] => []
  | _ :: _ =>
      match build_payload env (pending_operations e w) with
      | Some batch =>
          match api batch with
          | Resolved (Some response) =>
              match echoed_snapshots e response with
              | Some snapshots => before_null snapshots
              | None => []
              end
          | _ => []
          end
      | None => []
      end
  end.

(** Where [cacheItemImage] puts the image of an item. *)
Definition item_image_path (itemId : string) : string :=
  (ITEM_IMAGE_DIR env ++ "/" ++ "item_" ++ itemId ++ ".jpg")%string.

(** What a drain may have done to a local category [r], now [r']: nothing;
    or one of the [snapshots] carries the id of the row, and the row is
    flagged as synced, has the [updated_at] of that snapshot as
    [server_updated_at] and, as [updated_at], a clock reading taken from the
    reading [lo] on and before the reading [hi], every other column being as
    it was. *)
Definition category_flagged (snapshots : list Snapshot) (lo hi : nat)
    (r r' : Row) : Prop :=
  r' = r \/
  exists s n,
    In s snapshots /\ (lo <= n < hi)%nat /\
    col r "id" = VText (s_id s) /\
    col r' "is_synced" = VInt 1 /\
    col r' "server_updated_at" = s_updated_at s /\
    col r' "updated_at" = VText (date_iso env n) /\
    forall c : string,
      c <> "is_synced"%string -> c <> "server_updated_at"%string ->
      c <> "updated_at"%string -> col r' c = col r c.

(** The same for a local item: the snapshot also gives its [image_url], and
    [local_image_path] is as it was, or is the place of the cached image
    when a snapshot of that id came with an image. *)
Definition item_flagged (snapshots : list Snapshot) (lo hi : nat)
    (r r' : Row) : Prop :=
  r' = r \/
  exists s n,
    In s snapshots /\ (lo <= n < hi)%nat /\
    col r "id" = VText (s_id s) /\
    col r' "is_synced" = VInt 1 /\
    col r' "server_updated_at" = s_last_updated s /\
    col r' "image_url" = sql_of (s_image_url s) /\
    col r' "updated_at" = VText (date_iso env n) /\
    (col r' "local_image_path" = col r "local_image_path" \/
     (exists s', In s' snapshots /\ s_id s' = s_id s /\
                 or_null (s_image_url s') <> None) /\
     col r' "local_image_path" = VText (item_image_path (s_id s))) /\
    forall c : string,
      c <> "is_synced"%string -> c <> "server_updated_at"%string ->
      c <> "image_url"%string -> c <> "updated_at"%string ->
      c <> "local_image_path"%string -> col r' c = col r c.

End EchoViews.

(** ** Signing in and out ([src/services/auth.ts])

    The authentication service keeps the token under [@auth_token], the user
    under [@user_data] (the key the bills drain reads) and in the [auth]
    table, and the vendor's profile in [vendor_profile]; to store a profile
    it calls the image cache for the logo.  The storage and SQL calls of the
    service are taken to succeed; the autoincremented [id] columns, which are
    only ever counted, are left out. *)

Module Auth.

(** [AuthData]; an optional field that is undefined is [None]. *)
Record AuthData : Type := {
  token : string;
  user_id : string;
  username : string;
  vendor_id : option string;
  business_name : option string;
  gst_no : option string;
  fssai_license : option string;
  logo_url : option string;
  footer_note : option string;
  address : option string;
  phone : option string
}.

(** The vendor object the server sends, with the fields the service reads; a
    field that is null or missing is [None]. *)
Record VendorProfile : Type := {
  v_id : string;
  v_username : option string;
  v_email : option string;
  v_business_name : option string;
  v_address : option string;
  v_phone : option string;
  v_gst_no : option string;
  v_fssai_license : option string;
  v_logo_url : option string;
  v_footer_note : option string;
  v_is_approved : bool
}.

(** What [getVendorProfile] returns: the columns of the row as they are. *)
Record StoredProfile : Type := {
  sp_id : SqlValue;
  sp_username : SqlValue;
  sp_email : SqlValue;
  sp_business_name : SqlValue;
  sp_address : SqlValue;
  sp_phone : SqlValue;
  sp_gst_no : SqlValue;
  sp_fssai_license : SqlValue;
  sp_logo_url : SqlValue;
  sp_footer_note : SqlValue;
  sp_is_approved : bool
}.

Record LoginResponse : Type := {
  r_token : string;
  r_user_id : Z;
  r_username : string;
  r_vendor : option VendorProfile
}.

(** What a request is rejected with: [error.response] (its status, and the
    [error] and [message] of its data) and [error.message]. *)
Record ErrorResponse : Type := {
  e_status : Z;
  e_data_error : option string;
  e_data_message : option string
}.

Record ApiError : Type := {
  e_response : option ErrorResponse;
  e_message : option string
}.

Inductive Reply (A : Type) : Type :=
| Fulfilled (a : A)
| Failed (error : ApiError).
Arguments Fulfilled {A} a.
Arguments Failed {A} error.

(** The requests of the service, each with the [Authorization] header the
    request interceptor of [api.ts] gave it. *)
Inductive AuthRequest : Type :=
| PostAuthLogin (username password : string) (authorization : option string)
| PostAuthLogout (authorization : option string)
| PatchAuthProfile (authorization : option string).

(** The platform: [JSON.stringify] and [JSON.parse] on [AuthData] (a text
    that does not parse, or parses to null, gives [None]) and the endpoints
    (the answer to a profile update carries a vendor, or none). *)
Record Platform : Type := {
  JSON_stringify : AuthData -> string;
  JSON_parse_AuthData : string -> option AuthData;
  api_auth_login : string -> string -> Reply LoginResponse;
  api_auth_logout : Reply unit;
  api_auth_updateProfile : Reply (option VendorProfile)
}.

(** The device as this service sees it: the device of the sync service (its
    [user_data] is the key [@user_data], its image cache the image cache, its
    clock the clock), the key [@auth_token], two more tables, and the
    requests sent. *)
Record Device : Type := {
  world : World;
  auth_token : option string;
  auth : Table;
  vendor_profile : Table;
  sent : list AuthRequest
}.

Definition set_world (f : World -> World) (d : Device) : Device :=
  {| world := f (world d); auth_token := auth_token d; auth := auth d;
     vendor_profile := vendor_profile d; sent := sent d |}.

Definition set_auth_token (t : option string) (d : Device) : Device :=
  {| world := world d; auth_token := t; auth := auth d;
     vendor_profile := vendor_profile d; sent := sent d |}.

Definition set_auth (f : Table -> Table) (d : Device) : Device :=
  {| world := world d; auth_token := auth_token d; auth := f (auth d);
     vendor_profile := vendor_profile d; sent := sent d |}.

Definition set_vendor_profile (f : Table -> Table) (d : Device) : Device :=
  {| world := world d; auth_token := auth_token d; auth := auth d;
     vendor_profile := f (vendor_profile d); sent := sent d |}.

Definition send (r : AuthRequest) (d : Device) : Device :=
  {| world := world d; auth_token := auth_token d; auth := auth d;
     vendor_profile := vendor_profile d; sent := sent d ++ [r] |}.

(** A call into the sync device: what it answers, and the device after it *)
Definition on_world {A : Type} (f : World -> A * World) (d : Device) : A * Device :=
  let (a, w) := f (world d) in (a, set_world (fun _ => w) d).

(** [n.toString()] of an integer *)
Definition toString (n : Z) : string := NilZero.string_of_int (Z.to_int n).

Definition auth_columns : list string :=
  ["token"; "user_id"; "username"; "vendor_id"; "business_name"; "gst_no";
   "fssai_license"; "logo_url"; "footer_note"; "address"; "phone";
   "created_at"; "updated_at"]%string.

Definition vendor_profile_columns : list string :=
  ["vendor_id"; "username"; "email"; "business_name"; "address"; "phone";
   "gst_no"; "fssai_license"; "logo_url"; "logo_local_path"; "footer_note";
   "is_approved"; "is_synced"; "created_at"; "updated_at"]%string.

(** [WHERE vendor_id = ?] *)
Definition profile_of (vendorId : string) (r : Row) : bool :=
  sql_eq (col r "vendor_id") (VText vendorId).

(** [ORDER BY updated_at DESC] *)
Definition ge_updated_at (a b : Row) : bool :=
  sql_le (col b "updated_at") (col a "updated_at").

Section Services.

Context (env : Env) (platform : Platform) {engine : SqlEngine}.

(** [new Date().toISOString()] *)
Definition now_iso (d : Device) : string * Device :=
  (date_iso env (ticks (world d)), set_world tick d).

(** *** Token and user data *)

Definition saveAuthToken (token : string) (d : Device) : Device :=
  set_auth_token (Some token) d.

Definition getAuthToken (d : Device) : option string := auth_token d.

Definition removeAuthToken (d : Device) : Device := set_auth_token None d.

(** The request interceptor of [api.ts]: [Authorization: Token <token>] when
    there is a token that is not the empty text *)
Definition authorization (d : Device) : option string :=
  match or_null (getAuthToken d) with
  | Some token => Some ("Token " ++ token)%string
  | None => None
  end.

Definition saveUserData (userData : AuthData) (d : Device) : Device :=
  let d := set_world (set_user_data (Some (JSON_stringify platform userData))) d in
  let (now, d) := now_iso d in
  let d := set_auth (fun _ => []) d in
  set_auth (fun t => t ++ [bind_columns auth_columns
      [VText (token userData);
       VText (user_id userData);
       VText (username userData);
       sql_of (or_null (vendor_id userData));
       sql_of (or_null (business_name userData));
       sql_of (or_null (gst_no userData));
       sql_of (or_null (fssai_license userData));
       sql_of (or_null (logo_url userData));
       sql_of (or_null (footer_note userData));
       sql_of (or_null (address userData));
       sql_of (or_null (phone userData));
       VText now;
       VText now]]) d.

(** [data ? JSON.parse(data) : null], null also when the parse throws *)
Definition getUserData (d : Device) : option AuthData :=
  match or_null (user_data (world d)) with
  | Some data => JSON_parse_AuthData platform data
  | None => None
  end.

Definition removeUserData (d : Device) : Device :=
  let d := set_world (set_user_data None) d in
  let d := set_auth (fun _ => []) d in
  set_vendor_profile (fun _ => []) d.

(** *** The vendor profile *)

(** The [SET] list of the UPDATE of [saveVendorProfile] *)
Definition profile_update (vendor : VendorProfile) (logoLocalPath : option string)
    (now : string) : list (string * SqlValue) :=
  [("username", sql_of (or_null (v_username vendor)));
   ("email", sql_of (or_null (v_email vendor)));
   ("business_name", sql_of (v_business_name vendor));
   ("address", sql_of (v_address vendor));
   ("phone", sql_of (v_phone vendor));
   ("gst_no", sql_of (v_gst_no vendor));
   ("fssai_license", sql_of (or_null (v_fssai_license vendor)));
   ("logo_url", sql_of (or_null (v_logo_url vendor)));
   ("logo_local_path", sql_of logoLocalPath);
   ("footer_note", sql_of (or_null (v_footer_note vendor)));
   ("is_approved", VInt (if v_is_approved vendor then 1 else 0));
   ("updated_at", VText now)]%string.

(** The row of the INSERT of [saveVendorProfile] *)
Definition profile_insert (vendor : VendorProfile) (logoLocalPath : option string)
    (now : string) : Row :=
  bind_columns vendor_profile_columns
    [VText (v_id vendor);
     sql_of (or_null (v_username vendor));
     sql_of (or_null (v_email vendor));
     sql_of (v_business_name vendor);
     sql_of (v_address vendor);
     sql_of (v_phone vendor);
     sql_of (v_gst_no vendor);
     sql_of (or_null (v_fssai_license vendor));
     sql_of (or_null (v_logo_url vendor));
     sql_of logoLocalPath;
     sql_of (or_null (v_footer_note vendor));
     VInt (if v_is_approved vendor then 1 else 0);
     VInt 1;
     VText now;
     VText now].

Definition saveVendorProfile (vendor : VendorProfile) (d : Device) : Device :=
  let (now, d) := now_iso d in
  let existing := List.filter (profile_of (v_id vendor)) (vendor_profile d) in
  let (logoLocalPath, d) :=
    match or_null (v_logo_url vendor) with
    | Some url => on_world (cacheVendorLogo env (v_id vendor) url) d
    | None => (None, d)
    end in
  if 0 <? Z.of_nat (length existing)
  then set_vendor_profile
         (update_where (profile_of (v_id vendor))
                       (profile_update vendor logoLocalPath now)) d
  else set_vendor_profile
         (fun t => t ++ [profile_insert vendor logoLocalPath now]) d.

Definition getVendorProfile (d : Device) : option StoredProfile :=
  match take 1 (order_by ge_updated_at (vendor_profile d)) with
  | [] => None
  | row :: _ =>
      Some {| sp_id := col row "vendor_id";
              sp_username := col row "username";
              sp_email := col row "email";
              sp_business_name := col row "business_name";
              sp_address := col row "address";
              sp_phone := col row "phone";
              sp_gst_no := col row "gst_no";
              sp_fssai_license := col row "fssai_license";
              sp_logo_url := col row "logo_url";
              sp_footer_note := col row "footer_note";
              sp_is_approved := sql_eq (col row "is_approved") (VInt 1) |}
  end.

(** [updateVendorProfile]: the vendor of the answer is stored as the profile
    and, when a user is stored, merged into the user data; a rejection is
    thrown on. *)
Definition updateVendorProfile (d : Device) : Reply (option VendorProfile) * Device :=
  let d := send (PatchAuthProfile (authorization d)) d in
  match api_auth_updateProfile platform with
  | Fulfilled response_vendor =>
      let d := match response_vendor with
               | Some vendor => saveVendorProfile vendor d
               | None => d
               end in
      let d := match getUserData d, response_vendor with
               | Some userData, Some vendor =>
                   saveUserData
                     {| token := token userData;
                        user_id := user_id userData;
                        username := username userData;
                        vendor_id := vendor_id userData;
                        business_name := or_null (v_business_name vendor);
                        gst_no := or_null (v_gst_no vendor);
                        fssai_license := or_null (v_fssai_license vendor);
                        logo_url := or_null (v_logo_url vendor);
                        footer_note := or_null (v_footer_note vendor);
                        address := or_null (v_address vendor);
                        phone := or_null (v_phone vendor) |} d
               | _, _ => d
               end in
      (Fulfilled response_vendor, d)
  | Failed error => (Failed error, d)
  end.

(** *** Signing in and out *)

Record LoginResult : Type := {
  l_success : bool;
  l_error : option string;
  l_data : option AuthData
}.

Definition login (username password : string) (d : Device) : LoginResult * Device :=
  let d := send (PostAuthLogin username password (authorization d)) d in
  match api_auth_login platform username password with
  | Fulfilled response =>
      let authData :=
        {| token := r_token response;
           user_id := toString (r_user_id response);
           username := r_username response;
           vendor_id := or_null (option_map v_id (r_vendor response));
           business_name := or_null (r_vendor response ≫= v_business_name);
           gst_no := or_null (r_vendor response ≫= v_gst_no);
           fssai_license := or_null (r_vendor response ≫= v_fssai_license);
           logo_url := or_null (r_vendor response ≫= v_logo_url);
           footer_note := or_null (r_vendor response ≫= v_footer_note);
           address := or_null (r_vendor response ≫= v_address);
           phone := or_null (r_vendor response ≫= v_phone) |} in
      let d := saveAuthToken (r_token response) d in
      let d := saveUserData authData d in
      let d := match r_vendor response with
               | Some vendor => saveVendorProfile vendor d
               | None => d
               end in
      ({| l_success := true; l_error := None; l_data := Some authData |}, d)
  | Failed error =>
      let errorMessage :=
        match e_response error with
        | Some response =>
            if e_status response =? 403
            then "Your vendor account is pending approval. Please wait for admin approval."%string
            else if e_status response =? 401
            then "Invalid username or password."%string
            else match or_null (e_data_error response) with
                 | Some text => text
                 | None =>
                     match or_null (e_data_message response) with
                     | Some text => text
                     | None => "Login failed. Please try again."%string
                     end
                 end
        | None =>
            match or_null (e_message error) with
            | Some text => text
            | None => "Login failed. Please try again."%string
            end
        end in
      ({| l_success := false; l_error := Some errorMessage; l_data := None |}, d)
  end.

(** [logout]: the server is told, whatever it answers; then the token and the
    user are removed. *)
Definition logout (d : Device) : Device :=
  let d := send (PostAuthLogout (authorization d)) d in
  let d := match api_auth_logout platform with
           | Fulfilled _ => d
           | Failed _ => d
           end in
  let d := removeAuthToken d in
  removeUserData d.

Definition isAuthenticated (d : Device) : bool :=
  match getAuthToken d with Some _ => true | None => false end.

Definition checkAuthStatus (d : Device) : bool * option AuthData :=
  (match getAuthToken d with Some _ => true | None => false end, getUserData d).

End Services.

End Auth.

(** ** A vendor and a handset, to sign in on *)

Module AuthScenario.
Import Auth.

Definition asha : VendorProfile :=
  {| v_id := "v1"; v_username := Some "asha"; v_email := Some EmptyString;
     v_business_name := Some "Asha Stores"; v_address := Some "1 Main Street";
     v_phone := Some "5550100"; v_gst_no := None; v_fssai_license := None;
     v_logo_url := Some "https://cdn.example/logo.jpg"; v_footer_note := None;
     v_is_approved := true |}%string.

(** The server knows one password; signing out finds the network down. *)
Definition handset : Platform :=
  {| JSON_stringify := fun a => ("{" ++ token a ++ "}")%string;
     JSON_parse_AuthData := fun _ => None;
     api_auth_login := fun u p =>
       if String.eqb p "secret"
       then Fulfilled {| r_token := "t0k3n"; r_user_id := 7; r_username := u;
                         r_vendor := Some asha |}
       else Failed {| e_response :=
                        Some {| e_status := 401;
                                e_data_error := Some "Unable to log in."%string;
                                e_data_message := None |};
                      e_message := Some "Request failed with status code 401"%string |};
     api_auth_logout := Failed {| e_response := None;
                                  e_message := Some "Network Error"%string |};
     api_auth_updateProfile := Fulfilled (Some asha) |}.

Definition signed_out : Device :=
  {| world := Scenario.empty_world; auth_token := None; auth := [];
     vendor_profile := []; sent := [] |}.

(** A device somebody is signed in to, with nothing to upload. *)
Definition idle : World :=
  {| sync_queue := []; categories := []; items := []; bills := [];
     inventory_items := []; user_data := Some "[4]"%string; sync_history := [];
     last_sync_time := None; image_cache := []; files := [];
     requests := []; timers := []; ticks := 0 |}.

End AuthScenario.

(** ** The cart of the billing screen ([BillingScreen.tsx])

    The screen keeps the cart in a React state; each handler computes the
    next cart from the cart of the current render.  A [MenuItem] is used
    through its [id] only, and a [CartItem] is a menu item with a quantity. *)

Module Billing.

Section Cart.

Context {MenuItem : Type} (id : MenuItem -> string).

Record CartItem : Type := { item : MenuItem; quantity : Z }.

(** [cartItem.id === itemId] *)
Definition is_item (itemId : string) (cartItem : CartItem) : bool :=
  String.eqb (id (item cartItem)) itemId.

Definition addToCart (it : MenuItem) (cart : list CartItem) : list CartItem :=
  match List.find (is_item (id it)) cart with
  | Some _ =>
      map (fun cartItem =>
             if is_item (id it) cartItem
             then {| item := item cartItem; quantity := quantity cartItem + 1 |}
             else cartItem) cart
  | None => cart ++ [ {| item := it; quantity := 1 |} ]
  end.

Definition removeFromCart (itemId : string) (cart : list CartItem) : list CartItem :=
  match List.find (is_item itemId) cart with
  | Some existingItem =>
      if 1 <? quantity existingItem
      then map (fun cartItem =>
                  if is_item itemId cartItem
                  then {| item := item cartItem; quantity := quantity cartItem - 1 |}
                  else cartItem) cart
      else List.filter (fun cartItem => negb (is_item itemId cartItem)) cart
  | None => List.filter (fun cartItem => negb (is_item itemId cartItem)) cart
  end.

Definition getItemQuantity (itemId : string) (cart : list CartItem) : Z :=
  match List.find (is_item itemId) cart with
  | Some cartItem => quantity cartItem
  | None => 0
  end.

Definition getTotalItems (cart : list CartItem) : Z :=
  fold_left (fun sum cartItem => sum + quantity cartItem) cart 0.

(** The two buttons of a menu card *)
Inductive Press : Type :=
| Plus (it : MenuItem)
| Minus (itemId : string).

Definition press (cart : list CartItem) (p : Press) : list CartItem :=
  match p with
  | Plus it => addToCart it cart
  | Minus itemId => removeFromCart itemId cart
  end.

(** No item twice, and at least one of each item that is in the cart *)
Definition well_formed (cart : list CartItem) : Prop :=
  NoDup (map (fun cartItem => id (item cartItem)) cart) /\
  Forall (fun cartItem => 1 <= quantity cartItem) cart.

End Cart.

(** Two teas and a samosa, the menu items being their names *)
Definition tea_and_samosa : list (@CartItem string) :=
  [ {| item := "tea"%string; quantity := 2 |};
    {| item := "samosa"%string; quantity := 1 |} ].

End Billing.

(** ** Bill and invoice numbers ([src/utils/billNumbering.ts])

    The bill counter lives under the AsyncStorage key [bill_numbering] as a
    JSON text; the invoice sequences live in the table [invoice_sequences],
    one row per billing mode and year.  A JS number is an integer or NaN
    ([None]); a number that is missing, null or NaN is [None] as well, all of
    them being falsy and printed by [JSON.stringify] as null or left out. *)

Module BillNumbering.

Record BillNumberingSettings : Type := {
  prefix : string;
  startingNumber : string;
  includeDate : bool;
  currentNumber : option Z
}.

Record SequenceRow : Type := {
  s_billing_mode : string;
  s_year : Z;
  s_sequence : Z;
  s_prefix : string;
  s_created_at : string;
  s_updated_at : string
}.

(** The platform: [JSON.stringify] and [JSON.parse] on the settings ([None]:
    the parse throws), [parseInt(s, 10)], and what the [n]-th reading of the
    clock shows. *)
Record Platform : Type := {
  JSON_stringify : BillNumberingSettings -> string;
  JSON_parse : string -> option BillNumberingSettings;
  parseInt : string -> option Z;
  getFullYear : nat -> Z;
  getMonth : nat -> Z;
  getDate : nat -> Z;
  toISOString : nat -> string;
  Date_now : nat -> Z
}.

Record Till : Type := {
  bill_numbering : option string;
  invoice_sequences : list SequenceRow;
  readings : nat
}.

Definition set_bill_numbering (text : string) (t : Till) : Till :=
  {| bill_numbering := Some text; invoice_sequences := invoice_sequences t;
     readings := readings t |}.

Definition set_invoice_sequences (f : list SequenceRow -> list SequenceRow) (t : Till) : Till :=
  {| bill_numbering := bill_numbering t; invoice_sequences := f (invoice_sequences t);
     readings := readings t |}.

(** [new Date()] *)
Definition read_clock (t : Till) : nat * Till :=
  (readings t,
   {| bill_numbering := bill_numbering t; invoice_sequences := invoice_sequences t;
      readings := S (readings t) |}).

(** [String(n)] *)
Definition number_text (n : option Z) : string :=
  match n with
  | Some z => NilZero.string_of_int (Z.to_int z)
  | None => "NaN"
  end.

(** [a || b] on numbers: 0 and NaN are falsy *)
Definition number_or (a b : option Z) : option Z :=
  match a with
  | Some z => if z =? 0 then b else a
  | None => b
  end.

Definition plus_one (n : option Z) : option Z :=
  match n with Some z => Some (z + 1) | None => None end.

Fixpoint repeat_char (c : ascii) (n : nat) : string :=
  match n with O => EmptyString | S n' => String c (repeat_char c n') end.

(** [s.padStart(n, c)] *)
Definition padStart (n : nat) (c : ascii) (s : string) : string :=
  (repeat_char c (n - String.length s) ++ s)%string.

Definition default_settings : BillNumberingSettings :=
  {| prefix := "BILL-"; startingNumber := "1001"; includeDate := true;
     currentNumber := Some 1001 |}.

Definition with_currentNumber (n : option Z) (settings : BillNumberingSettings)
    : BillNumberingSettings :=
  {| prefix := prefix settings; startingNumber := startingNumber settings;
     includeDate := includeDate settings; currentNumber := n |}.

(** [WHERE billing_mode = ? AND year = ?] *)
Definition sequence_of (billingMode : string) (year : Z) (r : SequenceRow) : bool :=
  String.eqb (s_billing_mode r) billingMode && (s_year r =? year).

Section Numbering.

Context (platform : Platform).

(** The text under [bill_numbering], when there is one that is not empty *)
Definition settingsJson (t : Till) : option string :=
  match bill_numbering t with
  | Some text => if String.eqb text EmptyString then None else Some text
  | None => None
  end.

Definition generateBillNumber (prefix : string) (number : option Z)
    (includeDate : bool) (t : Till) : string * Till :=
  let (today, t) := read_clock t in
  let year := getFullYear platform today in
  let month := padStart 2 "0" (number_text (Some (getMonth platform today + 1))) in
  let day := padStart 2 "0" (number_text (Some (getDate platform today))) in
  let dateString := (number_text (Some year) ++ month ++ day)%string in
  if includeDate
  then ((prefix ++ dateString ++ "-" ++ number_text number)%string, t)
  else ((prefix ++ number_text number)%string, t).

Definition getNextBillNumber (t : Till) : string * Till :=
  let settings :=
    match settingsJson t with
    | Some text => JSON_parse platform text
    | None => Some default_settings
    end in
  match settings with
  | Some settings =>
      let currentNumber :=
        number_or (currentNumber settings) (parseInt platform (startingNumber settings)) in
      let (billNumber, t) :=
        generateBillNumber (prefix settings) currentNumber (includeDate settings) t in
      let settings := with_currentNumber (plus_one currentNumber) settings in
      (billNumber, set_bill_numbering (JSON_stringify platform settings) t)
  | None =>
      let (now, t) := read_clock t in
      (("BILL-" ++ number_text (Some (Date_now platform now)))%string, t)
  end.

Definition previewBillNumber (t : Till) : string * Till :=
  let settings :=
    match settingsJson t with
    | Some text => JSON_parse platform text
    | None => Some default_settings
    end in
  match settings with
  | Some settings =>
      let currentNumber :=
        number_or (currentNumber settings) (parseInt platform (startingNumber settings)) in
      generateBillNumber (prefix settings) currentNumber (includeDate settings) t
  | None => ("BILL-1001"%string, t)
  end.

(** [resetBillNumbering]: [None] when the stored text does not parse, which
    the function throws on. *)
Definition resetBillNumbering (t : Till) : option Till :=
  match settingsJson t with
  | Some text =>
      match JSON_parse platform text with
      | Some settings =>
          let settings :=
            with_currentNumber (parseInt platform (startingNumber settings)) settings in
          Some (set_bill_numbering (JSON_stringify platform settings) t)
      | None => None
      end
  | None => Some t
  end.

Definition getBillNumberingSettings (t : Till) : BillNumberingSettings :=
  match settingsJson t with
  | Some text =>
      match JSON_parse platform text with
      | Some settings => settings
      | None => default_settings
      end
  | None => default_settings
  end.

(** [generateInvoiceNumber], the statements being taken to succeed (its
    [catch], which numbers the invoice after the clock, is for a database
    that fails). *)
Definition generateInvoiceNumber (billingMode : string) (t : Till) : string * Till :=
  let (today, t) := read_clock t in
  let year := getFullYear platform today in
  let prefix := if String.eqb billingMode "gst" then "GST"%string else "NGST"%string in
  let existing := List.filter (sequence_of billingMode year) (invoice_sequences t) in
  let (clock, t) := read_clock t in
  let now := toISOString platform clock in
  let (sequence, t) :=
    match existing with
    | row :: _ =>
        let sequence := s_sequence row + 1 in
        (sequence,
         set_invoice_sequences
           (map (fun r => if sequence_of billingMode year r
                          then {| s_billing_mode := s_billing_mode r; s_year := s_year r;
                                  s_sequence := sequence; s_prefix := s_prefix r;
                                  s_created_at := s_created_at r;
                                  s_updated_at := now |}
                          else r)) t)
    | [] =>
        (1,
         set_invoice_sequences
           (fun rows => rows ++ [ {| s_billing_mode := billingMode; s_year := year;
                                     s_sequence := 1; s_prefix := prefix;
                                     s_created_at := now; s_updated_at := now |} ]) t)
    end in
  ((prefix ++ "-" ++ number_text (Some year) ++ "-"
    ++ padStart 4 "0" (number_text (Some sequence)))%string, t).

Definition getInvoiceSequence (billingMode : string) (t : Till) : Z * Till :=
  let (today, t) := read_clock t in
  let year := getFullYear platform today in
  match List.filter (sequence_of billingMode year) (invoice_sequences t) with
  | row :: _ => (s_sequence row, t)
  | [] => (0, t)
  end.

End Numbering.

(** The clock shows the same day at two readings *)
Definition same_day (platform : Platform) (n m : nat) : Prop :=
  getFullYear platform n = getFullYear platform m /\
  getMonth platform n = getMonth platform m /\
  getDate platform n = getDate platform m.

(** The sequence a billing mode has reached in a year, 0 when it has none *)
Definition sequence_reached (billingMode : string) (year : Z)
    (rows : list SequenceRow) : Z :=
  match List.filter (sequence_of billingMode year) rows with
  | row :: _ => s_sequence row
  | [] => 0
  end.

(** No two sequences for the same billing mode and year *)
Definition one_sequence_each (rows : list SequenceRow) : Prop :=
  NoDup (map (fun r => (s_billing_mode r, s_year r)) rows).

(** A till in 2024: the clock shows 5 March 2024 at every reading; the
    settings are stored as a row of strokes, one per unit of the counter. *)
Definition march_2024 : Platform :=
  {| JSON_stringify := fun settings =>
       match currentNumber settings with
       | Some n => repeat_char "I" (Z.to_nat n)
       | None => EmptyString
       end;
     JSON_parse := fun text =>
       Some (with_currentNumber (Some (Z.of_nat (String.length text))) default_settings);
     parseInt := fun _ => Some 1001;
     getFullYear := fun _ => 2024;
     getMonth := fun _ => 2;
     getDate := fun _ => 5;
     toISOString := fun _ => "2024-03-05T10:00:00.000Z"%string;
     Date_now := fun _ => 1709632800000 |}.

Definition counter_at_7 : Till :=
  {| bill_numbering := Some "IIIIIII"%string; invoice_sequences := []; readings := 0 |}.

Definition new_till : Till :=
  {| bill_numbering := None; invoice_sequences := []; readings := 0 |}.

End BillNumbering.

(** ** The history of the network listener *)

Module NetworkHistory.
Import NetworkMonitor.

(** The instants at which the listener, holding the device for offline
    ([online = false]), was told that it is connected: its offline-to-online
    transitions, read off the notifications alone. *)
Fixpoint restorations (online : bool) (events : list Event) : list Z :=
  match events with
  | [] => []
  | NetInfoChange now isConnected :: events' =>
      let connected := match isConnected with Some b => b | None => false end in
      (if negb online && connected then [now] else [])
      ++ restorations connected events'
  | _ :: events' => restorations online events'
  end.

(** Callbacks scheduled or started are accounted for by the transitions
    [past]: there are no more of them than transitions, a scheduled callback
    is due 2000 ms after one, and a started one started no earlier. *)
Definition accounted (past : list Z) (s : State) : Prop :=
  (length (sync_calls s) + length (scheduled s) <= length past)%nat /\
  Forall (fun c => exists t, In t past /\ t + STABILIZATION_DELAY <= c) (sync_calls s) /\
  Forall (fun tm => exists t, In t past /\ due tm = t + STABILIZATION_DELAY) (scheduled s).

End NetworkHistory.

(** * Properties *)

(** ** Computations in general *)

Lemma bind_Return {A B : Type} (m : M A) (k : A -> M B) (w w' : World) (a : A) :
  m w = (Return a, w') -> bind m k w = k a w'.
Proof. intros H. unfold bind. by rewrite H. Qed.

(** A [try] whose [catch] returns a value never throws. *)
Lemma try_catch_total {A : Type} (m : M A) (a0 : A) (w : World) :
  exists a w', try_catch m (fun _ => ret a0) w = (Return a, w').
Proof.
  unfold try_catch. destruct (m w) as [[a|e] w']; eauto.
Qed.

Lemma keeps_ret {X A : Type} (f : World -> X) (a : A) : keeps f (ret a).
Proof. intros w o w' H. by inversion H. Qed.

Lemma keeps_throw {X A : Type} (f : World -> X) (e : Error) : keeps f (@throw A e).
Proof. intros w o w' H. by inversion H. Qed.

Lemma keeps_get {X : Type} (f : World -> X) : keeps f get.
Proof. intros w o w' H. by inversion H. Qed.

Lemma keeps_bind {X A B : Type} (f : World -> X) (m : M A) (k : A -> M B) :
  keeps f m -> (forall a, keeps f (k a)) -> keeps f (bind m k).
Proof.
  intros Hm Hk w o w' H. unfold bind in H.
  destruct (m w) as [[a|e] w1] eqn:E.
  - rewrite (Hk a _ _ _ H). by eapply Hm.
  - inversion H; subst. by eapply Hm.
Qed.

Lemma keeps_try_catch {X A : Type} (f : World -> X) (m : M A) (h : Error -> M A) :
  keeps f m -> (forall e, keeps f (h e)) -> keeps f (try_catch m h).
Proof.
  intros Hm Hh w o w' H. unfold try_catch in H.
  destruct (m w) as [[a|e] w1] eqn:E.
  - inversion H; subst. by eapply Hm.
  - rewrite (Hh e _ _ _ H). by eapply Hm.
Qed.

Lemma keeps_modify {X : Type} (f : World -> X) (g : World -> World) :
  (forall w, f (g w) = f w) -> keeps f (modify g).
Proof. intros Hg w o w' H. inversion H; subst. apply Hg. Qed.

Lemma keeps_for_each {X A : Type} (f : World -> X) (l : list A) (body : A -> M unit) :
  (forall x, keeps f (body x)) -> keeps f (for_each l body).
Proof.
  intros Hb. induction l as [|x l IH]; simpl.
  - apply keeps_ret.
  - apply keeps_bind; auto.
Qed.

Lemma keeps_map_m {X A B : Type} (f : World -> X) (l : list A) (body : A -> M B) :
  (forall x, keeps f (body x)) -> keeps f (map_m body l).
Proof.
  intros Hb. induction l as [|x l IH]; simpl.
  - apply keeps_ret.
  - apply keeps_bind; [auto|]. intros y. apply keeps_bind; [auto|].
    intros ys. apply keeps_ret.
Qed.

Lemma keeps_if {X A : Type} (f : World -> X) (b : bool) (m1 m2 : M A) :
  keeps f m1 -> keeps f m2 -> keeps f (if b then m1 else m2).
Proof. by destruct b. Qed.

Create HintDb keeps.
#[export] Hint Resolve keeps_ret keeps_throw keeps_get keeps_bind keeps_try_catch
  keeps_for_each keeps_map_m keeps_if : keeps.

Section ServiceProperties.

Context (env : Env) {engine : SqlEngine}.

Lemma keeps_new_Date {X : Type} (f : World -> X) :
  (forall w, f (tick w) = f w) -> keeps f (new_Date_toISOString env).
Proof. intros Hf w o w' H. inversion H; subst. apply Hf. Qed.

Lemma keeps_await {X A : Type} (f : World -> X) (req : Request) (res : ApiResult A) :
  (forall r w, f (add_request r w) = f w) -> keeps f (await req res).
Proof.
  intros Hf w o w' H. unfold await in H.
  destruct res; inversion H; subst; apply Hf.
Qed.

Lemma keeps_JSON_parse {X : Type} (f : World -> X) (s : string) :
  keeps f (JSON_parse env s).
Proof. unfold JSON_parse. destruct (json_parse env s); auto with keeps. Qed.

Lemma keeps_JSON_parse_value {X : Type} (f : World -> X) (v : SqlValue) :
  keeps f (JSON_parse_value env v).
Proof. destruct v; simpl; auto using keeps_JSON_parse with keeps. Qed.

(** *** Queueing *)

(** [queueOperation] appends: the new row is the last of the table, unsynced,
    stamped with the clock reading of the call; queue order is table order. *)
Lemma queueOperation_appends (operation : SyncOperation) (data : string) (w : World) :
  op_data operation = Some data ->
  exists w',
    queueOperation env operation w = (Return tt, w') /\
    sync_queue w' =
      sync_queue w ++
      [ {| q_id := next_id (sync_queue w);
           q_operation_type := op_operation_type operation;
           q_entity_type := op_entity_type operation;
           q_entity_id := op_entity_id operation;
           q_data := data;
           q_timestamp := op_timestamp operation;
           q_retry_count := 0; q_last_error := None;
           q_synced := 0; q_synced_at := None;
           q_created_at := date_iso env (ticks w) |} ].
Proof.
  intros Hd.
  unfold queueOperation, insert_sync_queue, bind, try_catch, new_Date_toISOString,
    modify, getNetworkStatus, ret.
  rewrite Hd.
  destruct (netinfo_isConnected env) as [[|]|]; by eexists.
Qed.

(** With no text for [data] the INSERT is refused and the [catch] throws the
    error on: only the clock was read. *)
Lemma queueOperation_refused (operation : SyncOperation) (w : World) :
  op_data operation = None ->
  queueOperation env operation w = (Throw ConstraintError, tick w).
Proof.
  intros Hd.
  unfold queueOperation, insert_sync_queue, bind, try_catch, new_Date_toISOString, throw.
  by rewrite Hd.
Qed.

(** *** The batch and its marking *)

Lemma sync_payload_of_run (op : QueueRow) (w : World) :
  sync_payload_of env op w =
  match payload_of env op with
  | Some p => (Return p, w)
  | None => (Throw SyntaxError, w)
  end.
Proof.
  unfold sync_payload_of, payload_of, bind, JSON_parse, ret, throw.
  destruct (is_delete op); simpl; [done|].
  by destruct (json_parse env (q_data op)).
Qed.

Lemma map_m_sync_payload_run (ops : list QueueRow) (w : World) :
  map_m (sync_payload_of env) ops w =
  match build_payload env ops with
  | Some batch => (Return batch, w)
  | None => (Throw SyntaxError, w)
  end.
Proof.
  induction ops as [|op ops IH]; simpl; [done|].
  unfold bind. rewrite sync_payload_of_run.
  destruct (payload_of env op) as [p|]; [|done].
  rewrite IH. by destruct (build_payload env ops).
Qed.

Lemma markOperationSynced_run (operationId : Z) (w : World) :
  markOperationSynced env operationId w =
  (Return tt,
   set_sync_queue
     (map (fun r => if q_id r =? operationId
                    then mark_row (date_iso env (ticks w)) r else r))
     (tick w)).
Proof. done. Qed.

Lemma for_each_mark_run (ops : list QueueRow) (w : World) :
  exists w',
    for_each ops (fun op => markOperationSynced env (q_id op)) w = (Return tt, w') /\
    Forall2 (marked (map q_id ops)) (sync_queue w) (sync_queue w') /\
    requests w' = requests w.
Proof.
  revert w. induction ops as [|op ops IH]; intros w; simpl.
  - exists w. split; [done|]. split; [|done].
    induction (sync_queue w); constructor; [done|assumption].
  - unfold bind at 1. rewrite markOperationSynced_run.
    destruct (IH (set_sync_queue
       (map (fun r => if q_id r =? q_id op
                      then mark_row (date_iso env (ticks w)) r else r))
       (tick w))) as (w' & Hrun & Hq & Hreq).
    exists w'. split; [done|]. split; [|done].
    simpl in Hq. clear Hrun Hreq IH.
    revert Hq. generalize (sync_queue w'). generalize (date_iso env (ticks w)).
    induction (sync_queue w) as [|r q IHq]; intros now q' Hq; simpl in Hq.
    + inversion Hq; constructor.
    + inversion Hq as [|r1 r' q1 q1' Hr Hrest]; subst.
      constructor; [|by eapply IHq].
      unfold marked in *; simpl.
      destruct (q_id r =? q_id op) eqn:E; simpl in *.
      * destruct (existsb (Z.eqb (q_id r)) (map q_id ops)).
        -- destruct Hr as [t ->]. by exists t.
        -- subst. by exists now.
      * done.
Qed.


Lemma pending_operations_In (e : EntityType) (w : World) (op : QueueRow) :
  In op (pending_operations e w) <-> In op (sync_queue w) /\ is_pending e op = true.
Proof.
  unfold pending_operations.
  rewrite <- filter_In.
  split; intros H.
  - apply list_elem_of_In. rewrite <- (order_by_perm le_created_at). by apply list_elem_of_In.
  - apply list_elem_of_In. rewrite (order_by_perm le_created_at). by apply list_elem_of_In.
Qed.

Lemma syncCategories_shape :
  syncCategories env =
  queue_drain env Category PostCategoriesSync (api_categories_sync env) (echo_categories env).
Proof. reflexivity. Qed.

Lemma syncItems_shape :
  syncItems env =
  queue_drain env Item PostItemsSync (api_items_sync env) (echo_items env).
Proof. reflexivity. Qed.

Lemma for_each_returns {A : Type} (l : list A) (body : A -> M unit) :
  (forall x, returns_unit (body x)) -> returns_unit (for_each l body).
Proof.
  intros Hb. induction l as [|x l IH]; intros w; simpl.
  - by exists w.
  - destruct (Hb x w) as [w1 H1]. destruct (IH w1) as [w2 H2].
    exists w2. by rewrite (bind_Return _ _ _ _ _ H1).
Qed.

(** *** The image cache, as the item drain uses it *)

Lemma downloadImage_frame {X : Type} (f : World -> X) (url path : string) (w : World) :
  (forall g w0, f (set_files g w0) = f w0) ->
  f (snd (downloadImage env url path w)) = f w.
Proof.
  intros Hf. unfold downloadImage.
  destruct (RNFS_downloadFile env url path (files w)) as [[code|] files'];
    [destruct (code =? 200)|]; apply Hf.
Qed.

Lemma save_cache_entry_frame {X : Type} (f : World -> X) (et id url path : string)
    (w : World) :
  (forall w0, f (tick w0) = f w0) ->
  (forall g w0, f (set_image_cache g w0) = f w0) ->
  f (save_cache_entry env et id url path w) = f w.
Proof.
  intros Ht Hc. unfold save_cache_entry, read_clock.
  destruct (0 <? Z.of_nat (length (List.filter (cache_entry_of et id)
                                     (image_cache (tick w)))));
    by rewrite Hc, Ht.
Qed.

Lemma cacheVendorLogo_frame {X : Type} (f : World -> X) (id url : string) (w : World) :
  (forall w0, f (tick w0) = f w0) ->
  (forall g w0, f (set_image_cache g w0) = f w0) ->
  (forall g w0, f (set_files g w0) = f w0) ->
  f (snd (cacheVendorLogo env id url w)) = f w.
Proof.
  intros Ht Hc Hf. unfold cacheVendorLogo.
  pose proof (downloadImage_frame f url
                (VENDOR_LOGO_DIR env ++ "/" ++ "logo_" ++ id ++ ".jpg") w Hf) as Hd.
  destruct (downloadImage env url _ w) as [[p|] w1]; cbn [snd] in *; [|done].
  by rewrite save_cache_entry_frame.
Qed.

Lemma cacheItemImage_frame {X : Type} (f : World -> X) (id url : string) (w : World) :
  (forall w0, f (tick w0) = f w0) ->
  (forall g w0, f (set_items g w0) = f w0) ->
  (forall g w0, f (set_image_cache g w0) = f w0) ->
  (forall g w0, f (set_files g w0) = f w0) ->
  f (snd (cacheItemImage env id url w)) = f w.
Proof.
  intros Ht Hi Hc Hf. unfold cacheItemImage.
  pose proof (downloadImage_frame f url
                (ITEM_IMAGE_DIR env ++ "/" ++ "item_" ++ id ++ ".jpg") w Hf) as Hd.
  destruct (downloadImage env url _ w) as [[p|] w1]; cbn [snd] in *; [|done].
  by rewrite Hi, save_cache_entry_frame.
Qed.

Lemma keeps_attempt {X A : Type} (f : World -> X) (g : World -> option A * World) :
  (forall w, f (snd (g w)) = f w) -> keeps f (attempt g).
Proof.
  intros Hg w o w' H. unfold attempt in H. specialize (Hg w).
  destruct (g w) as [[a|] w1]; inversion H; subst; exact Hg.
Qed.

Lemma keeps_property_of {X A : Type} (f : World -> X) (x : option A) :
  keeps f (property_of x).
Proof. destruct x; [apply keeps_ret|apply keeps_throw]. Qed.

(** *** The echoed snapshots *)

Lemma apply_category_snapshot_returns (category : Snapshot) :
  returns_unit (apply_category_snapshot env category).
Proof. intros w. by eexists. Qed.

Lemma apply_item_snapshot_returns (item : Snapshot) :
  returns_unit (apply_item_snapshot env item).
Proof.
  intros w. unfold apply_item_snapshot.
  unfold bind at 1, new_Date_toISOString. unfold bind at 1, modify.
  destruct (or_null (s_image_url item)) as [url|]; [|by eexists].
  destruct (try_catch_total (attempt (cacheItemImage env (s_id item) url) ;; ret tt) tt
              (set_items
                 (update_where_id (VText (s_id item))
                    [("is_synced", VInt 1); ("server_updated_at", s_last_updated item);
                     ("image_url", sql_of (s_image_url item));
                     ("updated_at", VText (date_iso env (ticks w)))]%string) (tick w)))
    as ([] & w' & H).
  by exists w'.
Qed.

(** The loop over the echoed snapshots stops, with a [TypeError], at the
    first element that is null. *)
Lemma echo_loop_outcome (body : Snapshot -> M unit) (l : list (option Snapshot))
    (w : World) :
  (forall x, returns_unit (body x)) ->
  exists w',
    for_each l (fun x => let* x := property_of x in body x) w =
      (if forallb not_null l then Return tt else Throw TypeError, w').
Proof.
  intros Hb. revert w. induction l as [|[x|] l IH]; intros w.
  - by exists w.
  - destruct (Hb x w) as [w1 H1]. destruct (IH w1) as [w2 H2]. exists w2.
    assert ((let* y := property_of (Some x) in body y) w = (Return tt, w1)) as H
      by exact H1.
    cbn [for_each forallb not_null andb].
    by rewrite (bind_Return _ _ _ _ _ H).
  - by exists w.
Qed.

Lemma echo_categories_outcome (response : SyncResponse) (w : World) :
  exists w',
    echo_categories env response w =
      (if well_formed_echo Category response then Return tt else Throw TypeError, w').
Proof.
  unfold echo_categories, well_formed_echo, echoed_snapshots.
  destruct (r_categories response) as [cats|]; [|by exists w].
  apply echo_loop_outcome, apply_category_snapshot_returns.
Qed.

Lemma echo_items_outcome (response : SyncResponse) (w : World) :
  exists w',
    echo_items env response w =
      (if well_formed_echo Item response then Return tt else Throw TypeError, w').
Proof.
  unfold echo_items, well_formed_echo, echoed_snapshots.
  destruct (r_items response) as [its|]; [|by exists w].
  apply echo_loop_outcome, apply_item_snapshot_returns.
Qed.

Lemma apply_item_snapshot_keeps {X : Type} (f : World -> X) (item : Snapshot) :
  (forall w, f (tick w) = f w) -> (forall g w, f (set_items g w) = f w) ->
  (forall g w, f (set_image_cache g w) = f w) ->
  (forall g w, f (set_files g w) = f w) ->
  keeps f (apply_item_snapshot env item).
Proof.
  intros Ht Hi Hc Hf. unfold apply_item_snapshot.
  apply keeps_bind; [by apply keeps_new_Date|]. intros now.
  apply keeps_bind; [by apply keeps_modify|]. intros _.
  destruct (or_null (s_image_url item)) as [url|]; [|apply keeps_ret].
  apply keeps_try_catch; [|intros; apply keeps_ret].
  apply keeps_bind; [|intros; apply keeps_ret].
  apply keeps_attempt. intros w. by apply cacheItemImage_frame.
Qed.

Lemma echo_categories_keeps {X : Type} (f : World -> X) (response : SyncResponse) :
  (forall w, f (tick w) = f w) -> (forall g w, f (set_categories g w) = f w) ->
  keeps f (echo_categories env response).
Proof.
  intros Ht Hc. unfold echo_categories. destruct (r_categories response); [|apply keeps_ret].
  apply keeps_for_each. intros c.
  apply keeps_bind; [apply keeps_property_of|]. intros category.
  unfold apply_category_snapshot.
  apply keeps_bind; [by apply keeps_new_Date|]. intros now. by apply keeps_modify.
Qed.

Lemma echo_items_keeps {X : Type} (f : World -> X) (response : SyncResponse) :
  (forall w, f (tick w) = f w) -> (forall g w, f (set_items g w) = f w) ->
  (forall g w, f (set_image_cache g w) = f w) ->
  (forall g w, f (set_files g w) = f w) ->
  keeps f (echo_items env response).
Proof.
  intros Ht Hi Hc Hf. unfold echo_items. destruct (r_items response); [|apply keeps_ret].
  apply keeps_for_each. intros c.
  apply keeps_bind; [apply keeps_property_of|]. intros item.
  by apply apply_item_snapshot_keeps.
Qed.

Section QueueDrain.

Variables (e : EntityType) (req : list SyncPayload -> Request)
  (api : list SyncPayload -> ApiResult (option SyncResponse))
  (echo : SyncResponse -> M unit).

Hypothesis echo_outcome : forall response w, exists w',
  echo response w =
    (if well_formed_echo e response then Return tt else Throw TypeError, w').
Hypothesis echo_keeps_queue : forall response, keeps sync_queue (echo response).
Hypothesis echo_keeps_requests : forall response, keeps requests (echo response).

Lemma length_zero_nil {A : Type} (l : list A) :
  (Z.of_nat (length l) =? 0) = true <-> l = [].
Proof.
  destruct l; simpl; [done|]. split; intros H; discriminate.
Qed.

Lemma queue_drain_idle (w : World) :
  pending_operations e w = [] ->
  queue_drain env e req api echo w = (Return {| success := true; synced := 0 |}, w).
Proof.
  intros H. unfold queue_drain, try_catch, bind, get. by rewrite H.
Qed.

Lemma queue_drain_unparsable (w : World) :
  pending_operations e w <> [] ->
  build_payload env (pending_operations e w) = None ->
  queue_drain env e req api echo w = (Return {| success := false; synced := 0 |}, w).
Proof.
  intros Hne Hb. unfold queue_drain, try_catch, bind at 1, get.
  destruct (Z.of_nat (length (pending_operations e w)) =? 0) eqn:E.
  { by apply length_zero_nil in E. }
  unfold bind at 1. rewrite map_m_sync_payload_run, Hb. done.
Qed.

Lemma queue_drain_rejected (w : World) (batch : list SyncPayload) (status : option Z) :
  pending_operations e w <> [] ->
  build_payload env (pending_operations e w) = Some batch ->
  api batch = Rejected status ->
  queue_drain env e req api echo w =
    (Return {| success := false; synced := 0 |}, add_request (req batch) w).
Proof.
  intros Hne Hb Hapi. unfold queue_drain, try_catch, bind at 1, get.
  destruct (Z.of_nat (length (pending_operations e w)) =? 0) eqn:E.
  { by apply length_zero_nil in E. }
  unfold bind at 1. rewrite map_m_sync_payload_run, Hb.
  unfold bind at 1, await. rewrite Hapi. done.
Qed.

(** A null body: the drain throws before it marks anything. *)
Lemma queue_drain_null_body (w : World) (batch : list SyncPayload) :
  pending_operations e w <> [] ->
  build_payload env (pending_operations e w) = Some batch ->
  api batch = Resolved None ->
  queue_drain env e req api echo w =
    (Return {| success := false; synced := 0 |}, add_request (req batch) w).
Proof.
  intros Hne Hb Hapi. unfold queue_drain, try_catch, bind at 1, get.
  destruct (Z.of_nat (length (pending_operations e w)) =? 0) eqn:E.
  { by apply length_zero_nil in E. }
  unfold bind at 1. rewrite map_m_sync_payload_run, Hb.
  unfold bind at 1, await. rewrite Hapi. done.
Qed.

(** A body: every operation of the batch is marked, then the snapshots are
    applied; the drain reports success unless that loop throws. *)
Lemma queue_drain_resolved (w : World) (batch : list SyncPayload) (response : SyncResponse) :
  pending_operations e w <> [] ->
  build_payload env (pending_operations e w) = Some batch ->
  api batch = Resolved (Some response) ->
  exists w',
    queue_drain env e req api echo w =
      (Return (if well_formed_echo e response
               then {| success := true;
                       synced := Z.of_nat (length (pending_operations e w)) |}
               else {| success := false; synced := 0 |}), w') /\
    Forall2 (marked (map q_id (pending_operations e w))) (sync_queue w) (sync_queue w') /\
    requests w' = requests w ++ [req batch].
Proof.
  intros Hne Hb Hapi. unfold queue_drain, try_catch, bind at 1, get.
  destruct (Z.of_nat (length (pending_operations e w)) =? 0) eqn:E.
  { by apply length_zero_nil in E. }
  unfold bind at 1. rewrite map_m_sync_payload_run, Hb.
  unfold bind at 1, await. rewrite Hapi.
  unfold bind at 1, property_of, ret.
  destruct (for_each_mark_run (pending_operations e w) (add_request (req batch) w))
    as (w1 & Hrun & Hq & Hreq).
  rewrite (bind_Return _ _ _ _ _ Hrun).
  destruct (echo_outcome response w1) as [w2 Hecho].
  exists w2.
  rewrite <- (echo_keeps_queue _ _ _ _ Hecho) in Hq.
  rewrite <- (echo_keeps_requests _ _ _ _ Hecho) in Hreq.
  split; [|split; [exact Hq|by rewrite Hreq]].
  unfold bind at 1. rewrite Hecho.
  by destruct (well_formed_echo e response).
Qed.

End QueueDrain.

Lemma queue_drain_for_cases (e : EntityType) (drain : M DrainResult)
    (req : list SyncPayload -> Request)
    (api : list SyncPayload -> ApiResult (option SyncResponse)) :
  queue_drain_for env e drain req api ->
  exists echo,
    drain = queue_drain env e req api echo /\
    (forall response w, exists w',
       echo response w =
         (if well_formed_echo e response then Return tt else Throw TypeError, w')) /\
    (forall response, keeps sync_queue (echo response)) /\
    (forall response, keeps requests (echo response)).
Proof.
  intros [ | ].
  - exists (echo_categories env).
    split; [apply syncCategories_shape|].
    split; [apply echo_categories_outcome|].
    split; intros r; by apply echo_categories_keeps.
  - exists (echo_items env).
    split; [apply syncItems_shape|].
    split; [apply echo_items_outcome|].
    split; intros r; by apply echo_items_keeps.
Qed.


(** Once the ids of the pending operations are marked, none is pending. *)
Lemma marked_none_pending (e : EntityType) (w w' : World) :
  Forall2 (marked (map q_id (pending_operations e w))) (sync_queue w) (sync_queue w') ->
  pending_operations e w' = [].
Proof.
  intros HF.
  assert (List.filter (is_pending e) (sync_queue w') = []) as Hnone.
  { assert (forall q, (forall r, In r q -> In r (sync_queue w)) ->
              forall q', Forall2 (marked (map q_id (pending_operations e w))) q q' ->
              List.filter (is_pending e) q' = []) as Hgen.
    { intros q Hsub q' H. induction H as [|r r' q q' Hr H IH]; [done|].
      cbn [List.filter]. rewrite IH by (intros x Hx; apply Hsub; by right).
      unfold marked in Hr.
      destruct (existsb (Z.eqb (q_id r)) (map q_id (pending_operations e w))) eqn:E.
      - destruct Hr as [now ->]. unfold is_pending. cbn. by rewrite andb_false_r.
      - subst r'. destruct (is_pending e r) eqn:Ep; [|done]. exfalso.
        assert (existsb (Z.eqb (q_id r)) (map q_id (pending_operations e w)) = true)
          as E'; [|congruence].
        apply existsb_exists. exists (q_id r). split; [|apply Z.eqb_refl].
        apply in_map. apply pending_operations_In. split; [|done].
        apply Hsub. by left. }
    by apply (Hgen (sync_queue w)). }
  unfold pending_operations. rewrite Hnone.
  pose proof (order_by_perm le_created_at (@nil QueueRow)) as Hperm.
  by apply Permutation_nil_r in Hperm.
Qed.


(** *** Failed batches *)

Lemma updateRetryCount_run (operationId : Z) (error : string) (w : World) :
  updateRetryCount operationId error w =
  (Return tt,
   set_sync_queue
     (map (fun r => if q_id r =? operationId then fail_row error r else r)) w).
Proof. done. Qed.

Lemma marked_keeps_retries (ids : list Z) (q q' : list QueueRow) :
  Forall2 (marked ids) q q' ->
  map q_retry_count q' = map q_retry_count q /\
  map q_last_error q' = map q_last_error q.
Proof.
  induction 1 as [|x x' q q' Hx Hq [IH1 IH2]]; [done|].
  cbn [map]. rewrite IH1, IH2. unfold marked in Hx.
  destruct (existsb (Z.eqb (q_id x)) ids); [destruct Hx as [now ->]|subst x']; done.
Qed.

(** C3: what the drains do when they fail.  [updateRetryCount] is the
    bookkeeping the claim describes (for the row with the given id the retry
    count goes up by one, the error text is stored, the row stays pending),
    and no drain calls it.  When the batch call of the category or item
    drain rejects (whatever the status: none for a timeout, 500, ...) or
    resolves with a null body, the drain reports failure and the queue is
    exactly as it was: every operation of the failed batch has the retry
    count and the last error it had, is still pending, and the next drain
    selects the same batch again; a call of [updateRetryCount] is what would
    have recorded the failure.  When the answer is malformed further on (a
    null element among the echoed snapshots), the drain reports failure
    after it has marked the whole batch synced: no operation of the batch is
    pending, so none is retried. *)
Theorem failed_batch_records_no_failure (e : EntityType) (drain : M DrainResult)
    (req : list SyncPayload -> Request)
    (api : list SyncPayload -> ApiResult (option SyncResponse))
    (w : World) (batch : list SyncPayload) :
  queue_drain_for env e drain req api ->
  pending_operations e w <> [] ->
  build_payload env (pending_operations e w) = Some batch ->
  exists r w',
    drain w = (Return r, w') /\
    match api batch with
    | Resolved None | Rejected _ =>
        r = {| success := false; synced := 0 |} /\
        sync_queue w' = sync_queue w /\
        (forall op, In op (pending_operations e w) ->
           In op (sync_queue w') /\ In op (pending_operations e w')) /\
        pending_operations e w' = pending_operations e w /\
        (forall op error, In op (pending_operations e w) ->
           exists w'',
             updateRetryCount (q_id op) error w' = (Return tt, w'') /\
             In (fail_row error op) (sync_queue w'') /\
             q_retry_count (fail_row error op) = q_retry_count op + 1 /\
             q_last_error (fail_row error op) = Some error /\
             is_pending e (fail_row error op) = true)
    | Resolved (Some response) =>
        well_formed_echo e response = false ->
        r = {| success := false; synced := 0 |} /\
        pending_operations e w' = [] /\
        map q_retry_count (sync_queue w') = map q_retry_count (sync_queue w) /\
        map q_last_error (sync_queue w') = map q_last_error (sync_queue w)
    end.
Proof.
  intros Hd Hne Hb.
  destruct (queue_drain_for_cases _ _ _ _ Hd) as (echo & -> & Hout & Hkq & Hkr).
  assert (forall w', sync_queue w' = sync_queue w ->
            sync_queue w' = sync_queue w /\
            (forall op, In op (pending_operations e w) ->
               In op (sync_queue w') /\ In op (pending_operations e w')) /\
            pending_operations e w' = pending_operations e w /\
            (forall op error, In op (pending_operations e w) ->
               exists w'',
                 updateRetryCount (q_id op) error w' = (Return tt, w'') /\
                 In (fail_row error op) (sync_queue w'') /\
                 q_retry_count (fail_row error op) = q_retry_count op + 1 /\
                 q_last_error (fail_row error op) = Some error /\
                 is_pending e (fail_row error op) = true)) as Hsame.
  { intros w' Hq.
    assert (pending_operations e w' = pending_operations e w) as Hp
      by (unfold pending_operations; by rewrite Hq).
    split; [done|]. split; [|split; [done|]].
    - intros op Hop. rewrite Hp. split; [|done]. rewrite Hq.
      by apply pending_operations_In in Hop as [? _].
    - intros op error Hop. rewrite updateRetryCount_run. eexists. split; [done|].
      apply pending_operations_In in Hop as [Hin Hpend].
      split; [|by repeat split].
      cbn [sync_queue set_sync_queue]. rewrite Hq.
      apply in_map_iff. exists op. split; [|done]. by rewrite Z.eqb_refl. }
  destruct (api batch) as [[response|]|status] eqn:Hapi.
  - destruct (queue_drain_resolved e req api echo Hout Hkq Hkr w batch response Hne Hb Hapi)
      as (w' & Hrun & Hq & _).
    eexists _, w'. split; [exact Hrun|]. intros Hbad. rewrite Hbad.
    split; [done|]. split; [by apply marked_none_pending with (w := w)|].
    by apply (marked_keeps_retries (map q_id (pending_operations e w))).
  - eexists _, _. split; [by apply queue_drain_null_body|].
    split; [done|]. by apply Hsame.
  - eexists _, _. split; [by apply queue_drain_rejected with (status := status)|].
    split; [done|]. by apply Hsame.
Qed.

(** *** The order of the batch *)

Lemma ascii_compare_lt_trans (a b c : ascii) :
  Ascii.compare a b = Lt -> Ascii.compare b c = Lt -> Ascii.compare a c = Lt.
Proof. unfold Ascii.compare. rewrite !N.compare_lt_iff. lia. Qed.

Lemma ascii_compare_refl (a : ascii) : Ascii.compare a a = Eq.
Proof. unfold Ascii.compare. apply N.compare_refl. Qed.

Lemma string_compare_refl (s : string) : String.compare s s = Eq.
Proof. induction s as [|a s IH]; simpl; [done|]. by rewrite ascii_compare_refl. Qed.

Lemma string_compare_lt_trans (a b c : string) :
  String.compare a b = Lt -> String.compare b c = Lt -> String.compare a c = Lt.
Proof.
  revert b c. induction a as [|x a IH]; intros [|y b] [|z c]; simpl; try done.
  destruct (Ascii.compare x y) eqn:Exy; try done.
  - apply Ascii.compare_eq_iff in Exy as ->.
    destruct (Ascii.compare y z); try done. apply IH.
  - destruct (Ascii.compare y z) eqn:Eyz; try done.
    + apply Ascii.compare_eq_iff in Eyz as <-. by rewrite Exy.
    + by rewrite (ascii_compare_lt_trans _ _ _ Exy Eyz).
Qed.

Lemma string_ltb_trans (a b c : string) :
  String.ltb a b = true -> String.ltb b c = true -> String.ltb a c = true.
Proof.
  unfold String.ltb. intros H1 H2.
  destruct (String.compare a b) eqn:E1; try done.
  destruct (String.compare b c) eqn:E2; try done.
  by rewrite (string_compare_lt_trans _ _ _ E1 E2).
Qed.

Lemma string_ltb_leb (a b : string) : String.ltb a b = true -> String.leb a b = true.
Proof. unfold String.ltb, String.leb. by destruct (String.compare a b). Qed.

Lemma string_ltb_irrefl (a : string) : String.ltb a a = false.
Proof. unfold String.ltb. by rewrite string_compare_refl. Qed.

Lemma string_leb_trans (a b c : string) :
  String.leb a b = true -> String.leb b c = true -> String.leb a c = true.
Proof.
  unfold String.leb. intros H1 H2.
  destruct (String.compare a b) eqn:E1; try done.
  - by apply String.compare_eq_iff in E1 as ->.
  - destruct (String.compare b c) eqn:E2; try done.
    + apply String.compare_eq_iff in E2 as <-. by rewrite E1.
    + by rewrite (string_compare_lt_trans _ _ _ E1 E2).
Qed.

#[local] Instance created_le_trans : Transitive created_le.
Proof. intros a b c. apply string_leb_trans. Qed.

#[local] Instance created_lt_trans : Transitive created_lt.
Proof. intros a b c. apply string_ltb_trans. Qed.

Lemma pending_operations_perm (e : EntityType) (w : World) :
  pending_operations e w ≡ₚ List.filter (is_pending e) (sync_queue w).
Proof. apply order_by_perm. Qed.

Lemma pending_operations_sorted (e : EntityType) (w : World) :
  Sorted created_le (pending_operations e w).
Proof.
  apply (order_by_sorted le_created_at).
  - intros x y. apply String.leb_total.
  - intros x y z. apply string_leb_trans.
Qed.

Lemma strictly_sorted_same_stamp (l : list QueueRow) (x y : QueueRow) :
  StronglySorted created_lt l -> x ∈ l -> y ∈ l ->
  q_created_at x = q_created_at y -> x = y.
Proof.
  intros Hs. induction Hs as [|z l Hs IH Hz]; intros Hx Hy Hxy.
  { by apply elem_of_nil in Hx. }
  rewrite Forall_forall in Hz.
  apply elem_of_cons in Hx as [->|Hx]; apply elem_of_cons in Hy as [->|Hy]; auto.
  - specialize (Hz _ Hy). unfold created_lt in Hz.
    rewrite Hxy, string_ltb_irrefl in Hz. done.
  - specialize (Hz _ Hx). unfold created_lt in Hz.
    rewrite Hxy, string_ltb_irrefl in Hz. done.
Qed.

Lemma strictly_sorted_sorted (l : list QueueRow) :
  StronglySorted created_lt l -> StronglySorted created_le l.
Proof.
  induction 1 as [|x l Hs IH Hx]; constructor; [done|].
  eapply Forall_impl; [exact Hx|]. intros y. apply string_ltb_leb.
Qed.

(** The one arrangement a conforming engine can return when the stamps of
    the selected rows are pairwise different. *)
Lemma pending_operations_unique (e : EntityType) (w : World) (l : list QueueRow) :
  l ≡ₚ List.filter (is_pending e) (sync_queue w) ->
  Sorted created_lt l ->
  pending_operations e w = l.
Proof.
  intros Hperm Hsorted.
  apply Sorted_StronglySorted in Hsorted; [|apply _].
  apply (StronglySorted_unique_strong created_le).
  - intros x y Hx Hy Hxy Hyx.
    apply (strictly_sorted_same_stamp l); [done| |done|].
    + by rewrite Hperm, <- pending_operations_perm.
    + by apply String.leb_antisym.
  - apply Sorted_StronglySorted; [apply _|]. apply pending_operations_sorted.
  - by apply strictly_sorted_sorted.
  - by rewrite pending_operations_perm.
Qed.

Lemma drain_sends_batch (e : EntityType) (drain : M DrainResult)
    (req : list SyncPayload -> Request)
    (api : list SyncPayload -> ApiResult (option SyncResponse))
    (w : World) (batch : list SyncPayload) :
  queue_drain_for env e drain req api ->
  pending_operations e w <> [] ->
  build_payload env (pending_operations e w) = Some batch ->
  exists r w', drain w = (Return r, w') /\ requests w' = requests w ++ [req batch].
Proof.
  intros Hd Hne Hb.
  destruct (queue_drain_for_cases _ _ _ _ Hd) as (echo & -> & Hout & Hkq & Hkr).
  destruct (api batch) as [[response|]|status] eqn:Hapi.
  - destruct (queue_drain_resolved e req api echo Hout Hkq Hkr w batch response Hne Hb Hapi)
      as (w' & Hrun & _ & Hreq).
    by eexists _, w'.
  - eexists _, _. split; [by apply queue_drain_null_body|]. done.
  - eexists _, _. split; [by apply queue_drain_rejected with (status := status)|]. done.
Qed.

Lemma build_payload_in_order (ops : list QueueRow) (batch : list SyncPayload) :
  build_payload env ops = Some batch ->
  Forall2 (fun op p => payload_of env op = Some p) ops batch.
Proof.
  revert batch. induction ops as [|op ops IH]; intros batch H; simpl in H.
  - inversion H. constructor.
  - destruct (payload_of env op) as [p|] eqn:Hp; [|done].
    destruct (build_payload env ops) as [ps|]; [|done].
    inversion H; subst. constructor; [done|]. by apply IH.
Qed.

(** C2, as the code has it.  The batch that the category or item drain
    submits is made, one for one and in order, of the payloads of the
    unsynced queue rows of that entity type, arranged so that [created_at]
    does not decrease; the query names no second key.  That batch is the one
    request of the drain, which sends none when there is no such row or when
    a payload cannot be built.  When the [created_at] stamps of these rows
    strictly increase in enqueue order (the order of the rows in the table),
    the submitted batch is in exactly enqueue order. *)
Theorem batch_in_created_at_order (e : EntityType) (drain : M DrainResult)
    (req : list SyncPayload -> Request)
    (api : list SyncPayload -> ApiResult (option SyncResponse)) (w : World) :
  queue_drain_for env e drain req api ->
  exists ops r w',
    drain w = (Return r, w') /\
    ops ≡ₚ List.filter (is_pending e) (sync_queue w) /\
    Sorted created_le ops /\
    (Sorted created_lt (List.filter (is_pending e) (sync_queue w)) ->
     ops = List.filter (is_pending e) (sync_queue w)) /\
    match build_payload env ops with
    | Some batch =>
        Forall2 (fun op p => payload_of env op = Some p) ops batch /\
        requests w' = requests w ++ (if (length ops =? 0)%nat then [] else [req batch])
    | None => requests w' = requests w
    end.
Proof.
  intros Hd. exists (pending_operations e w).
  assert (exists r w',
            drain w = (Return r, w') /\
            match build_payload env (pending_operations e w) with
            | Some batch =>
                requests w' = requests w ++
                  (if (length (pending_operations e w) =? 0)%nat then [] else [req batch])
            | None => requests w' = requests w
            end) as (r & w' & Hrun & Hreq).
  { destruct (pending_operations e w) as [|op ops] eqn:Hp.
    - destruct (queue_drain_for_cases _ _ _ _ Hd) as (echo & -> & _).
      eexists _, w. split; [by apply queue_drain_idle|].
      cbn. by rewrite app_nil_r.
    - rewrite <- Hp.
      destruct (build_payload env (pending_operations e w)) as [batch|] eqn:Hb.
      + destruct (drain_sends_batch e drain req api w batch Hd) as (r & w' & Hrun & Hreq);
          [by rewrite Hp|done|].
        exists r, w'. split; [done|]. by rewrite Hp.
      + destruct (queue_drain_for_cases _ _ _ _ Hd) as (echo & -> & _).
        eexists _, w. split; [|done]. apply queue_drain_unparsable; [by rewrite Hp|done]. }
  exists r, w'. split; [exact Hrun|].
  split; [apply pending_operations_perm|].
  split; [apply pending_operations_sorted|].
  split; [intros Hstrict; by apply pending_operations_unique|].
  destruct (build_payload env (pending_operations e w)) as [batch|] eqn:Hb; [|done].
  split; [by apply build_payload_in_order|done].
Qed.

(** *** What each drain leaves alone *)

Ltac keeps_step :=
  match goal with
  | |- keeps _ (bind _ _) => apply keeps_bind; [|intros ?]
  | |- keeps _ (try_catch _ _) => apply keeps_try_catch; [|intros ?]
  | |- keeps _ (ret _) => apply keeps_ret
  | |- keeps _ (throw _) => apply keeps_throw
  | |- keeps _ get => apply keeps_get
  | |- keeps _ (modify _) => apply keeps_modify; intros; reflexivity
  | |- keeps _ (for_each _ _) => apply keeps_for_each; intros ?
  | |- keeps _ (map_m _ _) => apply keeps_map_m; intros ?
  | |- keeps _ (new_Date_toISOString _) => apply keeps_new_Date; intros; reflexivity
  | |- keeps _ (await _ _) => apply keeps_await; intros; reflexivity
  | |- keeps _ (JSON_parse _ _) => apply keeps_JSON_parse
  | |- keeps _ (JSON_parse_value _ _) => apply keeps_JSON_parse_value
  | |- keeps _ (if ?b then _ else _) => destruct b
  | |- keeps _ (match ?x with _ => _ end) => destruct x
  end.

Ltac keeps_tac := cbv zeta; repeat (keeps_step; cbv zeta).

Lemma syncCategories_keeps {X : Type} (f : World -> X) :
  (forall w, f (tick w) = f w) -> (forall r w, f (add_request r w) = f w) ->
  (forall g w, f (set_sync_queue g w) = f w) ->
  (forall g w, f (set_categories g w) = f w) ->
  keeps f (syncCategories env).
Proof.
  intros Ht Hr Hq Hc. unfold syncCategories.
  apply keeps_try_catch; [|intros; apply keeps_ret].
  apply keeps_bind; [apply keeps_get|]. intros w0. cbv zeta.
  apply keeps_if; [apply keeps_ret|].
  apply keeps_bind.
  { apply keeps_map_m. intros op. unfold sync_payload_of. keeps_tac. }
  intros batch. apply keeps_bind; [by apply keeps_await|]. intros body.
  apply keeps_bind; [apply keeps_property_of|]. intros response.
  apply keeps_bind.
  { apply keeps_for_each. intros op. unfold markOperationSynced.
    apply keeps_bind; [by apply keeps_new_Date|]. intros now.
    apply keeps_try_catch; [by apply keeps_modify|intros; apply keeps_ret]. }
  intros _. apply keeps_bind; [|intros; apply keeps_ret].
  by apply (echo_categories_keeps f response).
Qed.

Lemma syncItems_keeps {X : Type} (f : World -> X) :
  (forall w, f (tick w) = f w) -> (forall r w, f (add_request r w) = f w) ->
  (forall g w, f (set_sync_queue g w) = f w) ->
  (forall g w, f (set_items g w) = f w) ->
  (forall g w, f (set_image_cache g w) = f w) ->
  (forall g w, f (set_files g w) = f w) ->
  keeps f (syncItems env).
Proof.
  intros Ht Hr Hq Hc Hcache Hfiles. unfold syncItems.
  apply keeps_try_catch; [|intros; apply keeps_ret].
  apply keeps_bind; [apply keeps_get|]. intros w0. cbv zeta.
  apply keeps_if; [apply keeps_ret|].
  apply keeps_bind.
  { apply keeps_map_m. intros op. unfold sync_payload_of. keeps_tac. }
  intros batch. apply keeps_bind; [by apply keeps_await|]. intros body.
  apply keeps_bind; [apply keeps_property_of|]. intros response.
  apply keeps_bind.
  { apply keeps_for_each. intros op. unfold markOperationSynced.
    apply keeps_bind; [by apply keeps_new_Date|]. intros now.
    apply keeps_try_catch; [by apply keeps_modify|intros; apply keeps_ret]. }
  intros _. apply keeps_bind; [|intros; apply keeps_ret].
  by apply (echo_items_keeps f response).
Qed.

Lemma getUserData_keeps {X : Type} (f : World -> X) : keeps f (getUserData env).
Proof. unfold getUserData. keeps_tac. Qed.

Lemma syncBills_keeps {X : Type} (f : World -> X) :
  (forall r w, f (add_request r w) = f w) ->
  (forall g w, f (set_bills g w) = f w) ->
  keeps f (syncBills env).
Proof.
  intros Hr Hb. unfold syncBills.
  apply keeps_try_catch; [|intros; apply keeps_ret].
  apply keeps_bind; [apply getUserData_keeps|]. intros u.
  apply keeps_if; [apply keeps_ret|].
  apply keeps_bind; [apply keeps_get|]. intros w0. cbv zeta.
  apply keeps_if; [apply keeps_ret|].
  apply keeps_bind.
  { apply keeps_map_m. intros bill. unfold bill_wire. keeps_tac. }
  intros batch. apply keeps_bind; [by apply keeps_await|]. intros response.
  apply keeps_bind; [by apply keeps_modify|]. intros _. apply keeps_ret.
Qed.

Lemma sync_inventory_item_keeps {X : Type} (f : World -> X) (item : Row) :
  (forall r w, f (add_request r w) = f w) ->
  (forall g w, f (set_inventory_items g w) = f w) ->
  keeps f (sync_inventory_item env item).
Proof.
  intros Hr Hi. unfold sync_inventory_item.
  apply keeps_bind.
  { apply keeps_try_catch.
    - apply keeps_bind; [by apply keeps_await|]. intros _. apply keeps_ret.
    - intros error. apply keeps_if; [apply keeps_throw|apply keeps_ret]. }
  intros ex. apply keeps_bind.
  { destruct ex; by apply keeps_await. }
  intros _. unfold markInventoryItemSynced. by apply keeps_modify.
Qed.

Lemma inventory_loop_keeps {X : Type} (f : World -> X) (l : list Row) (n m : Z) :
  (forall r w, f (add_request r w) = f w) ->
  (forall g w, f (set_inventory_items g w) = f w) ->
  keeps f (inventory_loop env l n m).
Proof.
  intros Hr Hi. revert n m. induction l as [|item l IH]; intros n m; simpl.
  - apply keeps_ret.
  - apply keeps_bind.
    { apply keeps_try_catch; [|intros; apply keeps_ret].
      apply keeps_bind; [by apply sync_inventory_item_keeps|]. intros _. apply keeps_ret. }
    intros ok. destruct ok; apply IH.
Qed.

Lemma syncInventory_keeps {X : Type} (f : World -> X) :
  (forall r w, f (add_request r w) = f w) ->
  (forall g w, f (set_inventory_items g w) = f w) ->
  keeps f (syncInventory env).
Proof.
  intros Hr Hi. unfold syncInventory.
  apply keeps_try_catch; [|intros; apply keeps_ret].
  apply keeps_bind.
  { unfold getUnsyncedInventoryItems. keeps_tac. }
  intros l. apply keeps_if; [apply keeps_ret|].
  apply keeps_bind; [by apply inventory_loop_keeps|]. intros c. apply keeps_ret.
Qed.

(** Every drain catches what it throws. *)
Lemma syncCategories_returns (w : World) :
  exists r w', syncCategories env w = (Return r, w').
Proof. apply try_catch_total. Qed.

Lemma syncItems_returns (w : World) :
  exists r w', syncItems env w = (Return r, w').
Proof. apply try_catch_total. Qed.

Lemma syncBills_returns (w : World) :
  exists r w', syncBills env w = (Return r, w').
Proof. apply try_catch_total. Qed.

Lemma syncInventory_returns (w : World) :
  exists r w', syncInventory env w = (Return r, w').
Proof. apply try_catch_total. Qed.

(** *** The full cycle *)

Lemma push_history_take (entry : HistoryEntry) (history : list HistoryEntry) :
  push_history entry history = take 20 (entry :: history).
Proof.
  unfold push_history. cbv zeta.
  destruct (20 <? Z.of_nat (length (entry :: history))) eqn:E; [done|].
  apply Z.ltb_ge in E. symmetry. apply take_ge. lia.
Qed.

(** Offline, the cycle is the zero result and touches nothing. *)
Lemma syncAll_offline (w : World) :
  netinfo_isConnected env <> Some true ->
  syncAll env w = (Return zero_result, w).
Proof.
  intros H. unfold syncAll, bind, getNetworkStatus, ret.
  destruct (netinfo_isConnected env) as [[|]|]; done.
Qed.

(** Online, the four drains run one after the other, each on the world the
    previous one left, whatever the previous ones reported. *)
Lemma syncAll_online (w : World) :
  netinfo_isConnected env = Some true ->
  exists c w1 i w2 b w3 v w4,
    syncCategories env w = (Return c, w1) /\
    syncItems env w1 = (Return i, w2) /\
    syncBills env w2 = (Return b, w3) /\
    syncInventory env w3 = (Return v, w4) /\
    syncAll env w = (Return (cycle_result c i b v), after_cycle env c i b v w4).
Proof.
  intros Hon.
  destruct (syncCategories_returns w) as (c & w1 & Hc).
  destruct (syncItems_returns w1) as (i & w2 & Hi).
  destruct (syncBills_returns w2) as (b & w3 & Hb).
  destruct (syncInventory_returns w3) as (v & w4 & Hv).
  exists c, w1, i, w2, b, w3, v, w4. repeat (split; [done|]).
  assert (getNetworkStatus env w = (Return true, w)) as Hnet
    by (unfold getNetworkStatus; by rewrite Hon).
  unfold syncAll. rewrite (bind_Return _ _ _ _ _ Hnet). cbn [negb].
  rewrite (bind_Return _ _ _ _ _ Hc), (bind_Return _ _ _ _ _ Hi),
    (bind_Return _ _ _ _ _ Hb), (bind_Return _ _ _ _ _ Hv).
  unfold after_cycle, cycle_result, cycle_success, some_synced.
  destruct (success c && success i && success b && success v &&
            ((0 <? synced c) || (0 <? synced i) || (0 <? synced b) || (0 <? synced v)));
    reflexivity.
Qed.

(** C7. Whenever the network status is not "connected", the full cycle
    returns [success = false] with the four counts at zero and leaves the
    device exactly as it was: no drain ran, no request was issued. *)
Theorem syncAll_offline_aborts (w : World) :
  netinfo_isConnected env <> Some true ->
  exists r,
    syncAll env w = (Return r, w) /\
    all_success r = false /\
    categoriesSynced r = 0 /\ itemsSynced r = 0 /\
    billsSynced r = 0 /\ inventorySynced r = 0.
Proof.
  intros H. exists zero_result. split; [by apply syncAll_offline|]. done.
Qed.

Lemma syncBills_no_user (w : World) :
  user_data w = None ->
  syncBills env w = (Return {| success := false; synced := 0 |}, w).
Proof.
  intros H. unfold syncBills, try_catch, bind, getUserData, try_catch, bind, get.
  by rewrite H.
Qed.

(** C10. With no user data stored, the bills drain returns
    [{success: false, synced: 0}] and leaves the device exactly as it was (no
    request issued, no bill marked); and the full cycle, connected or not and
    whatever is pending, returns [success = false] with a bills count of 0. *)
Theorem syncBills_without_user_fails_cycle (w : World) :
  user_data w = None ->
  syncBills env w = (Return {| success := false; synced := 0 |}, w) /\
  exists r w', syncAll env w = (Return r, w') /\
               all_success r = false /\ billsSynced r = 0.
Proof.
  intros Hu. split; [by apply syncBills_no_user|].
  destruct (netinfo_isConnected env) as [[|]|] eqn:Hnet.
  - destruct (syncAll_online w Hnet) as (c & w1 & i & w2 & b & w3 & v & w4 &
      Hc & Hi & Hb & Hv & Hall).
    assert (user_data w2 = None) as Hu2.
    { rewrite (syncItems_keeps user_data ltac:(done) ltac:(done) ltac:(done) ltac:(done) ltac:(done) ltac:(done)
                 _ _ _ Hi).
      by rewrite (syncCategories_keeps user_data ltac:(done) ltac:(done) ltac:(done)
                    ltac:(done) _ _ _ Hc). }
    rewrite (syncBills_no_user w2 Hu2) in Hb. inversion Hb; subst.
    eexists _, _. split; [exact Hall|]. unfold cycle_result, cycle_success; simpl.
    split; [|done]. by rewrite andb_false_r.
  - exists zero_result, w. split; [|done]. apply syncAll_offline. by rewrite Hnet.
  - exists zero_result, w. split; [|done]. apply syncAll_offline. by rewrite Hnet.
Qed.

(** X11. After a cycle that reports success (all four drains succeeded) and
    whose combined synced count is positive, the history holds a new entry
    in front, listing the entity types whose count is positive, and is cut
    to its 20 most recent entries; and [last_sync_time] is the clock reading
    taken right after the entry's. *)
Theorem successful_cycle_records_history (w w' : World) (r : SyncAllResult) :
  netinfo_isConnected env = Some true ->
  syncAll env w = (Return r, w') ->
  all_success r = true ->
  0 < categoriesSynced r + itemsSynced r + billsSynced r + inventorySynced r ->
  exists n,
    sync_history w' =
      take 20
        ({| e_id := date_iso env n;
            e_date := formatDisplayDateTime env (date_iso env n);
            e_timestamp := date_iso env n;
            e_items :=
              List.filter (fun item => 0 <? h_count item)
                [ {| h_name := "Categories"; h_count := categoriesSynced r |};
                  {| h_name := "Items"; h_count := itemsSynced r |};
                  {| h_name := "Bills"; h_count := billsSynced r |};
                  {| h_name := "Inventory"; h_count := inventorySynced r |} ] |}
         :: sync_history w) /\
    last_sync_time w' = Some (date_iso env (S n)).
Proof.
  intros Hon Hrun Hs Hpos.
  destruct (syncAll_online w Hon) as (c & w1 & i & w2 & b & w3 & v & w4 &
    Hc & Hi & Hb & Hv & Hall).
  rewrite Hall in Hrun. inversion Hrun; subst r w'. clear Hrun.
  simpl in Hs, Hpos.
  assert (sync_history w4 = sync_history w) as Hh.
  { rewrite (syncInventory_keeps sync_history ltac:(done) ltac:(done) _ _ _ Hv).
    rewrite (syncBills_keeps sync_history ltac:(done) ltac:(done) _ _ _ Hb).
    rewrite (syncItems_keeps sync_history ltac:(done) ltac:(done) ltac:(done) ltac:(done) ltac:(done) ltac:(done)
               _ _ _ Hi).
    by rewrite (syncCategories_keeps sync_history ltac:(done) ltac:(done) ltac:(done)
                  ltac:(done) _ _ _ Hc). }
  assert (some_synced c i b v = true) as Hsome.
  { unfold some_synced. rewrite !orb_true_iff, !Z.ltb_lt. lia. }
  exists (ticks w4).
  unfold after_cycle. rewrite Hs, Hsome. simpl.
  rewrite push_history_take, Hh. done.
Qed.


(** *** The bills step of the initial sync *)

(** Computing the parameters changes nothing, and the row they make has no
    [updated_at]: 29 parameters for 30 placeholders. *)
Lemma downloaded_bill_params_run (bill : Row) (now : string) (w : World) :
  exists o,
    downloaded_bill_params bill now w = (o, w) /\
    forall params, o = Return params ->
      col (bind_columns bills_columns params) "updated_at" = VNull /\
      col (bind_columns bills_columns params) "created_at" = VText now /\
      col (bind_columns bills_columns params) "is_synced" = col bill "timestamp" /\
      col (bind_columns bills_columns params) "invoice_number" = col bill "invoice_number".
Proof.
  unfold downloaded_bill_params, bind, ret, throw.
  destruct (truthy (col bill "bill_date")).
  - eexists. split; [reflexivity|]. by intros params [= <-].
  - destruct (col bill "timestamp");
      (eexists; split; [reflexivity|]); by intros params [= <-].
Qed.

Lemma insert_bill_refused (row : Row) (w : World) :
  col row "updated_at" = VNull ->
  insert_bill row w = (Throw ConstraintError, w).
Proof.
  intros Hnull. unfold insert_bill, bind, get.
  assert (forallb (fun c => negb (is_null (col row c))) bills_not_null = false) as ->; [|done].
  apply not_true_is_false. intros Hall. rewrite forallb_forall in Hall.
  specialize (Hall "updated_at"%string). rewrite Hnull in Hall.
  discriminate Hall. unfold bills_not_null. cbn. tauto.
Qed.

Lemma insert_bill_keeps {X : Type} (f : World -> X) (row : Row) :
  (forall g w, f (set_bills g w) = f w) -> keeps f (insert_bill row).
Proof.
  intros Hb. unfold insert_bill.
  apply keeps_bind; [apply keeps_get|]. intros w0.
  apply keeps_if; [by apply keeps_modify|apply keeps_throw].
Qed.

Lemma insert_downloaded_bill_keeps {X : Type} (f : World -> X) (now : string) (bill : Row) :
  (forall g w, f (set_bills g w) = f w) -> keeps f (insert_downloaded_bill now bill).
Proof.
  intros Hb. unfold insert_downloaded_bill.
  apply keeps_bind; [apply keeps_get|]. intros w0. cbv zeta.
  apply keeps_if; [|apply keeps_ret].
  apply keeps_bind; [|intros params; by apply insert_bill_keeps].
  intros w o w' H. destruct (downloaded_bill_params_run bill now w) as (o' & Hrun & _).
  rewrite Hrun in H. by inversion H.
Qed.

(** One turn of the loop never changes the bills table: no row has the
    invoice number and the INSERT is refused, or the parameters cannot be
    computed, or a row has the invoice number. *)
Lemma insert_downloaded_bill_keeps_bills (now : string) (bill : Row) :
  keeps bills (insert_downloaded_bill now bill).
Proof.
  intros w o w' H. unfold insert_downloaded_bill, bind at 1, get in H.
  destruct (Z.of_nat (length (bills_with_invoice_number
              (col bill "invoice_number") (bills w))) =? 0); [|by inversion H].
  unfold bind in H.
  destruct (downloaded_bill_params_run bill now w) as (o' & Hrun & Hrow).
  rewrite Hrun in H. destruct o' as [params|e]; [|by inversion H].
  destruct (Hrow params eq_refl) as (Hnull & _).
  rewrite (insert_bill_refused _ w Hnull) in H. by inversion H.
Qed.

Lemma initialSync_downloadBills_run (now : string) (w : World) :
  exists w',
    initialSync_downloadBills env now w = (Return tt, w') /\
    bills w' = bills w /\
    requests w' = requests w ++ [GetBackupSync 100] /\
    sync_queue w' = sync_queue w.
Proof.
  unfold initialSync_downloadBills, try_catch, bind at 1, await.
  destruct (api_bills_download env 100) as [[downloaded|]|status].
  - destruct (for_each downloaded (insert_downloaded_bill now)
                (add_request (GetBackupSync 100) w)) as [o w'] eqn:Hrun.
    pose proof (keeps_for_each bills downloaded _
                  (insert_downloaded_bill_keeps_bills now) _ _ _ Hrun) as Hb.
    pose proof (keeps_for_each requests downloaded _
                  (fun bill => insert_downloaded_bill_keeps requests now bill
                                 ltac:(done)) _ _ _ Hrun) as Hr.
    pose proof (keeps_for_each sync_queue downloaded _
                  (fun bill => insert_downloaded_bill_keeps sync_queue now bill
                                 ltac:(done)) _ _ _ Hrun) as Hq.
    exists w'. split; [by destruct o as [[]|]|]. by rewrite Hb, Hr, Hq.
  - by eexists.
  - by eexists.
Qed.

(** C9: what the code does.  The INSERT of the bills step names 30 columns
    and binds 29 parameters, so [updated_at], which the table declares NOT
    NULL, is left NULL and every INSERT is refused; the [catch] of the step
    swallows the error.  Whatever the server sends, the step returns and the
    local bills table is afterwards exactly what it was: a downloaded bill
    whose invoice number no local bill carries is not inserted, neither by
    the first download nor by the second. *)
Theorem downloaded_bill_is_never_inserted (now now' : string) (w : World) :
  exists w1 w2,
    initialSync_downloadBills env now w = (Return tt, w1) /\
    initialSync_downloadBills env now' w1 = (Return tt, w2) /\
    bills w1 = bills w /\ bills w2 = bills w /\
    forall inv,
      count_invoice inv (bills w1) = count_invoice inv (bills w) /\
      count_invoice inv (bills w2) = count_invoice inv (bills w).
Proof.
  destruct (initialSync_downloadBills_run now w) as (w1 & H1 & Hb1 & _).
  destruct (initialSync_downloadBills_run now' w1) as (w2 & H2 & Hb2 & _).
  exists w1, w2. rewrite Hb2, Hb1. by repeat split.
Qed.

End ServiceProperties.

(** ** The connectivity listener *)

Module NetworkMonitorFacts.
Import NetworkMonitor.

Lemma quiet_initial : quiet true 0 initial.
Proof. by repeat split. Qed.

Lemma short_offlineDuration (now since : Z) (s : State) :
  offlineTimestamp s = Some since ->
  now - since <= OFFLINE_THRESHOLD ->
  (OFFLINE_THRESHOLD <? offlineDuration now s) = false.
Proof.
  intros Ht Hle. unfold offlineDuration. rewrite Ht.
  apply Z.ltb_ge. destruct (since =? 0); [done|exact Hle].
Qed.

Lemma quiet_run (events : list Event) :
  forall online since s,
    quiet online since s -> only_flaps online since events ->
    exists online' since', quiet online' since' (run events s).
Proof.
  induction events as [|ev events IH]; intros online since s Hq Hf.
  { by exists online, since. }
  destruct Hq as (Hon & Hsch & Haw & Hcalls & Hto & Hts).
  destruct ev as [now isConnected| now | ]; simpl in Hf |- *.
  - destruct s as [on ts to sch nh aw calls]; simpl in *; subst.
    destruct online, isConnected as [[|]|]; simpl in Hf.
    + apply (IH true since); [|done]. by repeat split.
    + apply (IH false now); [|done]. by repeat split.
    + apply (IH false now); [|done]. by repeat split.
    + destruct Hf as [Hle Hf]. apply (IH true since); [|done].
      unfold listener; simpl.
      rewrite (short_offlineDuration now since) by done. by repeat split.
    + apply (IH false since); [|done]. by repeat split.
    + apply (IH false since); [|done]. by repeat split.
  - apply (IH online since); [|done].
    unfold run_timers, quiet. rewrite Hsch, Hcalls; simpl.
    rewrite Nat.add_0_r. by repeat split.
  - apply (IH online since); [|done].
    unfold settle. rewrite Haw. by repeat split.
Qed.

(** One reconnection, from any state of the listener: when the recorded
    offline interval is at most 3000 ms (or no timestamp is recorded), the
    listener sets the flag, clears the timestamp and leaves slot, timers and
    sync calls as they are. *)
Lemma flap_schedules_nothing (now : Z) (s : State) :
  isOnline s = false ->
  (forall since, offlineTimestamp s = Some since -> now - since <= OFFLINE_THRESHOLD) ->
  listener now (Some true) s = set_offlineTimestamp None (set_isOnline true s).
Proof.
  intros Hoff Hshort. unfold listener.
  destruct s as [on ts to sch nh aw calls]; simpl in *; subst on.
  unfold offlineDuration; cbn.
  assert ((OFFLINE_THRESHOLD <?
           match ts with Some t => if t =? 0 then 0 else now - t | None => 0 end)
          = false) as ->; [|done].
  apply Z.ltb_ge. destruct ts as [since|]; [|done].
  destruct (since =? 0); [done|]. by apply Hshort.
Qed.

(** C5. Take any sequence of connectivity notifications, timer turns and
    settled syncs, from the start of the listener, in which every
    reconnection closes an offline interval of at most 3000 ms.  Then at the
    end (and so after every prefix) no callback is scheduled, none has run
    a sync cycle, and if the device is connected the offline timestamp is
    cleared. *)
Theorem flaps_schedule_nothing (events : list Event) :
  only_flaps true 0 events ->
  scheduled (run events initial) = [] /\
  sync_calls (run events initial) = [] /\
  syncTimeout (run events initial) = None /\
  (isOnline (run events initial) = true ->
   offlineTimestamp (run events initial) = None).
Proof.
  intros Hf.
  destruct (quiet_run events true 0 initial quiet_initial Hf)
    as (online' & since' & Hon & Hsch & Haw & Hcalls & Hto & Hts).
  repeat (split; [done|]).
  intros Honline. rewrite Hon in Honline. rewrite Honline in Hts. exact Hts.
Qed.

(** A reconnection after a recorded offline interval longer than 3000 ms
    replaces whatever the slot [syncTimeout] held by one callback, due
    2000 ms later. *)
Lemma genuine_restore_schedules (now since : Z) (s : State) :
  isOnline s = false ->
  offlineTimestamp s = Some since ->
  since <> 0 ->
  OFFLINE_THRESHOLD < now - since ->
  let s' := listener now (Some true) s in
  syncTimeout s' = Some (next_handle s) /\
  scheduled s' =
    List.filter (fun t => match syncTimeout s with
                          | Some h => negb (Nat.eqb (handle t) h)
                          | None => true
                          end) (scheduled s)
    ++ [ {| handle := next_handle s; due := now + STABILIZATION_DELAY |} ].
Proof.
  intros Hoff Hts Hne Hlong. unfold listener.
  destruct s as [on ts to sch nh aw calls]; simpl in *; subst.
  unfold offlineDuration; simpl.
  destruct (since =? 0) eqn:E; [by apply Z.eqb_eq in E|].
  assert ((OFFLINE_THRESHOLD <? now - since) = true) as -> by by apply Z.ltb_lt.
  destruct to as [h|]; simpl; [done|].
  split; [done|]. f_equal.
  induction sch as [|t sch IH]; simpl; [done|]. by rewrite <- IH.
Qed.

Lemma one_slot_step (s : State) (e : Event) : one_slot s -> one_slot (step s e).
Proof.
  intros H. destruct e as [now isConnected| now | ]; simpl.
  - unfold listener.
    destruct s as [on ts to sch nh aw calls]; unfold one_slot in *; simpl in *.
    set (c := match isConnected with Some b => b | None => false end).
    destruct on, c; simpl; try exact H.
    match goal with |- context [OFFLINE_THRESHOLD <? ?d] =>
      destruct (OFFLINE_THRESHOLD <? d) end; simpl; [|exact H].
    right. destruct H as [->|(h & d & -> & ->)]; simpl.
    + destruct to; simpl; by eexists _, _.
    + rewrite Nat.eqb_refl; simpl. by eexists _, _.
  - unfold run_timers, one_slot in *; simpl.
    destruct H as [->|(h & d & -> & Hto)]; simpl; [by left|].
    destruct (d <=? now); simpl; [by left|]. right. by eexists _, _.
  - unfold settle. destruct (awaiting s); [exact H|exact H].
Qed.

(** Never two callbacks scheduled at once: a new one supersedes the old. *)
Lemma at_most_one_scheduled (events : list Event) :
  (length (scheduled (run events initial)) <= 1)%nat.
Proof.
  assert (forall s, one_slot s -> one_slot (run events s)) as Hrun.
  { induction events as [|e events IH]; intros s Hs; [done|].
    simpl. apply IH. by apply one_slot_step. }
  destruct (Hrun initial) as [->|(h & d & -> & _)]; [by left|simpl; lia|simpl; lia].
Qed.

(** C6 on [second_outage].  Before the last reconnection the device has been
    offline since 7000, but the [finally] of the first callback has erased
    the timestamp; the reconnection at 20000 therefore computes a duration of
    0 and schedules nothing, and the only sync call there ever was is the
    one of the first restoration. *)
Theorem restore_after_erased_timestamp_schedules_nothing :
  let before := run second_outage initial in
  let after := run (second_outage ++ [NetInfoChange 20000 (Some true)]) initial in
  isOnline before = false /\
  offlineTimestamp before = None /\
  offlineDuration 20000 before = 0 /\
  isOnline after = true /\
  scheduled after = [] /\
  sync_calls after = [8000].
Proof. by repeat split. Qed.

End NetworkMonitorFacts.

(** ** The properties at work on the shop of [Scenario] *)

Module ScenarioFacts.
Import Scenario.



(** C3 on the shop: the category endpoint answers 500, the drain fails, and
    the operation of the failed batch is in the queue with the retry count 0
    and no error text, as before the drain; no row of the queue has the
    retry count of a batch operation plus one. *)
Lemma retry_count_untouched_on_shop :
  api_categories_sync categories_down [payload_create_category] = Rejected (Some 500) /\
  exists w',
    @syncCategories categories_down rowid_engine shop
      = (Return {| success := false; synced := 0 |}, w') /\
    map (fun r => (q_id r, q_retry_count r, q_last_error r, q_synced r)) (sync_queue w')
      = [(1, 0, None, 0); (2, 0, None, 0)] /\
    ~ (forall op, In op (@pending_operations rowid_engine Category shop) ->
         exists op', In op' (sync_queue w') /\ q_id op' = q_id op /\
                     q_retry_count op' = q_retry_count op + 1 /\
                     q_last_error op' <> None).
Proof.
  split; [reflexivity|].
  eexists. split; [reflexivity|]. split; [reflexivity|].
  intros H.
  destruct (H _ (or_introl eq_refl)) as (op' & Hin & _ & Hcount & _).
  destruct Hin as [<-|[<-|[]]]; discriminate Hcount.
Qed.

(** C3 on a batch of two with the category endpoint down: the drain fails,
    and the queue is as it was, no retry counted and no error recorded. *)
Lemma failed_batch_of_two_on_renamed :
  @pending_operations rowid_engine Category renamed <> [] /\
  build_payload categories_down (@pending_operations rowid_engine Category renamed)
    = Some [payload_create_category; payload_update_category] /\
  api_categories_sync categories_down [payload_create_category; payload_update_category]
    = Rejected (Some 500) /\
  exists w',
    @syncCategories categories_down rowid_engine renamed
      = (Return {| success := false; synced := 0 |}, w') /\
    sync_queue w' = sync_queue renamed /\
    map (fun r => (q_id r, q_retry_count r, q_last_error r, q_synced r)) (sync_queue w')
      = [(1, 0, None, 0); (2, 0, None, 0); (3, 0, None, 0)] /\
    @pending_operations rowid_engine Category w'
      = @pending_operations rowid_engine Category renamed.
Proof.
  split; [vm_compute; discriminate|]. split; [reflexivity|]. split; [reflexivity|].
  destruct (@failed_batch_records_no_failure categories_down rowid_engine Category _ _ _
              renamed [payload_create_category; payload_update_category]
              (drain_categories categories_down)
              ltac:(vm_compute; discriminate) eq_refl)
    as (r & w' & Hrun & Hr & Hq & _ & Hpending & _).
  exists w'. rewrite Hr in Hrun. split; [exact Hrun|]. split; [exact Hq|].
  split; [by rewrite Hq|exact Hpending].
Defined.

(** C2 as stated fails, in two ways.  Queued within one millisecond, a
    create and a later update of the same category carry the same
    [created_at]; an engine that scans in rowid order uploads them as
    queued, an engine that scans backwards uploads the update (id 2) before
    the create (id 1), and both engines honour [ORDER BY created_at ASC].
    And when the device clock was set back between the two, every engine
    uploads the update first. *)
Lemma upload_order_is_not_enqueue_order :
  (map q_created_at (sync_queue same_millisecond)
     = ["2024-01-02T00:00:00.000Z"; "2024-01-02T00:00:00.000Z"]%string /\
   map q_id (@pending_operations rowid_engine Category same_millisecond) = [1; 2] /\
   map q_id (@pending_operations backward_scan_engine Category same_millisecond) = [2; 1] /\
   @pending_operations backward_scan_engine Category same_millisecond
     <> List.filter (is_pending Category) (sync_queue same_millisecond) /\
   exists r w',
     @syncCategories all_up backward_scan_engine same_millisecond = (Return r, w') /\
     requests w' = [PostCategoriesSync [payload_update_category; payload_create_category]]) /\
  (map (fun r => (q_id r, q_operation_type r, q_created_at r)) (sync_queue clock_set_back)
     = [(1, Create, "2024-01-01T10:00:05.000Z"%string);
        (2, Update, "2024-01-01T10:00:03.000Z"%string)] /\
   forall engine : SqlEngine,
     @pending_operations engine Category clock_set_back
       <> List.filter (is_pending Category) (sync_queue clock_set_back) /\
     exists r w',
       @syncCategories all_up engine clock_set_back = (Return r, w') /\
       requests w' = [PostCategoriesSync [payload_update_category; payload_create_category]]).
Proof.
  split.
  - repeat (split; [reflexivity|]). split; [vm_compute; discriminate|].
    eexists _, _. split; reflexivity.
  - split; [reflexivity|]. intros engine.
    assert (@pending_operations engine Category clock_set_back
            = reverse (sync_queue clock_set_back)) as Hpending.
    { apply pending_operations_unique.
      - apply Permutation_swap.
      - repeat constructor. }
    split; [rewrite Hpending; vm_compute; discriminate|].
    apply (@drain_sends_batch all_up engine Category _ _ _ clock_set_back
             [payload_update_category; payload_create_category]
             (drain_categories all_up)).
    + rewrite Hpending. discriminate.
    + rewrite Hpending. reflexivity.
Qed.

(** C2 as amended, on a batch of two: the creation and the renaming of the
    category, stamped one second apart, are uploaded in that order. *)
Lemma batch_of_two_in_enqueue_order :
  Sorted created_lt (List.filter (is_pending Category) (sync_queue renamed)) /\
  map (fun r => (q_id r, q_operation_type r))
      (List.filter (is_pending Category) (sync_queue renamed))
    = [(1, Create); (2, Update)] /\
  exists r w',
    @syncCategories all_up rowid_engine renamed = (Return r, w') /\
    requests w' = [PostCategoriesSync [payload_create_category; payload_update_category]].
Proof.
  assert (Sorted created_lt (List.filter (is_pending Category) (sync_queue renamed))) as Hs
    by (repeat constructor).
  split; [exact Hs|]. split; [reflexivity|].
  destruct (@batch_in_created_at_order all_up rowid_engine Category _ _ _ renamed
              (drain_categories all_up)) as (ops & r & w' & Hrun & _ & _ & Hstrict & Hreq).
  rewrite (Hstrict Hs) in Hreq.
  exists r, w'. split; [exact Hrun|]. exact (proj2 Hreq).
Defined.

(** C4 on the shop.  The cycle is to "save to history if any items were
    synced"; with the item endpoint down it syncs one category, one bill and
    one inventory item, three in all, and yet writes no history entry and no
    [last_sync_time]. *)
Lemma partial_cycle_leaves_no_history :
  exists r w',
    @syncAll items_down rowid_engine shop = (Return r, w') /\
    categoriesSynced r + itemsSynced r + billsSynced r + inventorySynced r = 3 /\
    all_success r = false /\
    sync_history w' = sync_history shop /\
    sync_history w' = [] /\
    last_sync_time w' = None.
Proof. eexists _, _. repeat split; reflexivity. Qed.

(** X11 on the shop with every endpoint up: the cycle succeeds and is
    recorded. *)
Lemma full_cycle_records_history_on_shop :
  netinfo_isConnected all_up = Some true /\
  exists r w',
    @syncAll all_up rowid_engine shop = (Return r, w') /\
    all_success r = true /\
    0 < categoriesSynced r + itemsSynced r + billsSynced r + inventorySynced r /\
    exists n,
      sync_history w' =
        take 20
          ({| e_id := date_iso all_up n;
              e_date := formatDisplayDateTime all_up (date_iso all_up n);
              e_timestamp := date_iso all_up n;
              e_items :=
                List.filter (fun item => 0 <? h_count item)
                  [ {| h_name := "Categories"; h_count := categoriesSynced r |};
                    {| h_name := "Items"; h_count := itemsSynced r |};
                    {| h_name := "Bills"; h_count := billsSynced r |};
                    {| h_name := "Inventory"; h_count := inventorySynced r |} ] |}
           :: sync_history shop) /\
      last_sync_time w' = Some (date_iso all_up (S n)).
Proof.
  split; [reflexivity|].
  eexists _, _. split; [vm_compute; reflexivity|].
  split; [reflexivity|]. split; [reflexivity|].
  apply (@successful_cycle_records_history all_up rowid_engine shop);
    [reflexivity|vm_compute; reflexivity|reflexivity|reflexivity].
Defined.

(** C5 on a flicker of 1200 ms. *)
Lemma flicker_schedules_nothing :
  NetworkMonitor.only_flaps true 0 flicker /\
  NetworkMonitor.scheduled (NetworkMonitor.run flicker NetworkMonitor.initial) = [] /\
  NetworkMonitor.sync_calls (NetworkMonitor.run flicker NetworkMonitor.initial) = [] /\
  NetworkMonitor.syncTimeout (NetworkMonitor.run flicker NetworkMonitor.initial) = None /\
  (NetworkMonitor.isOnline (NetworkMonitor.run flicker NetworkMonitor.initial) = true ->
   NetworkMonitor.offlineTimestamp (NetworkMonitor.run flicker NetworkMonitor.initial)
     = None).
Proof.
  assert (NetworkMonitor.only_flaps true 0 flicker) as H.
  { simpl. unfold NetworkMonitor.OFFLINE_THRESHOLD. split; [lia|exact I]. }
  split; [exact H|]. exact (NetworkMonitorFacts.flaps_schedule_nothing flicker H).
Defined.

(** C7 on the shop while offline. *)
Lemma offline_cycle_on_shop :
  netinfo_isConnected offline <> Some true /\
  exists r,
    @syncAll offline rowid_engine shop = (Return r, shop) /\
    all_success r = false /\
    categoriesSynced r = 0 /\ itemsSynced r = 0 /\
    billsSynced r = 0 /\ inventorySynced r = 0.
Proof.
  assert (netinfo_isConnected offline <> Some true) as H by (simpl; discriminate).
  split; [exact H|]. exact (@syncAll_offline_aborts offline rowid_engine shop H).
Defined.


(** C9 on an empty device: the server sends one bill, no local bill carries
    its invoice number, and the bill is stored neither by the first download
    nor by the second. *)
Lemma server_bill_is_never_stored :
  api_bills_download with_backup 100 = Resolved (Some [server_bill]) /\
  has_invoice "INV-1" [server_bill] = true /\
  count_invoice "INV-1" (bills empty_world) = 0%nat /\
  exists w1 w2,
    initialSync_downloadBills with_backup "2024-01-01T10:00:00.000Z" empty_world
      = (Return tt, w1) /\
    initialSync_downloadBills with_backup "2024-01-01T11:00:00.000Z" w1
      = (Return tt, w2) /\
    bills w1 = [] /\ bills w2 = [] /\
    count_invoice "INV-1" (bills w1) = 0%nat /\
    count_invoice "INV-1" (bills w2) = 0%nat.
Proof.
  repeat (split; [reflexivity|]). eexists _, _. repeat split; reflexivity.
Qed.

(** C10 on a device nobody is signed in to, with nothing pending. *)
Lemma signed_out_cycle :
  user_data empty_world = None /\
  @syncBills all_up rowid_engine empty_world
    = (Return {| success := false; synced := 0 |}, empty_world) /\
  exists r w',
    @syncAll all_up rowid_engine empty_world = (Return r, w') /\
    all_success r = false /\ billsSynced r = 0.
Proof.
  split; [reflexivity|].
  exact (@syncBills_without_user_fails_cycle all_up rowid_engine empty_world eq_refl).
Defined.

End ScenarioFacts.

(** * Further properties of the service *)

Ltac frame_step :=
  lazymatch goal with
  | |- keeps _ (bind _ _) => apply keeps_bind; [|intros ?]
  | |- keeps _ (try_catch _ _) => apply keeps_try_catch; [|intros ?]
  | |- keeps _ (ret _) => apply keeps_ret
  | |- keeps _ (throw _) => apply keeps_throw
  | |- keeps _ get => apply keeps_get
  | |- keeps _ (JSON_parse _ _) => apply keeps_JSON_parse
  | |- keeps _ (JSON_parse_value _ _) => apply keeps_JSON_parse_value
  | |- keeps _ (if ?b then _ else _) => destruct b
  | |- keeps _ (match ?x with _ => _ end) => destruct x
  end.

Ltac frame_tac := cbv zeta; repeat (frame_step; cbv zeta).

Section ServiceCoverage.

Context (env : Env) {engine : SqlEngine}.

(** *** Queueing *)

Lemma next_id_above (q : list QueueRow) (r : QueueRow) :
  In r q -> q_id r < next_id q.
Proof.
  unfold next_id. induction q as [|x q IH]; intros Hin; [done|].
  simpl. destruct Hin as [->|Hin]; [lia|]. specialize (IH Hin). lia.
Qed.

(** X1. [queueOperation] never loses or rewrites a queued row.  Given a
    text for [data], it appends one row that carries the operation,
    unsynced, with retry count 0 and an id above every id in use (so
    distinct ids stay distinct), and the new row is pending for its entity
    type; it issues no request; it hands a [syncAll] callback to
    [setTimeout] with a delay of 500 ms exactly when the network status is
    connected.  Given no text (the [data] of the operation is undefined), the
    INSERT is refused and the call throws: the queue, the requests and the
    timers are as they were, so nothing is queued and no sync is
    scheduled. *)
Theorem queueOperation_queues_and_schedules (operation : SyncOperation) (w : World) :
  match op_data operation with
  | Some data =>
      exists w' row,
        queueOperation env operation w = (Return tt, w') /\
        sync_queue w' = sync_queue w ++ [row] /\
        q_operation_type row = op_operation_type operation /\
        q_entity_type row = op_entity_type operation /\
        q_entity_id row = op_entity_id operation /\
        q_data row = data /\ q_timestamp row = op_timestamp operation /\
        q_synced row = 0 /\ q_retry_count row = 0 /\
        q_created_at row = date_iso env (ticks w) /\
        (forall r, In r (sync_queue w) -> q_id r < q_id row) /\
        (NoDup (map q_id (sync_queue w)) -> NoDup (map q_id (sync_queue w'))) /\
        In row (pending_operations (op_entity_type operation) w') /\
        requests w' = requests w /\
        timers w' = timers w ++
          (if match netinfo_isConnected env with Some b => b | None => false end
           then [500] else [])
  | None =>
      exists error w',
        queueOperation env operation w = (Throw error, w') /\
        sync_queue w' = sync_queue w /\
        requests w' = requests w /\ timers w' = timers w
  end.
Proof.
  destruct (op_data operation) as [data|] eqn:Hd.
  2:{ rewrite (queueOperation_refused env operation w Hd). by eexists _, _. }
  destruct (queueOperation_appends env operation data w Hd) as (w' & Hrun & Hq).
  eexists w', _. split; [exact Hrun|]. split; [exact Hq|].
  repeat (split; [done|]).
  split; [intros r Hr; by apply next_id_above|].
  split.
  { intros Hnd. rewrite Hq, map_app. simpl.
    apply NoDup_app. split; [done|]. split; [|apply NoDup_singleton].
    intros x Hx Hx'. apply list_elem_of_In in Hx.
    apply in_map_iff in Hx as (r & <- & Hr).
    apply list_elem_of_singleton in Hx'. simpl in Hx'.
    pose proof (next_id_above _ _ Hr). lia. }
  split.
  { apply pending_operations_In. rewrite Hq. split.
    - apply in_or_app. right. by left.
    - unfold is_pending. simpl. by destruct (op_entity_type operation). }
  revert Hrun. unfold queueOperation, insert_sync_queue, bind, try_catch,
    new_Date_toISOString, modify, getNetworkStatus, ret. rewrite Hd.
  destruct (netinfo_isConnected env) as [[|]|]; intros [= <-]; simpl;
    by rewrite ?app_nil_r.
Qed.

(** *** What a drain and a cycle do to the queue *)

Lemma same_id_same_row (q : list QueueRow) (r r' : QueueRow) :
  NoDup (map q_id q) -> In r q -> In r' q -> q_id r = q_id r' -> r = r'.
Proof.
  induction q as [|x q IH]; intros Hnd Hr Hr' Hid; [done|].
  simpl in Hnd. apply NoDup_cons in Hnd as [Hx Hnd].
  destruct Hr as [->|Hr], Hr' as [->|Hr']; auto.
  - exfalso. apply Hx. rewrite Hid. apply list_elem_of_In. by apply in_map.
  - exfalso. apply Hx. rewrite <- Hid. apply list_elem_of_In. by apply in_map.
Qed.

Lemma kept_or_marked_refl (es : list EntityType) (q : list QueueRow) :
  Forall2 (kept_or_marked es) q q.
Proof. induction q; constructor; [by left|done]. Qed.

Lemma marked_kept_or_marked (e : EntityType) (w : World) (q q' : list QueueRow) :
  NoDup (map q_id (sync_queue w)) ->
  (forall r, In r q -> In r (sync_queue w)) ->
  Forall2 (marked (map q_id (pending_operations e w))) q q' ->
  Forall2 (kept_or_marked [e]) q q'.
Proof.
  intros Hnd Hsub HF. induction HF as [|r r' q q' Hr HF IH]; constructor.
  - unfold marked in Hr.
    destruct (existsb (Z.eqb (q_id r)) (map q_id (pending_operations e w))) eqn:E;
      [|by left].
    right. apply existsb_exists in E as (i & Hi & Heq). apply Z.eqb_eq in Heq.
    apply in_map_iff in Hi as (op & Hop & Hin).
    apply pending_operations_In in Hin as [Hin Hpend].
    assert (op = r) as ->.
    { apply (same_id_same_row (sync_queue w)); [done|done| |lia].
      apply Hsub. by left. }
    unfold is_pending in Hpend. apply andb_true_iff in Hpend as [He Hs].
    apply Z.eqb_eq in Hs. simpl. by rewrite He.
  - apply IH. intros x Hx. apply Hsub. by right.
Qed.

Lemma kept_or_marked_ids (es : list EntityType) (q q' : list QueueRow) :
  Forall2 (kept_or_marked es) q q' -> map q_id q' = map q_id q.
Proof.
  induction 1 as [|r r' q q' Hr HF IH]; [done|]. simpl. f_equal; [|done].
  destruct Hr as [->|(_ & _ & now & ->)]; done.
Qed.

Lemma kept_or_marked_weaken (es es' : list EntityType) (q q' : list QueueRow) :
  (forall e, In e es -> In e es') ->
  Forall2 (kept_or_marked es) q q' -> Forall2 (kept_or_marked es') q q'.
Proof.
  intros Hsub. induction 1 as [|r r' q q' Hr HF IH]; constructor; [|done].
  destruct Hr as [->|(He & Hs & Hnow)]; [by left|]. right. split; [|done].
  apply existsb_exists in He as (e & He & Heq). apply existsb_exists.
  exists e. split; [by apply Hsub|done].
Qed.

Lemma kept_or_marked_trans (es : list EntityType) (q q' q'' : list QueueRow) :
  Forall2 (kept_or_marked es) q q' -> Forall2 (kept_or_marked es) q' q'' ->
  Forall2 (kept_or_marked es) q q''.
Proof.
  intros H. revert q''. induction H as [|r r' q q' Hr HF IH]; intros q'' H';
    inversion H' as [|r1 r'' q1 q1' Hr' HF']; subst; constructor; [|by apply IH].
  destruct Hr as [->|(He & Hs & now & ->)]; [done|].
  destruct Hr' as [->|(_ & Hs' & _)]; [|done].
  right. repeat split; [done|done|by exists now].
Qed.

Lemma queue_drain_kept_or_marked (e : EntityType) (drain : M DrainResult)
    (req : list SyncPayload -> Request)
    (api : list SyncPayload -> ApiResult (option SyncResponse)) (w : World) :
  queue_drain_for env e drain req api ->
  NoDup (map q_id (sync_queue w)) ->
  exists r w',
    drain w = (Return r, w') /\
    Forall2 (kept_or_marked [e]) (sync_queue w) (sync_queue w').
Proof.
  intros Hd Hnd.
  destruct (queue_drain_for_cases env _ _ _ _ Hd) as (echo & -> & Hret & Hkq & Hkr).
  assert (pending_operations e w = [] \/ pending_operations e w <> []) as [Hp|Hne]
    by (destruct (pending_operations e w); [by left|by right]).
  { eexists _, w. split; [by apply queue_drain_idle|]. apply kept_or_marked_refl. }
  destruct (build_payload env (pending_operations e w)) as [batch|] eqn:Hb.
  2:{ eexists _, w. split; [by apply queue_drain_unparsable|].
      apply kept_or_marked_refl. }
  destruct (api batch) as [[response|]|status] eqn:Hapi.
  - destruct (queue_drain_resolved env e req api echo Hret Hkq Hkr w batch response
                Hne Hb Hapi) as (w' & Hrun & Hq & _).
    eexists _, w'. split; [exact Hrun|].
    by apply (marked_kept_or_marked e w).
  - eexists _, _. split; [by apply queue_drain_null_body|].
    apply kept_or_marked_refl.
  - eexists _, _. split; [by apply queue_drain_rejected with (status := status)|].
    apply kept_or_marked_refl.
Qed.

(** X2. Queue ids being distinct, the category drain changes no queue row
    but the pending category operations it marks synced, and the item drain
    none but the pending item operations: a drain never marks an operation
    of another entity type, never touches a row that is already synced, and
    never removes or reorders rows. *)
Theorem drain_marks_only_its_own (e : EntityType) (drain : M DrainResult)
    (req : list SyncPayload -> Request)
    (api : list SyncPayload -> ApiResult (option SyncResponse)) (w : World) :
  queue_drain_for env e drain req api ->
  NoDup (map q_id (sync_queue w)) ->
  exists r w',
    drain w = (Return r, w') /\
    Forall2 (kept_or_marked [e]) (sync_queue w) (sync_queue w') /\
    map q_id (sync_queue w') = map q_id (sync_queue w) /\
    (forall op, In op (sync_queue w) ->
       q_entity_type op <> e \/ q_synced op <> 0 -> In op (sync_queue w')).
Proof.
  intros Hd Hnd.
  destruct (queue_drain_kept_or_marked e drain req api w Hd Hnd) as (r & w' & Hrun & HF).
  exists r, w'. split; [done|]. split; [done|].
  split; [by eapply kept_or_marked_ids|].
  intros op Hop Hother. clear Hrun Hnd.
  induction HF as [|x x' q q' Hx HF IH]; [done|].
  destruct Hop as [->|Hop]; [|right; by apply IH].
  left. destruct Hx as [->|(He & Hs & _)]; [done|]. exfalso.
  simpl in He. rewrite orb_false_r in He.
  destruct Hother as [Hne|Hne]; [|done].
  apply Hne. by destruct (q_entity_type op), e.
Qed.

(** X3. Queue ids being distinct, a full cycle (connected or not) leaves
    every queue row as it was except the pending category and item
    operations it marks synced.  So a queued operation of entity type bill
    or inventory is never uploaded from the queue and never marked: it is
    still pending after the cycle. *)
Theorem cycle_never_clears_bill_or_inventory_operations (w : World) :
  NoDup (map q_id (sync_queue w)) ->
  exists r w',
    syncAll env w = (Return r, w') /\
    Forall2 (kept_or_marked [Category; Item]) (sync_queue w) (sync_queue w') /\
    (forall op, In op (sync_queue w) ->
       q_entity_type op = Bill \/ q_entity_type op = Inventory ->
       In op (sync_queue w') /\
       (q_synced op = 0 -> In op (pending_operations (q_entity_type op) w'))).
Proof.
  intros Hnd.
  assert (exists r w', syncAll env w = (Return r, w') /\
            Forall2 (kept_or_marked [Category; Item]) (sync_queue w) (sync_queue w'))
    as (r & w' & Hrun & HF).
  { destruct (netinfo_isConnected env) as [[|]|] eqn:Hnet.
    - destruct (syncAll_online env w Hnet) as (c & w1 & i & w2 & b & w3 & v & w4 &
        Hc & Hi & Hb & Hv & Hall).
      destruct (queue_drain_kept_or_marked Category _ _ _ w (drain_categories env) Hnd)
        as (c' & w1' & Hc' & HF1).
      rewrite Hc in Hc'. inversion Hc'; subst c' w1'. clear Hc'.
      assert (NoDup (map q_id (sync_queue w1))) as Hnd1
        by (by rewrite (kept_or_marked_ids _ _ _ HF1)).
      destruct (queue_drain_kept_or_marked Item _ _ _ w1 (drain_items env) Hnd1)
        as (i' & w2' & Hi' & HF2).
      rewrite Hi in Hi'. inversion Hi'; subst i' w2'. clear Hi'.
      eexists _, _. split; [exact Hall|].
      assert (sync_queue (after_cycle env c i b v w4) = sync_queue w2) as ->.
      { unfold after_cycle.
        assert (sync_queue w4 = sync_queue w2) as H4.
        { rewrite (syncInventory_keeps env sync_queue ltac:(done) ltac:(done) _ _ _ Hv).
          by rewrite (syncBills_keeps env sync_queue ltac:(done) ltac:(done) _ _ _ Hb). }
        by destruct (cycle_success c i b v && some_synced c i b v). }
      apply (kept_or_marked_trans _ _ (sync_queue w1)).
      + eapply kept_or_marked_weaken; [|exact HF1]. intros e [<-|[]]. by left.
      + eapply kept_or_marked_weaken; [|exact HF2]. intros e [<-|[]]. right. by left.
    - exists zero_result, w. split; [apply syncAll_offline; by rewrite Hnet|].
      apply kept_or_marked_refl.
    - exists zero_result, w. split; [apply syncAll_offline; by rewrite Hnet|].
      apply kept_or_marked_refl. }
  exists r, w'. split; [done|]. split; [done|].
  intros op Hop Htype.
  assert (In op (sync_queue w')) as Hin.
  { clear Hrun Hnd. induction HF as [|x x' q q' Hx HF IH]; [done|].
    destruct Hop as [->|Hop]; [|right; by apply IH].
    left. destruct Hx as [->|(He & _)]; [done|]. exfalso.
    destruct Htype as [Ht|Ht]; rewrite Ht in He; discriminate He. }
  split; [done|]. intros Hs. apply pending_operations_In. split; [done|].
  unfold is_pending. rewrite Hs. by destruct (q_entity_type op).
Qed.

(** *** The bills drain *)

Lemma getUserData_run (w : World) :
  exists u, getUserData env w = (Return u, w).
Proof.
  unfold getUserData, try_catch, bind, get, JSON_parse.
  destruct (user_data w) as [data|]; [|by eexists].
  destruct (negb (String.eqb data EmptyString)); [|by eexists].
  destruct (json_parse env data); by eexists.
Qed.

Lemma bill_wire_keeps {X : Type} (f : World -> X) (bill : Row) :
  keeps f (bill_wire env bill).
Proof. unfold bill_wire. frame_tac. Qed.

Lemma map_m_length {A B : Type} (f : A -> M B) (l : list A) (w w' : World) (ys : list B) :
  map_m f l w = (Return ys, w') -> length ys = length l.
Proof.
  revert w ys. induction l as [|x l IH]; intros w ys H; simpl in H.
  - by inversion H.
  - unfold bind in H. destruct (f x w) as [[y|e] w1]; [|done].
    destruct (map_m f l w1) as [[zs|e] w2] eqn:E; [|done].
    inversion H; subst. simpl. f_equal. by eapply IH.
Qed.

Lemma unsynced_bills_length (w : World) :
  (length (unsynced_bills w) <= 50)%nat /\
  length (unsynced_bills w) = Nat.min 50 (length (List.filter unsynced (bills w))).
Proof.
  unfold unsynced_bills. rewrite length_take.
  rewrite (Permutation_length (order_by_perm le_bill_created_at _)).
  split; [lia|done].
Qed.

(** The bills drain, case by case. *)
Lemma syncBills_run (w : World) :
  exists u,
    getUserData env w = (Return u, w) /\
    syncBills env w =
      if not_userData u then (Return {| success := false; synced := 0 |}, w)
      else if Z.of_nat (length (unsynced_bills w)) =? 0
      then (Return {| success := true; synced := 0 |}, w)
      else match map_m (bill_wire env) (unsynced_bills w) w with
           | (Return batch, _) =>
               match api_bills_sync env batch with
               | Resolved _ =>
                   (Return {| success := true;
                              synced := Z.of_nat (length (unsynced_bills w)) |},
                    set_bills (mark_bills_synced
                                 (map (fun b => col b "id") (unsynced_bills w)))
                      (add_request (PostBackupSync batch) w))
               | Rejected _ =>
                   (Return {| success := false; synced := 0 |},
                    add_request (PostBackupSync batch) w)
               end
           | (Throw _, _) => (Return {| success := false; synced := 0 |}, w)
           end.
Proof.
  destruct (getUserData_run w) as [u Hu]. exists u. split; [done|].
  unfold syncBills, try_catch. rewrite (bind_Return _ _ _ _ _ Hu).
  destruct (not_userData u); [done|].
  unfold bind at 1, get.
  destruct (Z.of_nat (length (unsynced_bills w)) =? 0); [done|].
  unfold bind at 1.
  destruct (map_m (bill_wire env) (unsynced_bills w) w) as [[batch|e] w1] eqn:Hm.
  - assert (w1 = w) as -> by
      (eapply (keeps_map_m (fun x => x)); [intros b; apply bill_wire_keeps|exact Hm]).
    unfold bind at 1, await. by destruct (api_bills_sync env batch).
  - assert (w1 = w) as -> by
      (eapply (keeps_map_m (fun x => x)); [intros b; apply bill_wire_keeps|exact Hm]).
    done.
Qed.

(** X4. The bills drain never throws and uploads at most 50 bills per call,
    in at most one request; it reports between 0 and 50 synced bills; and
    it is all-or-nothing: whenever it reports failure (nobody signed in, a
    bill that cannot be put in the wire schema, a rejected request) the
    count is 0 and the bills table is exactly as it was. *)
Theorem syncBills_caps_and_is_all_or_nothing (w : World) :
  exists r w',
    syncBills env w = (Return r, w') /\
    0 <= synced r <= 50 /\
    (success r = false -> synced r = 0 /\ bills w' = bills w) /\
    (requests w' = requests w \/
     exists batch, requests w' = requests w ++ [PostBackupSync batch] /\
                   (length batch <= 50)%nat /\
                   (success r = true -> synced r = Z.of_nat (length batch))) /\
    sync_queue w' = sync_queue w /\ inventory_items w' = inventory_items w.
Proof.
  destruct (syncBills_run w) as (u & _ & ->).
  pose proof (unsynced_bills_length w) as [Hle _].
  destruct (not_userData u).
  { eexists _, _. split; [done|]. simpl. repeat split; try done; try lia. by left. }
  destruct (Z.of_nat (length (unsynced_bills w)) =? 0).
  { eexists _, _. split; [done|]. simpl. repeat split; try done; try lia. by left. }
  destruct (map_m (bill_wire env) (unsynced_bills w) w) as [[batch|e] w1] eqn:Hm.
  - apply map_m_length in Hm.
    destruct (api_bills_sync env batch).
    + eexists _, _. split; [done|]. simpl. repeat split; try done; try lia.
      right. exists batch. repeat split; [lia|]. intros _. by rewrite Hm.
    + eexists _, _. split; [done|]. simpl. repeat split; try done; try lia.
      right. exists batch. repeat split; [lia|done].
  - eexists _, _. split; [done|]. simpl. repeat split; try done; try lia. by left.
Qed.

Lemma col_set_col (c : string) (v : SqlValue) (r : Row) : col (set_col c v r) c = v.
Proof.
  induction r as [|[k x] r IH]; simpl.
  - by rewrite String.eqb_refl.
  - destruct (String.eqb k c) eqn:E; simpl; by rewrite E.
Qed.

Lemma filter_length_perm {A : Type} (f : A -> bool) (l l' : list A) :
  l ≡ₚ l' -> length (List.filter f l) = length (List.filter f l').
Proof.
  induction 1 as [|x l l' _ IH|x y l|l l' l'' _ IH1 _ IH2]; simpl.
  - done.
  - destruct (f x); simpl; by rewrite IH.
  - by destruct (f x), (f y).
  - by rewrite IH1.
Qed.

Lemma filter_all_false {A : Type} (f : A -> bool) (l : list A) :
  (forall x, In x l -> f x = false) -> List.filter f l = [].
Proof.
  induction l as [|x l IH]; intros H; simpl; [done|].
  rewrite (H x) by (by left). apply IH. intros y Hy. apply H. by right.
Qed.

Lemma filter_all_true {A : Type} (f : A -> bool) (l : list A) :
  (forall x, In x l -> f x = true) -> List.filter f l = l.
Proof.
  induction l as [|x l IH]; intros H; simpl; [done|].
  rewrite (H x) by (by left). f_equal. apply IH. intros y Hy. apply H. by right.
Qed.

(** The unsynced rows of the table after [ids] were marked: the unsynced
    rows whose id is not among [ids]. *)
Lemma unsynced_after_marking (ids : list SqlValue) (t : Table) :
  length (List.filter unsynced (mark_bills_synced ids t)) =
  length (List.filter (fun r => negb (existsb (sql_eq (col r "id")) ids))
            (List.filter unsynced t)).
Proof.
  unfold mark_bills_synced. induction t as [|r t IH]; simpl; [done|].
  destruct (existsb (sql_eq (col r "id")) ids) eqn:E.
  - assert (unsynced (set_col "is_synced" (VInt 1) r) = false) as ->
      by (unfold unsynced; by rewrite col_set_col).
    destruct (unsynced r); simpl; [by rewrite E|done].
  - destruct (unsynced r); simpl; [rewrite E; simpl; by rewrite IH|done].
Qed.

(** X5. Whenever the bills drain reports success, it has synced
    min(50, n) bills, n being the number of unsynced bills, and, the unsynced
    bills having a text id each and no id twice, exactly n - min(50, n)
    bills are unsynced afterwards: a backlog is drained 50 bills per cycle. *)
Theorem syncBills_drains_fifty_at_a_time (w w' : World) (r : DrainResult) :
  syncBills env w = (Return r, w') ->
  success r = true ->
  Forall (fun b => text_id b = true) (List.filter unsynced (bills w)) ->
  NoDup (map (fun b => col b "id") (List.filter unsynced (bills w))) ->
  synced r = Z.of_nat (Nat.min 50 (length (List.filter unsynced (bills w)))) /\
  length (List.filter unsynced (bills w')) =
    (length (List.filter unsynced (bills w))
     - Nat.min 50 (length (List.filter unsynced (bills w))))%nat.
Proof.
  intros Hrun Hs Htext Hnd.
  destruct (syncBills_run w) as (u & _ & Heq). rewrite Heq in Hrun. clear Heq.
  pose proof (unsynced_bills_length w) as [_ Hlen].
  destruct (not_userData u); [inversion Hrun; subst; discriminate Hs|].
  destruct (Z.of_nat (length (unsynced_bills w)) =? 0) eqn:Hz.
  { inversion Hrun; subst. apply length_zero_nil in Hz. rewrite Hz in Hlen.
    cbn [length] in Hlen. cbn [synced]. split; lia. }
  destruct (map_m (bill_wire env) (unsynced_bills w) w) as [[batch|e] w1];
    [|inversion Hrun; subst; discriminate Hs].
  destruct (api_bills_sync env batch); [|inversion Hrun; subst; discriminate Hs].
  inversion Hrun; subst. clear Hrun Hs Hz.
  unfold set_bills, add_request. cbn [synced bills].
  split; [by rewrite Hlen|].
  rewrite unsynced_after_marking.
  set (U := List.filter unsynced (bills w)) in *.
  set (P := order_by le_bill_created_at U).
  assert (P ≡ₚ U) as HP by apply order_by_perm.
  assert (unsynced_bills w = take 50 P) as -> by done.
  set (ids := map (fun b => col b "id") (take 50 P)).
  rewrite <- (filter_length_perm _ P U HP).
  rewrite <- (take_drop 50 P) at 1. rewrite List.filter_app, length_app.
  assert (NoDup (map (fun b => col b "id") (take 50 P ++ drop 50 P))) as Hnd'.
  { rewrite take_drop. by rewrite (Permutation_map _ HP). }
  rewrite map_app in Hnd'. apply NoDup_app in Hnd' as (_ & Hdisj & _).
  assert (forall b, In b P -> exists s, col b "id" = VText s) as HtextP.
  { intros b Hb. apply list_elem_of_In in Hb. rewrite HP in Hb.
    rewrite Forall_forall in Htext. specialize (Htext b Hb).
    unfold text_id in Htext. destruct (col b "id"); try done. by eexists. }
  rewrite filter_all_false, filter_all_true.
  - cbn [length]. rewrite length_drop, <- (Permutation_length HP). lia.
  - intros b Hb. apply negb_true_iff. apply not_true_is_false. intros Hex.
    apply existsb_exists in Hex as (i & Hi & Heq).
    destruct (HtextP b) as [sb Hsb].
    { apply list_elem_of_In. apply list_elem_of_In in Hb.
      rewrite <- (take_drop 50 P). apply elem_of_app. by right. }
    rewrite Hsb in Heq. destruct i as [| | |si]; try discriminate Heq.
    simpl in Heq. apply String.eqb_eq in Heq. subst si.
    apply (Hdisj (VText sb)).
    + by apply list_elem_of_In.
    + apply list_elem_of_In. rewrite <- Hsb.
      by apply (in_map (fun b => col b "id")).
  - intros b Hb. apply negb_false_iff. apply existsb_exists.
    exists (col b "id"). split; [by apply (in_map (fun b => col b "id"))|].
    destruct (HtextP b) as [sb ->]; [|simpl; apply String.eqb_refl].
    apply list_elem_of_In. apply list_elem_of_In in Hb.
    rewrite <- (take_drop 50 P). apply elem_of_app. by left.
Qed.

(** *** The inventory loop *)

Lemma sync_inventory_item_run (item : Row) (w : World) :
  exists w',
    try_catch (sync_inventory_item env item ;; ret true) (fun _ => ret false) w
      = (Return (inventory_item_ok env item), w') /\
    requests w' = requests w ++ inventory_item_requests env item /\
    sync_queue w' = sync_queue w /\ bills w' = bills w /\
    (inventory_item_ok env item = false -> inventory_items w' = inventory_items w).
Proof.
  unfold sync_inventory_item, inventory_item_ok, inventory_item_requests,
    try_catch, bind, await, markInventoryItemSynced, modify, ret, throw.
  destruct (api_inventory_getById env (col item "id")) as [[]|status].
  - destruct (api_inventory_update env (col item "id") (inventory_body item)) as [[]|];
      simpl; eexists; (split; [reflexivity|]); simpl;
      rewrite <- ?app_assoc; by repeat split.
  - destruct (status_is_not (RequestError status) 404); simpl.
    + eexists; (split; [reflexivity|]); by repeat split.
    + destruct (api_inventory_create env (inventory_body item)) as [[]|];
        simpl; eexists; (split; [reflexivity|]); simpl;
        rewrite <- ?app_assoc; by repeat split.
Qed.

(** X6. The inventory loop isolates failures.  Whatever happens to one item,
    every item of the list is probed, once and in order: the loop issues for
    each item its probe, then an update if the item was found, a creation if
    the probe came back 404, and nothing if the probe failed otherwise (so
    it never creates an item on a failed probe).  It counts an item as synced
    exactly when its probe and its write went through and as an error
    otherwise, so the two counters grow by the length of the list in all. *)
Theorem inventory_loop_isolates_failures (l : list Row) (n m : Z) (w : World) :
  exists w',
    inventory_loop env l n m w =
      (Return (n + Z.of_nat (length (List.filter (inventory_item_ok env) l)),
               m + Z.of_nat (length (List.filter
                                       (fun item => negb (inventory_item_ok env item)) l))),
       w') /\
    requests w' = requests w ++ concat (map (inventory_item_requests env) l) /\
    sync_queue w' = sync_queue w /\ bills w' = bills w /\
    (List.filter (inventory_item_ok env) l = [] ->
     inventory_items w' = inventory_items w).
Proof.
  revert n m w. induction l as [|item l IH]; intros n m w.
  - exists w. simpl. rewrite !Z.add_0_r, app_nil_r. by repeat split.
  - destruct (sync_inventory_item_run item w) as (w1 & Hrun & Hreq & Hq & Hb & Hinv).
    cbn [inventory_loop]. rewrite (bind_Return _ _ _ _ _ Hrun).
    cbn [List.filter map concat].
    destruct (inventory_item_ok env item) eqn:Hok; cbn [negb].
    + destruct (IH (n + 1) m w1) as (w' & Hloop & Hreq' & Hq' & Hb' & _).
      exists w'. rewrite Hloop. cbn [length].
      split; [by rewrite Nat2Z.inj_succ, <- Z.add_1_l, Z.add_assoc|].
      rewrite Hreq', Hreq, Hq', Hq, Hb', Hb, app_assoc. by repeat split.
    + destruct (IH n (m + 1) w1) as (w' & Hloop & Hreq' & Hq' & Hb' & Hinv').
      exists w'. rewrite Hloop. cbn [length].
      split; [by rewrite Nat2Z.inj_succ, <- Z.add_1_l, Z.add_assoc|].
      rewrite Hreq', Hreq, Hq', Hq, Hb', Hb, app_assoc. repeat split; try done.
      intros Hnone. rewrite (Hinv' Hnone). by apply Hinv.
Qed.

(** *** The sync history *)

(** X7. [saveSyncToHistory] never throws and touches nothing but the
    history, which it never lets exceed 20 entries: the new entry comes
    first, followed by the previous entries in their order, the oldest being
    dropped beyond 20.  The entry lists the entity types whose count is
    positive, in the order categories, items, bills, inventory, so an entry
    for counts that are all zero has an empty list. *)
Theorem saveSyncToHistory_caps_history (c i b : Z) (v : option Z) (w : World) :
  exists w' entry,
    saveSyncToHistory env c i b v w = (Return tt, w') /\
    sync_history w' = entry :: take 19 (sync_history w) /\
    (length (sync_history w') <= 20)%nat /\
    length (sync_history w') = Nat.min 20 (S (length (sync_history w))) /\
    e_id entry = date_iso env (ticks w) /\
    e_timestamp entry = date_iso env (ticks w) /\
    Forall (fun item => 0 < h_count item) (e_items entry) /\
    (c <= 0 -> i <= 0 -> b <= 0 ->
     match v with Some n => n <= 0 | None => True end -> e_items entry = []) /\
    sync_queue w' = sync_queue w /\ bills w' = bills w /\
    last_sync_time w' = last_sync_time w /\ requests w' = requests w.
Proof.
  eexists _, _. split; [reflexivity|].
  unfold set_sync_history, tick.
  cbn [sync_history sync_queue bills last_sync_time requests ticks
       e_id e_timestamp e_items].
  rewrite push_history_take.
  change (take 20 (?e :: ?h)) with (e :: take 19 h).
  split; [done|]. cbn [length]. rewrite length_take.
  split; [lia|]. split; [lia|]. split; [done|]. split; [done|].
  split.
  { unfold history_items. apply Forall_forall. intros item Hitem.
    apply list_elem_of_In, filter_In in Hitem as [_ Hpos]. by apply Z.ltb_lt. }
  split; [|done].
  intros Hc Hi Hb Hv. unfold history_items. simpl.
  assert ((0 <? c) = false) as -> by (apply Z.ltb_ge; lia).
  assert ((0 <? i) = false) as -> by (apply Z.ltb_ge; lia).
  assert ((0 <? b) = false) as -> by (apply Z.ltb_ge; lia).
  destruct v as [n|]; [|done].
  assert ((0 <? n) = false) as -> by (apply Z.ltb_ge; lia). done.
Qed.

(** *** Cycles that have nothing to record *)

Lemma drains_keep_history (w w1 w2 w3 w4 : World) (c i b v : DrainResult) :
  syncCategories env w = (Return c, w1) ->
  syncItems env w1 = (Return i, w2) ->
  syncBills env w2 = (Return b, w3) ->
  syncInventory env w3 = (Return v, w4) ->
  sync_history w4 = sync_history w /\ last_sync_time w4 = last_sync_time w.
Proof.
  intros Hc Hi Hb Hv. split.
  - rewrite (syncInventory_keeps env sync_history ltac:(done) ltac:(done) _ _ _ Hv).
    rewrite (syncBills_keeps env sync_history ltac:(done) ltac:(done) _ _ _ Hb).
    rewrite (syncItems_keeps env sync_history ltac:(done) ltac:(done) ltac:(done)
               ltac:(done) ltac:(done) ltac:(done) _ _ _ Hi).
    by rewrite (syncCategories_keeps env sync_history ltac:(done) ltac:(done)
                  ltac:(done) ltac:(done) _ _ _ Hc).
  - rewrite (syncInventory_keeps env last_sync_time ltac:(done) ltac:(done) _ _ _ Hv).
    rewrite (syncBills_keeps env last_sync_time ltac:(done) ltac:(done) _ _ _ Hb).
    rewrite (syncItems_keeps env last_sync_time ltac:(done) ltac:(done) ltac:(done)
               ltac:(done) ltac:(done) ltac:(done) _ _ _ Hi).
    by rewrite (syncCategories_keeps env last_sync_time ltac:(done) ltac:(done)
                  ltac:(done) ltac:(done) _ _ _ Hc).
Qed.

(** X8. A cycle that reports failure, or that reports four counts of zero,
    leaves the sync history and [last_sync_time] exactly as they were. *)
Theorem failed_or_empty_cycle_records_nothing (w w' : World) (r : SyncAllResult) :
  syncAll env w = (Return r, w') ->
  all_success r = false \/
  (categoriesSynced r = 0 /\ itemsSynced r = 0 /\
   billsSynced r = 0 /\ inventorySynced r = 0) ->
  sync_history w' = sync_history w /\ last_sync_time w' = last_sync_time w.
Proof.
  intros Hrun Hwhy.
  destruct (netinfo_isConnected env) as [[|]|] eqn:Hnet.
  - destruct (syncAll_online env w Hnet) as (c & w1 & i & w2 & b & w3 & v & w4 &
      Hc & Hi & Hb & Hv & Hall).
    rewrite Hall in Hrun. inversion Hrun; subst r w'. clear Hrun.
    destruct (drains_keep_history _ _ _ _ _ _ _ _ _ Hc Hi Hb Hv) as [Hh Hl].
    unfold after_cycle. simpl in Hwhy.
    destruct (cycle_success c i b v && some_synced c i b v) eqn:E; [|done].
    exfalso. apply andb_true_iff in E as [Hs Hsome].
    destruct Hwhy as [Hf|(H1 & H2 & H3 & H4)]; [congruence|].
    unfold some_synced in Hsome. by rewrite H1, H2, H3, H4 in Hsome.
  - rewrite syncAll_offline in Hrun by (by rewrite Hnet). by inversion Hrun.
  - rewrite syncAll_offline in Hrun by (by rewrite Hnet). by inversion Hrun.
Qed.

Lemma pending_nil_drain (e : EntityType) (drain : M DrainResult)
    (req : list SyncPayload -> Request)
    (api : list SyncPayload -> ApiResult (option SyncResponse)) (w : World) :
  queue_drain_for env e drain req api ->
  pending_operations e w = [] ->
  drain w = (Return {| success := true; synced := 0 |}, w).
Proof.
  intros Hd Hp.
  destruct (queue_drain_for_cases env _ _ _ _ Hd) as (echo & -> & _).
  by apply queue_drain_idle.
Qed.

(** X9. The idle cycle.  Connected and signed in, with no pending category
    or item operation, no unsynced bill and no unsynced inventory item, the
    cycle reports success with four counts of zero and leaves the device
    exactly as it was: no request, no history entry, no clock reading. *)
Theorem idle_cycle_succeeds_and_changes_nothing (w : World) (u : option Json) :
  netinfo_isConnected env = Some true ->
  getUserData env w = (Return u, w) ->
  not_userData u = false ->
  pending_operations Category w = [] ->
  pending_operations Item w = [] ->
  unsynced_bills w = [] ->
  List.filter unsynced (inventory_items w) = [] ->
  syncAll env w =
    (Return {| all_success := true; categoriesSynced := 0; itemsSynced := 0;
               billsSynced := 0; inventorySynced := 0 |}, w).
Proof.
  intros Hnet Hu Hsigned Hc Hi Hb Hv.
  assert (getNetworkStatus env w = (Return true, w)) as Hon
    by (unfold getNetworkStatus; by rewrite Hnet).
  unfold syncAll. rewrite (bind_Return _ _ _ _ _ Hon). cbn [negb].
  rewrite (bind_Return _ _ _ _ _
             (pending_nil_drain Category _ _ _ w (drain_categories env) Hc)).
  rewrite (bind_Return _ _ _ _ _
             (pending_nil_drain Item _ _ _ w (drain_items env) Hi)).
  assert (syncBills env w = (Return {| success := true; synced := 0 |}, w)) as Hbills.
  { destruct (syncBills_run w) as (u' & Hu' & ->).
    rewrite Hu in Hu'. inversion Hu'; subst u'. by rewrite Hsigned, Hb. }
  rewrite (bind_Return _ _ _ _ _ Hbills).
  assert (syncInventory env w = (Return {| success := true; synced := 0 |}, w)) as Hinv.
  { assert (getUnsyncedInventoryItems w = (Return [], w)) as Hnone.
    { unfold getUnsyncedInventoryItems, bind, get, ret.
      unfold unsynced in Hv. by rewrite Hv. }
    unfold syncInventory, try_catch. by rewrite (bind_Return _ _ _ _ _ Hnone). }
  rewrite (bind_Return _ _ _ _ _ Hinv). done.
Qed.

(** *** The bills step of the initial sync, further *)

(** X10. The bills step of the initial sync never throws and only ever
    appends to the local bills table: the bills that were there are
    untouched and in place, at most one row is added per downloaded bill, and
    nothing is added when the download is rejected or carries no list.  It
    issues the one download request and leaves the operation queue alone. *)
Theorem downloadBills_only_appends (now : string) (w : World) :
  exists w' added,
    initialSync_downloadBills env now w = (Return tt, w') /\
    bills w' = bills w ++ added /\
    match api_bills_download env 100 with
    | Resolved (Some downloaded) => (length added <= length downloaded)%nat
    | _ => added = []
    end /\
    requests w' = requests w ++ [GetBackupSync 100] /\
    sync_queue w' = sync_queue w.
Proof.
  destruct (initialSync_downloadBills_run env now w) as (w' & Hrun & Hb & Hr & Hq).
  exists w', []. rewrite app_nil_r. repeat split; try done.
  destruct (api_bills_download env 100) as [[downloaded|]|status]; try done.
  cbn [length]. lia.
Qed.

(** *** What a drain does to the local tables *)

Lemma col_set_col_other (c k : string) (v : SqlValue) (r : Row) :
  String.eqb c k = false -> col (set_col c v r) k = col r k.
Proof.
  intros Hck. induction r as [|[k' x] r IH]; simpl.
  - by rewrite Hck.
  - destruct (String.eqb k' c) eqn:E; simpl.
    + apply String.eqb_eq in E. subst k'. by rewrite Hck.
    + by rewrite IH.
Qed.

Lemma col_set_cols_other (sets : list (string * SqlValue)) (r : Row) (c : string) :
  ~ In c (map fst sets) -> col (set_cols sets r) c = col r c.
Proof.
  unfold set_cols. revert r. induction sets as [|[k v] sets IH]; intros r Hc; [done|].
  cbn [fold_left fst snd]. rewrite IH by (intros H; apply Hc; by right).
  apply col_set_col_other. apply String.eqb_neq. intros ->. apply Hc. by left.
Qed.

Lemma sql_eq_id (r : Row) (id : string) :
  sql_eq (col r "id") (VText id) = true <-> col r "id" = VText id.
Proof.
  destruct (col r "id") as [| | |s]; simpl; try (split; discriminate).
  rewrite String.eqb_eq. split; [by intros ->|by intros [=]].
Qed.

Ltac col_of_sets :=
  unfold set_cols; cbn [fold_left fst snd];
  repeat (rewrite col_set_col_other by reflexivity);
  try rewrite col_set_col; try reflexivity.

Lemma Forall2_in_r {A B : Type} (P : A -> B -> Prop) (l : list A) (k : list B) (y : B) :
  Forall2 P l k -> In y k -> exists x, In x l /\ P x y.
Proof.
  induction 1 as [|x y' l k Hxy HF IH]; intros Hin; [done|].
  destruct Hin as [->|Hin].
  - exists x. split; [by left|done].
  - destruct (IH Hin) as (x' & Hx' & HP). exists x'. split; [by right|done].
Qed.

(** **** One category snapshot *)

Lemma category_flagged_mono (l l' : list Snapshot) (lo hi lo' hi' : nat) (r r' : Row) :
  (forall s, In s l -> In s l') -> (lo' <= lo)%nat -> (hi <= hi')%nat ->
  category_flagged env l lo hi r r' -> category_flagged env l' lo' hi' r r'.
Proof.
  intros Hl Hlo Hhi [->|(s & n & Hs & Hn & H)]; [by left|].
  right. exists s, n. split; [by apply Hl|]. split; [lia|done].
Qed.

Lemma category_flagged_trans (l : list Snapshot) (a b c : nat) (r r' r'' : Row) :
  (a <= b)%nat -> (b <= c)%nat ->
  category_flagged env l a b r r' -> category_flagged env l b c r' r'' ->
  category_flagged env l a c r r''.
Proof.
  intros Hab Hbc H1 H2.
  destruct H2 as [->|(s2 & n2 & Hs2 & Hn2 & Hid2 & Hf2 & Hu2 & Ht2 & Ho2)].
  { by apply (category_flagged_mono l l a b). }
  destruct H1 as [->|(s1 & n1 & Hs1 & Hn1 & Hid1 & Hf1 & Hu1 & Ht1 & Ho1)].
  { right. exists s2, n2. split; [done|]. split; [lia|done]. }
  right. exists s2, n2. split; [done|]. split; [lia|].
  split; [by rewrite <- Ho1|]. repeat (split; [done|]).
  intros k H3 H4 H5. by rewrite Ho2, Ho1.
Qed.

Lemma category_flagged_keeps (l : list Snapshot) (a b : nat) (r r' : Row) :
  category_flagged env l a b r r' ->
  col r' "id" = col r "id" /\
  (col r "is_synced" = VInt 1 -> col r' "is_synced" = VInt 1).
Proof.
  intros [->|(s & n & _ & _ & _ & Hf & _ & _ & Ho)]; [done|].
  split; [by apply Ho|done].
Qed.

Lemma apply_category_snapshot_flags (s : Snapshot) (w : World) :
  exists w',
    apply_category_snapshot env s w = (Return tt, w') /\
    (ticks w <= ticks w')%nat /\
    Forall2 (category_flagged env [s] (ticks w) (ticks w')) (categories w) (categories w') /\
    (forall r', In r' (categories w') -> col r' "id" = VText (s_id s) ->
       col r' "is_synced" = VInt 1).
Proof.
  eexists. split; [reflexivity|]. cbn [ticks tick set_categories categories].
  split; [lia|]. split.
  - unfold update_where_id. induction (categories w) as [|r t IH]; constructor; [|done].
    destruct (sql_eq (col r "id") (VText (s_id s))) eqn:E; [|by left].
    right. exists s, (ticks w). apply sql_eq_id in E.
    split; [by left|]. split; [lia|]. split; [done|].
    split; [by col_of_sets|]. split; [by col_of_sets|]. split; [by col_of_sets|].
    intros c H1 H2 H3. apply col_set_cols_other. cbn. intros [?|[?|[?|[]]]]; congruence.
  - intros r' Hin Hid. unfold update_where_id in Hin.
    apply in_map_iff in Hin as (r & <- & Hr).
    destruct (sql_eq (col r "id") (VText (s_id s))) eqn:E; [by col_of_sets|].
    apply sql_eq_id in Hid. congruence.
Qed.

(** **** One item snapshot *)

Lemma item_flagged_mono (l l' : list Snapshot) (lo hi lo' hi' : nat) (r r' : Row) :
  (forall s, In s l -> In s l') -> (lo' <= lo)%nat -> (hi <= hi')%nat ->
  item_flagged env l lo hi r r' -> item_flagged env l' lo' hi' r r'.
Proof.
  intros Hl Hlo Hhi [->|(s & n & Hs & Hn & Hid & Hf & Hu & Hi & Ht & Hp & Ho)]; [by left|].
  right. exists s, n. split; [by apply Hl|]. split; [lia|].
  repeat (split; [done|]). split; [|done].
  destruct Hp as [Hp|[(s' & Hs' & H') Hp]]; [by left|].
  right. split; [|done]. exists s'. split; [by apply Hl|done].
Qed.

Lemma item_flagged_trans (l : list Snapshot) (a b c : nat) (r r' r'' : Row) :
  (a <= b)%nat -> (b <= c)%nat ->
  item_flagged env l a b r r' -> item_flagged env l b c r' r'' ->
  item_flagged env l a c r r''.
Proof.
  intros Hab Hbc H1 H2.
  destruct H2 as [->|(s2 & n2 & Hs2 & Hn2 & Hid2 & Hf2 & Hu2 & Hi2 & Ht2 & Hp2 & Ho2)].
  { by apply (item_flagged_mono l l a b). }
  destruct H1 as [->|(s1 & n1 & Hs1 & Hn1 & Hid1 & Hf1 & Hu1 & Hi1 & Ht1 & Hp1 & Ho1)].
  { right. exists s2, n2. split; [done|]. split; [lia|done]. }
  assert (col r' "id" = col r "id") as Hid by (by apply Ho1).
  assert (s_id s1 = s_id s2) as Hsame by congruence.
  right. exists s2, n2. split; [done|]. split; [lia|].
  split; [congruence|]. repeat (split; [done|]).
  split.
  - destruct Hp2 as [Hp2|Hp2]; [|by right].
    rewrite Hp2. destruct Hp1 as [Hp1|[(s' & Hs' & Hs'id & Hurl) Hp1]]; [by left|].
    right. split; [|by rewrite Hp1, Hsame].
    exists s'. split; [done|]. split; [congruence|done].
  - intros k H3 H4 H5 H6 H7. by rewrite Ho2, Ho1.
Qed.

Lemma item_flagged_keeps (l : list Snapshot) (a b : nat) (r r' : Row) :
  item_flagged env l a b r r' ->
  col r' "id" = col r "id" /\
  (col r "is_synced" = VInt 1 -> col r' "is_synced" = VInt 1).
Proof.
  intros [->|(s & n & _ & _ & _ & Hf & _ & _ & _ & _ & Ho)]; [done|].
  split; [by apply Ho|done].
Qed.

(** [cacheItemImage], case by case: the image is cached and the rows of the
    item get its place, or the download fails and no row changes. *)
Lemma cacheItemImage_run (id url : string) (w : World) :
  exists (cached : bool) w',
    cacheItemImage env id url w =
      (if cached then Some (item_image_path env id) else None, w') /\
    items w' =
      (if cached
       then update_where_id (VText id)
              [("local_image_path", VText (item_image_path env id))]%string (items w)
       else items w) /\
    (ticks w <= ticks w' <= S (ticks w))%nat.
Proof.
  unfold cacheItemImage, downloadImage.
  destruct (RNFS_downloadFile env url _ (files w)) as [[code|] files'].
  - destruct (code =? 200).
    + exists true. eexists. split; [reflexivity|].
      unfold save_cache_entry, read_clock.
      destruct (0 <? Z.of_nat (length (List.filter (cache_entry_of "item" id)
                  (image_cache (tick (set_files (fun _ => files') w))))));
        cbn; split; try done; lia.
    + exists false. eexists. split; [reflexivity|]. cbn. split; [done|lia].
  - exists false. eexists. split; [reflexivity|]. cbn. split; [done|lia].
Qed.

Lemma apply_item_snapshot_flags (s : Snapshot) (w : World) :
  exists w',
    apply_item_snapshot env s w = (Return tt, w') /\
    (ticks w <= ticks w')%nat /\
    Forall2 (item_flagged env [s] (ticks w) (ticks w')) (items w) (items w') /\
    (forall r', In r' (items w') -> col r' "id" = VText (s_id s) ->
       col r' "is_synced" = VInt 1).
Proof.
  set (sets := [("is_synced", VInt 1); ("server_updated_at", s_last_updated s);
                ("image_url", sql_of (s_image_url s));
                ("updated_at", VText (date_iso env (ticks w)))]%string).
  set (w1 := set_items (update_where_id (VText (s_id s)) sets) (tick w)).
  assert (exists (cached : bool) w',
            apply_item_snapshot env s w = (Return tt, w') /\
            (S (ticks w) <= ticks w' <= S (S (ticks w)))%nat /\
            (cached = true -> or_null (s_image_url s) <> None) /\
            items w' =
              (if cached
               then update_where_id (VText (s_id s))
                      [("local_image_path", VText (item_image_path env (s_id s)))]%string
                      (items w1)
               else items w1)) as (cached & w' & Hrun & Hticks & Hurl & Hitems).
  { unfold apply_item_snapshot.
    assert (new_Date_toISOString env w = (Return (date_iso env (ticks w)), tick w)) as H0
      by done.
    rewrite (bind_Return _ _ _ _ _ H0).
    assert (modify (set_items (update_where_id (VText (s_id s)) sets)) (tick w)
            = (Return tt, w1)) as H1 by done.
    rewrite (bind_Return _ _ _ _ _ H1).
    destruct (or_null (s_image_url s)) as [url|] eqn:Eurl.
    - destruct (cacheItemImage_run (s_id s) url w1) as (cached & w2 & H2 & Hi2 & Ht2).
      exists cached, w2. split.
      { unfold try_catch, bind, attempt. rewrite H2. by destruct cached. }
      split; [cbn [w1 ticks set_items tick] in Ht2; cbn [ticks] in Ht2; lia|].
      split; [done|exact Hi2].
    - exists false, w1. split; [done|]. split; [cbn; lia|]. split; [done|done]. }
  exists w'. split; [exact Hrun|]. split; [lia|].
  assert (items w1 = update_where_id (VText (s_id s)) sets (items w)) as Hw1 by done.
  rewrite Hitems, Hw1. clear Hrun Hitems Hw1.
  split.
  - unfold update_where_id.
    induction (items w) as [|r t IH].
    { destruct cached; constructor. }
    assert (forall c : string,
              c <> "is_synced"%string -> c <> "server_updated_at"%string ->
              c <> "image_url"%string -> c <> "updated_at"%string ->
              col (set_cols sets r) c = col r c) as Hothers.
    { intros c H1 H2 H3 H4. apply col_set_cols_other. unfold sets. cbn.
      intros [?|[?|[?|[?|[]]]]]; congruence. }
    assert (Forall2 (item_flagged env [s] (ticks w) (ticks w'))
              (r :: t)
              ((if sql_eq (col r "id") (VText (s_id s)) then
                  (if cached
                   then set_cols [("local_image_path",
                                   VText (item_image_path env (s_id s)))]%string
                          (set_cols sets r)
                   else set_cols sets r)
                else r)
               :: (if cached
                   then map (fun r0 =>
                          if sql_eq (col r0 "id") (VText (s_id s))
                          then set_cols [("local_image_path",
                                          VText (item_image_path env (s_id s)))]%string r0
                          else r0)
                        (map (fun r0 =>
                           if sql_eq (col r0 "id") (VText (s_id s))
                           then set_cols sets r0 else r0) t)
                   else map (fun r0 =>
                          if sql_eq (col r0 "id") (VText (s_id s))
                          then set_cols sets r0 else r0) t))) as Hgoal.
    { constructor; [|by destruct cached].
      destruct (sql_eq (col r "id") (VText (s_id s))) eqn:E; [|by left].
      apply sql_eq_id in E. right. exists s, (ticks w).
      split; [by left|]. split; [lia|]. split; [done|].
      destruct cached.
      - split; [by (unfold sets; col_of_sets)|]. split; [by (unfold sets; col_of_sets)|]. split; [by (unfold sets; col_of_sets)|].
        split; [by (unfold sets; col_of_sets)|].
        split.
        { right. split; [|by (unfold sets; col_of_sets)]. exists s.
          split; [by left|]. split; [done|by apply Hurl]. }
        intros c H1 H2 H3 H4 H5.
        rewrite col_set_cols_other by (cbn; intros [?|[]]; congruence).
        by apply Hothers.
      - split; [by (unfold sets; col_of_sets)|]. split; [by (unfold sets; col_of_sets)|]. split; [by (unfold sets; col_of_sets)|].
        split; [by (unfold sets; col_of_sets)|].
        split; [left; by apply Hothers|].
        intros c H1 H2 H3 H4 H5. by apply Hothers. }
    destruct cached; cbn [map] in *.
    + destruct (sql_eq (col r "id") (VText (s_id s))) eqn:E; [|by rewrite E].
      assert (sql_eq (col (set_cols sets r) "id") (VText (s_id s)) = true) as ->; [|done].
      rewrite Hothers by done. exact E.
    + exact Hgoal.
  - intros r' Hin Hid.
    assert (forall r0, In r0 (update_where_id (VText (s_id s)) sets (items w)) ->
              col r0 "id" = VText (s_id s) -> col r0 "is_synced" = VInt 1) as Hfirst.
    { intros r0 Hr0 Hid0. unfold update_where_id in Hr0.
      apply in_map_iff in Hr0 as (r & <- & Hr).
      destruct (sql_eq (col r "id") (VText (s_id s))) eqn:E; [by (unfold sets; col_of_sets)|].
      apply sql_eq_id in Hid0. congruence. }
    destruct cached; [|by apply Hfirst].
    unfold update_where_id at 1 in Hin. apply in_map_iff in Hin as (r0 & <- & Hr0).
    destruct (sql_eq (col r0 "id") (VText (s_id s))) eqn:E.
    + apply sql_eq_id in E. rewrite col_set_cols_other by (cbn; intros [?|[]]; congruence).
      by apply Hfirst.
    + by apply Hfirst.
Qed.

(** **** The loop over the echoed snapshots *)

Section EchoLoop.

Variables (table : World -> Table) (body : Snapshot -> M unit)
  (F : list Snapshot -> nat -> nat -> Row -> Row -> Prop).

Hypothesis F_refl : forall l a b r, F l a b r r.
Hypothesis F_mono : forall l l' a b a' b' r r',
  (forall s, In s l -> In s l') -> (a' <= a)%nat -> (b <= b')%nat ->
  F l a b r r' -> F l' a' b' r r'.
Hypothesis F_trans : forall l a b c r r' r'',
  (a <= b)%nat -> (b <= c)%nat -> F l a b r r' -> F l b c r' r'' -> F l a c r r''.
Hypothesis F_keeps : forall l a b r r',
  F l a b r r' ->
  col r' "id" = col r "id" /\
  (col r "is_synced" = VInt 1 -> col r' "is_synced" = VInt 1).
Hypothesis body_flags : forall s w, exists w',
  body s w = (Return tt, w') /\
  (ticks w <= ticks w')%nat /\
  Forall2 (F [s] (ticks w) (ticks w')) (table w) (table w') /\
  (forall r', In r' (table w') -> col r' "id" = VText (s_id s) ->
     col r' "is_synced" = VInt 1).

Lemma echo_loop_flags (l : list (option Snapshot)) (w : World) :
  exists o w',
    for_each l (fun x => let* x := property_of x in body x) w = (o, w') /\
    (ticks w <= ticks w')%nat /\
    Forall2 (F (before_null l) (ticks w) (ticks w')) (table w) (table w') /\
    (forall s r', In s (before_null l) -> In r' (table w') ->
       col r' "id" = VText (s_id s) -> col r' "is_synced" = VInt 1).
Proof.
  revert w. induction l as [|[s|] l IH]; intros w.
  - exists (Return tt), w. split; [done|]. split; [lia|].
    split; [|done]. apply Forall_Forall2_diag, Forall_forall. intros; apply F_refl.
  - destruct (body_flags s w) as (w1 & H1 & Ht1 & HF1 & Hs1).
    destruct (IH w1) as (o & w2 & H2 & Ht2 & HF2 & Hs2).
    exists o, w2. split.
    { assert ((let* y := property_of (Some s) in body y) w = (Return tt, w1)) as H
        by exact H1.
      cbn [for_each]. by rewrite (bind_Return _ _ _ _ _ H). }
    split; [lia|]. cbn [before_null]. split.
    + apply (Forall2_trans (F (s :: before_null l) (ticks w) (ticks w1))
                           (F (s :: before_null l) (ticks w1) (ticks w2))
                           _ _ (table w1)).
      * intros x y z. by apply F_trans.
      * eapply Forall2_impl; [exact HF1|]. intros x y.
        apply F_mono; [|lia|lia]. intros s0 [<-|[]]. by left.
      * eapply Forall2_impl; [exact HF2|]. intros x y.
        apply F_mono; [|lia|lia]. intros s0 Hs0. by right.
    + intros s0 r'' [<-|Hs0] Hin Hid; [|by apply (Hs2 s0)].
      destruct (Forall2_in_r _ _ _ _ HF2 Hin) as (r1 & Hr1 & HF).
      destruct (F_keeps _ _ _ _ _ HF) as [Hid1 Hsynced].
      apply Hsynced, Hs1; [done|congruence].
  - exists (Throw TypeError), w. split; [done|]. split; [lia|].
    split; [|done]. apply Forall_Forall2_diag, Forall_forall. intros; apply F_refl.
Qed.

End EchoLoop.

Lemma markOperationSynced_keeps {X : Type} (f : World -> X) (i : Z) :
  (forall w, f (tick w) = f w) -> (forall g w, f (set_sync_queue g w) = f w) ->
  keeps f (markOperationSynced env i).
Proof.
  intros Ht Hq. unfold markOperationSynced.
  apply keeps_bind; [by apply keeps_new_Date|]. intros now.
  apply keeps_try_catch; [|intros; apply keeps_ret].
  apply keeps_modify. intros w. apply Hq.
Qed.

Lemma for_each_mark_ticks (ops : list QueueRow) (w w' : World) (o : Outcome unit) :
  for_each ops (fun op => markOperationSynced env (q_id op)) w = (o, w') ->
  (ticks w <= ticks w')%nat.
Proof.
  revert w. induction ops as [|op ops IH]; intros w H; simpl in H.
  - inversion H. lia.
  - unfold bind at 1 in H. rewrite markOperationSynced_run in H.
    apply IH in H. cbn in H. lia.
Qed.

(** The runs of a queue drain: it leaves the device as it was but for the
    request it may have sent; or it got a body, marked the batch, and ran the
    echo. *)
Lemma queue_drain_steps (e : EntityType) (req : list SyncPayload -> Request)
    (api : list SyncPayload -> ApiResult (option SyncResponse))
    (echo : SyncResponse -> M unit) (w : World) :
  exists r w',
    queue_drain env e req api echo w = (Return r, w') /\
    ((applied_snapshots env e api w = [] /\
      (w' = w \/ exists batch, w' = add_request (req batch) w)) \/
     exists batch response w1 o,
       pending_operations e w <> [] /\
       build_payload env (pending_operations e w) = Some batch /\
       api batch = Resolved (Some response) /\
       for_each (pending_operations e w) (fun op => markOperationSynced env (q_id op))
         (add_request (req batch) w) = (Return tt, w1) /\
       echo response w1 = (o, w')).
Proof.
  unfold applied_snapshots.
  destruct (pending_operations e w) as [|op0 ops0] eqn:Hp.
  { eexists _, w. split; [by apply queue_drain_idle|]. left. split; [done|by left]. }
  assert (pending_operations e w <> []) as Hne by (by rewrite Hp).
  rewrite <- Hp.
  destruct (build_payload env (pending_operations e w)) as [batch|] eqn:Hb.
  2:{ eexists _, w. split; [by apply queue_drain_unparsable|].
      left. split; [done|by left]. }
  destruct (api batch) as [[response|]|status] eqn:Hapi.
  - destruct (for_each_mark_run env (pending_operations e w) (add_request (req batch) w))
      as (w1 & Hrun & _).
    destruct (echo response w1) as [o w2] eqn:Hecho.
    exists (match o with
            | Return _ => {| success := true;
                             synced := Z.of_nat (length (pending_operations e w)) |}
            | Throw _ => {| success := false; synced := 0 |}
            end), w2.
    split.
    + unfold queue_drain, try_catch, bind at 1, get.
      destruct (Z.of_nat (length (pending_operations e w)) =? 0) eqn:E.
      { by apply length_zero_nil in E. }
      unfold bind at 1. rewrite map_m_sync_payload_run, Hb.
      unfold bind at 1, await. rewrite Hapi.
      unfold bind at 1, property_of, ret.
      rewrite (bind_Return _ _ _ _ _ Hrun).
      unfold bind at 1. rewrite Hecho. destruct o as [[]|err]; reflexivity.
    + right. by exists batch, response, w1, o.
  - eexists _, _. split; [by apply queue_drain_null_body|].
    left. split; [done|]. right. by exists batch.
  - eexists _, _. split; [by apply queue_drain_rejected with (status := status)|].
    left. split; [done|]. right. by exists batch.
Qed.

(** X12. What the two queue drains do to the local tables, in every run
    (batch accepted, rejected, unparsable or empty, answer well formed or
    not).  The category drain never adds, removes or reorders a local
    category and never changes a category's id.  It changes a category only
    if a snapshot that it applies (one that the endpoint echoed for this
    batch, before any null element) carries the id of the category; the row
    is then flagged as synced, takes the [updated_at] of such a snapshot as
    [server_updated_at] and a clock reading of the run as [updated_at], and
    keeps every other column.  Every category whose id such a snapshot
    carries is flagged.  The drain leaves items, bills, inventory items, the
    image cache and the files alone.  The item drain does the same to the
    items, where the snapshot also gives [image_url], and
    [local_image_path] becomes the place of the cached image or stays; it
    leaves categories, bills and inventory items alone. *)
Theorem drains_only_flag_echoed_rows (w : World) :
  (exists r w',
     syncCategories env w = (Return r, w') /\
     Forall2 (category_flagged env
                (applied_snapshots env Category (api_categories_sync env) w)
                (ticks w) (ticks w'))
             (categories w) (categories w') /\
     (forall s r', In s (applied_snapshots env Category (api_categories_sync env) w) ->
        In r' (categories w') -> col r' "id" = VText (s_id s) ->
        col r' "is_synced" = VInt 1) /\
     length (categories w') = length (categories w) /\
     map (fun r => col r "id") (categories w') = map (fun r => col r "id") (categories w) /\
     items w' = items w /\ bills w' = bills w /\
     inventory_items w' = inventory_items w /\
     image_cache w' = image_cache w /\ files w' = files w) /\
  (exists r w',
     syncItems env w = (Return r, w') /\
     Forall2 (item_flagged env
                (applied_snapshots env Item (api_items_sync env) w)
                (ticks w) (ticks w'))
             (items w) (items w') /\
     (forall s r', In s (applied_snapshots env Item (api_items_sync env) w) ->
        In r' (items w') -> col r' "id" = VText (s_id s) ->
        col r' "is_synced" = VInt 1) /\
     length (items w') = length (items w) /\
     map (fun r => col r "id") (items w') = map (fun r => col r "id") (items w) /\
     categories w' = categories w /\ bills w' = bills w /\
     inventory_items w' = inventory_items w).
Proof.
  assert (forall (F : Row -> Row -> Prop) t t',
            (forall r r', F r r' -> col r' "id" = col r "id") ->
            Forall2 F t t' ->
            length t' = length t /\
            map (fun r => col r "id") t' = map (fun r => col r "id") t) as Hshape.
  { intros F t t' Hid. induction 1 as [|r r' t t' Hr HF [IH1 IH2]]; [done|]. simpl.
    split; [by rewrite IH1|]. by rewrite IH2, (Hid _ _ Hr). }
  split.
  - rewrite syncCategories_shape.
    destruct (queue_drain_steps Category PostCategoriesSync (api_categories_sync env)
                (echo_categories env) w) as (r & w' & Hrun & Hcases).
    exists r, w'. split; [exact Hrun|].
    assert (Forall2 (category_flagged env
                       (applied_snapshots env Category (api_categories_sync env) w)
                       (ticks w) (ticks w'))
                    (categories w) (categories w') /\
            (forall s r', In s (applied_snapshots env Category (api_categories_sync env) w) ->
               In r' (categories w') -> col r' "id" = VText (s_id s) ->
               col r' "is_synced" = VInt 1) /\
            items w' = items w /\ bills w' = bills w /\
            inventory_items w' = inventory_items w /\
            image_cache w' = image_cache w /\ files w' = files w)
      as (HF & Hpos & Hrest).
    { destruct Hcases as [[Hnone Hw']|(batch & response & w1 & o & Hne & Hb & Hapi & Hmark & Hecho)].
      - rewrite Hnone.
        assert (categories w' = categories w /\ items w' = items w /\ bills w' = bills w /\
                inventory_items w' = inventory_items w /\
                image_cache w' = image_cache w /\ files w' = files w) as (-> & Hrest)
          by (destruct Hw' as [->|[batch ->]]; done).
        split; [|split; [intros s r' []|exact Hrest]].
        apply Forall_Forall2_diag, Forall_forall. intros; by left.
      - assert (applied_snapshots env Category (api_categories_sync env) w =
                match r_categories response with
                | Some l => before_null l
                | None => []
                end) as ->.
        { unfold applied_snapshots. rewrite Hb, Hapi.
          by destruct (pending_operations Category w). }
        pose proof (for_each_mark_ticks _ _ _ _ Hmark) as Ht1. cbn [ticks add_request] in Ht1.
        assert (forall {X : Type} (f : World -> X),
                  (forall w0, f (tick w0) = f w0) ->
                  (forall g w0, f (set_sync_queue g w0) = f w0) ->
                  (forall q w0, f (add_request q w0) = f w0) ->
                  f w1 = f w) as Hw1.
        { intros X f Hft Hfq Hfr.
          rewrite (keeps_for_each f _ _
                     (fun op => markOperationSynced_keeps f (q_id op) Hft Hfq) _ _ _ Hmark).
          apply Hfr. }
        rewrite <- (Hw1 _ categories), <- (Hw1 _ items), <- (Hw1 _ bills),
          <- (Hw1 _ inventory_items), <- (Hw1 _ image_cache), <- (Hw1 _ files) by done.
        rewrite (echo_categories_keeps env items response ltac:(done) ltac:(done) _ _ _ Hecho),
          (echo_categories_keeps env bills response ltac:(done) ltac:(done) _ _ _ Hecho),
          (echo_categories_keeps env inventory_items response ltac:(done) ltac:(done)
             _ _ _ Hecho),
          (echo_categories_keeps env image_cache response ltac:(done) ltac:(done)
             _ _ _ Hecho),
          (echo_categories_keeps env files response ltac:(done) ltac:(done) _ _ _ Hecho).
        split; [|split; [|done]].
        + unfold echo_categories in Hecho.
          destruct (r_categories response) as [l|].
          * destruct (echo_loop_flags categories (apply_category_snapshot env)
                        (category_flagged env)
                        ltac:(intros; by left) category_flagged_mono
                        category_flagged_trans category_flagged_keeps
                        apply_category_snapshot_flags l w1)
              as (o' & w2 & Hloop & Ht2 & HF2 & _).
            rewrite Hecho in Hloop. inversion Hloop; subst o' w2.
            eapply Forall2_impl; [exact HF2|]. intros x y.
            apply category_flagged_mono; [done|lia|lia].
          * inversion Hecho; subst. apply Forall_Forall2_diag, Forall_forall.
            intros; by left.
        + unfold echo_categories in Hecho.
          destruct (r_categories response) as [l|]; [|intros s r' []].
          destruct (echo_loop_flags categories (apply_category_snapshot env)
                      (category_flagged env)
                      ltac:(intros; by left) category_flagged_mono
                      category_flagged_trans category_flagged_keeps
                      apply_category_snapshot_flags l w1)
            as (o' & w2 & Hloop & _ & _ & Hpos).
          rewrite Hecho in Hloop. inversion Hloop; subst o' w2. exact Hpos. }
    split; [exact HF|]. split; [exact Hpos|].
    destruct (Hshape _ _ _
                (fun r r' H => proj1 (category_flagged_keeps _ _ _ _ _ H)) HF) as [Hl Hids].
    split; [exact Hl|]. split; [exact Hids|exact Hrest].
  - rewrite syncItems_shape.
    destruct (queue_drain_steps Item PostItemsSync (api_items_sync env)
                (echo_items env) w) as (r & w' & Hrun & Hcases).
    exists r, w'. split; [exact Hrun|].
    assert (Forall2 (item_flagged env
                       (applied_snapshots env Item (api_items_sync env) w)
                       (ticks w) (ticks w'))
                    (items w) (items w') /\
            (forall s r', In s (applied_snapshots env Item (api_items_sync env) w) ->
               In r' (items w') -> col r' "id" = VText (s_id s) ->
               col r' "is_synced" = VInt 1) /\
            categories w' = categories w /\ bills w' = bills w /\
            inventory_items w' = inventory_items w)
      as (HF & Hpos & Hrest).
    { destruct Hcases as [[Hnone Hw']|(batch & response & w1 & o & Hne & Hb & Hapi & Hmark & Hecho)].
      - rewrite Hnone.
        assert (items w' = items w /\ categories w' = categories w /\ bills w' = bills w /\
                inventory_items w' = inventory_items w) as (-> & Hrest)
          by (destruct Hw' as [->|[batch ->]]; done).
        split; [|split; [intros s r' []|exact Hrest]].
        apply Forall_Forall2_diag, Forall_forall. intros; by left.
      - assert (applied_snapshots env Item (api_items_sync env) w =
                match r_items response with
                | Some l => before_null l
                | None => []
                end) as ->.
        { unfold applied_snapshots. rewrite Hb, Hapi.
          by destruct (pending_operations Item w). }
        pose proof (for_each_mark_ticks _ _ _ _ Hmark) as Ht1. cbn [ticks add_request] in Ht1.
        assert (forall {X : Type} (f : World -> X),
                  (forall w0, f (tick w0) = f w0) ->
                  (forall g w0, f (set_sync_queue g w0) = f w0) ->
                  (forall q w0, f (add_request q w0) = f w0) ->
                  f w1 = f w) as Hw1.
        { intros X f Hft Hfq Hfr.
          rewrite (keeps_for_each f _ _
                     (fun op => markOperationSynced_keeps f (q_id op) Hft Hfq) _ _ _ Hmark).
          apply Hfr. }
        rewrite <- (Hw1 _ categories), <- (Hw1 _ items), <- (Hw1 _ bills),
          <- (Hw1 _ inventory_items) by done.
        rewrite (echo_items_keeps env categories response ltac:(done) ltac:(done)
                   ltac:(done) ltac:(done) _ _ _ Hecho),
          (echo_items_keeps env bills response ltac:(done) ltac:(done)
             ltac:(done) ltac:(done) _ _ _ Hecho),
          (echo_items_keeps env inventory_items response ltac:(done) ltac:(done)
             ltac:(done) ltac:(done) _ _ _ Hecho).
        split; [|split; [|done]].
        + unfold echo_items in Hecho.
          destruct (r_items response) as [l|].
          * destruct (echo_loop_flags items (apply_item_snapshot env)
                        (item_flagged env)
                        ltac:(intros; by left) item_flagged_mono
                        item_flagged_trans item_flagged_keeps
                        apply_item_snapshot_flags l w1)
              as (o' & w2 & Hloop & Ht2 & HF2 & _).
            rewrite Hecho in Hloop. inversion Hloop; subst o' w2.
            eapply Forall2_impl; [exact HF2|]. intros x y.
            apply item_flagged_mono; [done|lia|lia].
          * inversion Hecho; subst. apply Forall_Forall2_diag, Forall_forall.
            intros; by left.
        + unfold echo_items in Hecho.
          destruct (r_items response) as [l|]; [|intros s r' []].
          destruct (echo_loop_flags items (apply_item_snapshot env)
                      (item_flagged env)
                      ltac:(intros; by left) item_flagged_mono
                      item_flagged_trans item_flagged_keeps
                      apply_item_snapshot_flags l w1)
            as (o' & w2 & Hloop & _ & _ & Hpos).
          rewrite Hecho in Hloop. inversion Hloop; subst o' w2. exact Hpos. }
    split; [exact HF|]. split; [exact Hpos|].
    destruct (Hshape _ _ _
                (fun r r' H => proj1 (item_flagged_keeps _ _ _ _ _ H)) HF) as [Hl Hids].
    split; [exact Hl|]. split; [exact Hids|exact Hrest].
Qed.

End ServiceCoverage.

(** ** Further properties of the network listener *)

Module NetworkHistoryFacts.
Import NetworkMonitor NetworkHistory.

Lemma accounted_more (past more : list Z) (s s' : State) :
  accounted past s ->
  sync_calls s' = sync_calls s -> scheduled s' = scheduled s ->
  accounted (past ++ more) s'.
Proof.
  intros (Hn & Hc & Hs) Hcalls Hsch. unfold accounted. rewrite Hcalls, Hsch.
  split; [rewrite length_app; lia|].
  split; (eapply Forall_impl; [eassumption|]); intros x (t & Hin & Hx);
    exists t; (split; [apply in_or_app; by left|done]).
Qed.

Lemma accounted_step (past : list Z) (s : State) (e : Event) :
  accounted past s ->
  accounted (past ++ restorations (isOnline s) [e]) (step s e).
Proof.
  intros Hacc. destruct e as [now isConnected|now|]; cbn [step restorations].
  - rewrite app_nil_r. unfold listener.
    set (c := match isConnected with Some b => b | None => false end).
    destruct s as [on ts to sch nh aw calls]. cbn [isOnline set_isOnline].
    destruct on, c; cbn [negb andb isOnline set_offlineTimestamp];
      try (by apply (accounted_more past _ _ _ Hacc)).
    match goal with |- context [OFFLINE_THRESHOLD <? ?d] =>
      destruct (OFFLINE_THRESHOLD <? d) end;
      [|by apply (accounted_more past _ _ _ Hacc)].
    destruct Hacc as (Hn & Hc & Hs). cbn [sync_calls scheduled] in *.
    assert (forall sch',
              (length sch' <= length sch)%nat ->
              (forall tm, In tm sch' -> In tm sch) ->
              accounted (past ++ [now])
                (setTimeout_sync now STABILIZATION_DELAY
                   {| isOnline := true; offlineTimestamp := ts; syncTimeout := to;
                      scheduled := sch'; next_handle := nh; awaiting := aw;
                      sync_calls := calls |})) as Hset.
    { intros sch' Hlen Hsub. unfold setTimeout_sync, accounted.
      cbn [sync_calls scheduled next_handle].
      rewrite !length_app. cbn [length]. split; [lia|]. split.
      - eapply Forall_impl; [exact Hc|]. intros x (t & Hin & Hx).
        exists t. split; [apply in_or_app; by left|done].
      - apply Forall_app. split.
        + apply Forall_forall. intros tm Htm. apply list_elem_of_In, Hsub in Htm.
          rewrite Forall_forall in Hs.
          destruct (Hs tm) as (t & Hin & Hx); [by apply list_elem_of_In|].
          exists t. split; [apply in_or_app; by left|done].
        + constructor; [|done]. exists now.
          split; [apply in_or_app; right; by left|done]. }
    destruct to as [h|]; cbn [syncTimeout clearTimeout].
    + apply Hset.
      * cbn [scheduled]. apply List.filter_length_le.
      * intros tm Htm. cbn [scheduled] in Htm. by apply filter_In in Htm as [Htm _].
    + by apply Hset.
  - rewrite app_nil_r. destruct Hacc as (Hn & Hc & Hs).
    unfold run_timers, accounted. cbn [sync_calls scheduled].
    rewrite length_app, length_map.
    pose proof (List.filter_length (fun t => due t <=? now) (scheduled s)) as Hpart.
    split; [lia|]. split.
    + apply Forall_app. split; [done|].
      apply Forall_forall. intros c Hc'. apply list_elem_of_In in Hc'.
      apply in_map_iff in Hc' as (tm & <- & Htm).
      apply filter_In in Htm as [Htm Hdue]. apply Z.leb_le in Hdue.
      rewrite Forall_forall in Hs.
      destruct (Hs tm) as (t & Hin & Hx); [by apply list_elem_of_In|].
      exists t. split; [done|lia].
    + apply Forall_forall. intros tm Htm. apply list_elem_of_In in Htm.
      apply filter_In in Htm as [Htm _]. rewrite Forall_forall in Hs.
      apply Hs. by apply list_elem_of_In.
  - rewrite app_nil_r. unfold settle.
    destruct (awaiting s) as [|n]; [done|].
    rewrite <- (app_nil_r past). by apply (accounted_more past [] s).
Qed.

Lemma isOnline_step (s : State) (now : Z) (isConnected : option bool) :
  isOnline (listener now isConnected s) =
  match isConnected with Some b => b | None => false end.
Proof.
  unfold listener. destruct s as [on ts to sch nh aw calls]. cbn [isOnline set_isOnline].
  set (c := match isConnected with Some b => b | None => false end).
  destruct on, c; cbn [negb andb isOnline set_offlineTimestamp]; try done.
  match goal with |- context [OFFLINE_THRESHOLD <? ?d] =>
    destruct (OFFLINE_THRESHOLD <? d) end; [|done].
  by destruct to.
Qed.

Lemma accounted_run (events : list Event) (past : list Z) (s : State) :
  accounted past s ->
  accounted (past ++ restorations (isOnline s) events) (run events s).
Proof.
  revert past s. induction events as [|e events IH]; intros past s Hacc.
  - cbn [restorations run fold_left]. by rewrite app_nil_r.
  - change (run (e :: events) s) with (run events (step s e)).
    pose proof (accounted_step past s e Hacc) as Hstep.
    apply IH in Hstep. 
    destruct e as [now isConnected|now|]; cbn [restorations] in *.
    + rewrite app_nil_r, <- app_assoc in Hstep. cbn [step] in Hstep.
      by rewrite isOnline_step in Hstep.
    + rewrite app_nil_r in Hstep. exact Hstep.
    + rewrite app_nil_r in Hstep. cbn [step] in Hstep.
      replace (isOnline (settle s)) with (isOnline s) in Hstep; [done|].
      unfold settle. by destruct (awaiting s).
Qed.

(** X13. In every history of the listener, from its initial state and
    whatever the instants of the events are: the sync calls made so far and
    the callbacks still scheduled are, together, no more than the
    offline-to-online transitions the listener was told of; every sync call
    was made at least 2000 ms after such a transition; and every scheduled
    callback is due exactly 2000 ms after one.  So no sync is ever started by
    a drop, by a repeated notification, by a timer run or by a settling
    sync. *)
Theorem sync_calls_follow_restorations (events : list Event) :
  let s := run events initial in
  let restored := restorations true events in
  (length (sync_calls s) + length (scheduled s) <= length restored)%nat /\
  Forall (fun c => exists t, In t restored /\ t + STABILIZATION_DELAY <= c)
         (sync_calls s) /\
  Forall (fun tm => exists t, In t restored /\ due tm = t + STABILIZATION_DELAY)
         (scheduled s).
Proof.
  assert (accounted [] initial) as H0 by (by repeat split).
  apply (accounted_run events) in H0. exact H0.
Qed.

End NetworkHistoryFacts.

(** ** Signing in and out, and the image cache *)

Module AuthFacts.
Import Auth.

(** *** UPDATE and DELETE with a condition *)

Lemma update_where_length (p : Row -> bool) (sets : list (string * SqlValue)) (t : Table) :
  length (update_where p sets t) = length t.
Proof. unfold update_where. by rewrite length_map. Qed.

Lemma update_where_selected (p : Row -> bool) (sets : list (string * SqlValue)) (t : Table) :
  (forall r, p (set_cols sets r) = p r) ->
  List.filter p (update_where p sets t) = map (set_cols sets) (List.filter p t).
Proof.
  intros Hp. unfold update_where. induction t as [|r t IH]; [done|]. simpl.
  destruct (p r) eqn:E; simpl.
  - by rewrite Hp, E, IH.
  - by rewrite E, IH.
Qed.

Lemma update_where_others (p q : Row -> bool) (sets : list (string * SqlValue)) (t : Table) :
  (forall r, q (set_cols sets r) = q r) ->
  (forall r, p r = true -> q r = false) ->
  List.filter q (update_where p sets t) = List.filter q t.
Proof.
  intros Hq Hpq. unfold update_where. induction t as [|r t IH]; [done|]. simpl.
  destruct (p r) eqn:E; simpl; [|by rewrite IH].
  rewrite Hq, (Hpq r E). exact IH.
Qed.

Lemma sql_eq_text_inv (v : SqlValue) (s : string) :
  sql_eq v (VText s) = true -> v = VText s.
Proof.
  destruct v as [| | |s']; try discriminate. simpl. intros H.
  apply String.eqb_eq in H. by subst.
Qed.

Ltac col_of_update :=
  unfold set_cols; cbn [fold_left fst snd];
  repeat (rewrite col_set_col_other by reflexivity);
  try rewrite col_set_col; try reflexivity.

Section AuthProperties.

Context (env : Env) (platform : Platform) {engine : SqlEngine}.

(** *** The vendor profile *)

Lemma profile_update_keeps_vendor (vendor : VendorProfile) (path : option string)
    (now id : string) (r : Row) :
  profile_of id (set_cols (profile_update vendor path now) r) = profile_of id r.
Proof. unfold profile_of, profile_update. by col_of_update. Qed.

Lemma profile_insert_is_vendor (vendor : VendorProfile) (path : option string) (now : string) :
  profile_of (v_id vendor) (profile_insert vendor path now) = true.
Proof. unfold profile_of, profile_insert. simpl. apply String.eqb_refl. Qed.

(** What [saveVendorProfile] does to its table, and what it leaves alone. *)
Lemma saveVendorProfile_run (vendor : VendorProfile) (d : Device) :
  let d' := saveVendorProfile env vendor d in
  let now := date_iso env (ticks (world d)) in
  (exists path,
     vendor_profile d' =
       if 0 <? Z.of_nat (length (List.filter (profile_of (v_id vendor)) (vendor_profile d)))
       then update_where (profile_of (v_id vendor)) (profile_update vendor path now)
                         (vendor_profile d)
       else vendor_profile d ++ [profile_insert vendor path now]) /\
  auth_token d' = auth_token d /\ auth d' = auth d /\ sent d' = sent d /\
  user_data (world d') = user_data (world d) /\
  sync_queue (world d') = sync_queue (world d) /\
  bills (world d') = bills (world d) /\
  sync_history (world d') = sync_history (world d).
Proof.
  unfold saveVendorProfile, now_iso. cbn [vendor_profile set_world].
  destruct (or_null (v_logo_url vendor)) as [url|].
  - unfold on_world. cbn [world set_world].
    pose proof (cacheVendorLogo_frame env user_data (v_id vendor) url (tick (world d))
                  ltac:(done) ltac:(done) ltac:(done)) as Hu.
    pose proof (cacheVendorLogo_frame env sync_queue (v_id vendor) url (tick (world d))
                  ltac:(done) ltac:(done) ltac:(done)) as Hq.
    pose proof (cacheVendorLogo_frame env bills (v_id vendor) url (tick (world d))
                  ltac:(done) ltac:(done) ltac:(done)) as Hb.
    pose proof (cacheVendorLogo_frame env sync_history (v_id vendor) url (tick (world d))
                  ltac:(done) ltac:(done) ltac:(done)) as Hh.
    destruct (cacheVendorLogo env (v_id vendor) url (tick (world d))) as [path w1].
    cbn [snd] in Hu, Hq, Hb, Hh.
    destruct (0 <? Z.of_nat (length (List.filter (profile_of (v_id vendor))
                                       (vendor_profile d))));
      (split; [by eexists|]); cbn; by rewrite Hu, Hq, Hb, Hh.
  - destruct (0 <? Z.of_nat (length (List.filter (profile_of (v_id vendor))
                                       (vendor_profile d))));
      (split; [by eexists|done]).
Qed.

(** X14. [saveVendorProfile] keeps one profile per vendor: a vendor with
    profiles keeps as many as it had, a vendor with none gets exactly one;
    the table grows by that one row at most; the profiles of other vendors
    are untouched; the profiles of the vendor carry what was saved; and
    saving the same vendor again adds no row.  This holds whether or not the
    logo could be cached. *)
Theorem saveVendorProfile_never_duplicates (vendor : VendorProfile) (d : Device) :
  let mine := profile_of (v_id vendor) in
  let d' := saveVendorProfile env vendor d in
  let n := length (List.filter mine (vendor_profile d)) in
  length (List.filter mine (vendor_profile d')) = Nat.max n 1 /\
  length (vendor_profile d') =
    (if (n =? 0)%nat then S (length (vendor_profile d)) else length (vendor_profile d)) /\
  List.filter (fun r => negb (mine r)) (vendor_profile d') =
    List.filter (fun r => negb (mine r)) (vendor_profile d) /\
  Forall (fun r => mine r = true ->
            col r "business_name" = sql_of (v_business_name vendor) /\
            col r "is_approved" = VInt (if v_is_approved vendor then 1 else 0) /\
            col r "updated_at" = VText (date_iso env (ticks (world d))))
         (vendor_profile d') /\
  length (vendor_profile (saveVendorProfile env vendor d')) =
    length (vendor_profile d').
Proof.
  assert (forall d0,
    let d' := saveVendorProfile env vendor d0 in
    let n := length (List.filter (profile_of (v_id vendor)) (vendor_profile d0)) in
    length (List.filter (profile_of (v_id vendor)) (vendor_profile d')) = Nat.max n 1 /\
    length (vendor_profile d') =
      (if (n =? 0)%nat then S (length (vendor_profile d0)) else length (vendor_profile d0)) /\
    List.filter (fun r => negb (profile_of (v_id vendor) r)) (vendor_profile d') =
      List.filter (fun r => negb (profile_of (v_id vendor) r)) (vendor_profile d0) /\
    Forall (fun r => profile_of (v_id vendor) r = true ->
              col r "business_name" = sql_of (v_business_name vendor) /\
              col r "is_approved" = VInt (if v_is_approved vendor then 1 else 0) /\
              col r "updated_at" = VText (date_iso env (ticks (world d0))))
           (vendor_profile d')) as Hone.
  { intros d0 d' n.
    destruct (saveVendorProfile_run vendor d0) as ((path & Ht) & _).
    fold d' in Ht. fold n in Ht. rewrite Ht.
    destruct (0 <? Z.of_nat n) eqn:E.
    - apply Z.ltb_lt in E.
      assert ((n =? 0)%nat = false) as -> by (apply Nat.eqb_neq; lia).
      split.
      { rewrite update_where_selected by (intros r; apply profile_update_keeps_vendor).
        rewrite length_map. fold n. lia. }
      split; [apply update_where_length|].
      split.
      { apply update_where_others.
        - intros r. by rewrite profile_update_keeps_vendor.
        - intros r Hr. by rewrite Hr. }
      unfold update_where. apply Forall_forall. intros r Hr Hmine.
      apply list_elem_of_In, in_map_iff in Hr as (r0 & <- & Hr0).
      destruct (profile_of (v_id vendor) r0) eqn:Er0; [|congruence].
      unfold profile_update. repeat split; by col_of_update.
    - apply Z.ltb_ge in E.
      assert (n = 0%nat) as Hn by lia.
      rewrite Hn. cbn [Nat.eqb].
      assert (List.filter (profile_of (v_id vendor)) (vendor_profile d0) = []) as Hnil
        by (by apply length_zero_iff_nil).
      split.
      { rewrite List.filter_app, Hnil. cbn [List.filter].
        by rewrite profile_insert_is_vendor. }
      split; [rewrite length_app; cbn [length]; lia|].
      split.
      { rewrite List.filter_app. cbn [List.filter].
        rewrite profile_insert_is_vendor. cbn [negb]. by rewrite app_nil_r. }
      apply Forall_app. split.
      + apply Forall_forall. intros r Hr Hmine. exfalso.
        apply list_elem_of_In in Hr.
        assert (In r (List.filter (profile_of (v_id vendor)) (vendor_profile d0))) as Hin
          by (by apply filter_In).
        by rewrite Hnil in Hin.
      + constructor; [|done]. intros _. by repeat split. }
  intros mine d' n.
  destruct (Hone d) as (H1 & H2 & H3 & H4).
  repeat (split; [done|]).
  destruct (Hone d') as (_ & H2' & _). rewrite H2'.
  fold d' in H1. unfold mine in H1. rewrite H1.
  destruct (Nat.max _ 1 =? 0)%nat eqn:E; [|done].
  apply Nat.eqb_eq in E. lia.
Qed.

(** X15. A saved profile is the profile read back: when the table holds no
    profile of another vendor (it is empty after [logout]), [getVendorProfile]
    after [saveVendorProfile] returns the vendor that was saved, with an
    empty [username], [email], [fssai_license], [logo_url] or [footer_note]
    read back as null; whichever row the engine puts first. *)
Theorem saved_profile_is_read_back (vendor : VendorProfile) (d : Device) :
  Forall (fun r => profile_of (v_id vendor) r = true) (vendor_profile d) ->
  getVendorProfile (saveVendorProfile env vendor d) =
    Some {| sp_id := VText (v_id vendor);
            sp_username := sql_of (or_null (v_username vendor));
            sp_email := sql_of (or_null (v_email vendor));
            sp_business_name := sql_of (v_business_name vendor);
            sp_address := sql_of (v_address vendor);
            sp_phone := sql_of (v_phone vendor);
            sp_gst_no := sql_of (v_gst_no vendor);
            sp_fssai_license := sql_of (or_null (v_fssai_license vendor));
            sp_logo_url := sql_of (or_null (v_logo_url vendor));
            sp_footer_note := sql_of (or_null (v_footer_note vendor));
            sp_is_approved := v_is_approved vendor |}.
Proof.
  intros Hmine.
  set (d' := saveVendorProfile env vendor d).
  set (expected := {| sp_id := VText (v_id vendor) |}).
  set (read := fun row : Row =>
    {| sp_id := col row "vendor_id"; sp_username := col row "username";
       sp_email := col row "email"; sp_business_name := col row "business_name";
       sp_address := col row "address"; sp_phone := col row "phone";
       sp_gst_no := col row "gst_no"; sp_fssai_license := col row "fssai_license";
       sp_logo_url := col row "logo_url"; sp_footer_note := col row "footer_note";
       sp_is_approved := sql_eq (col row "is_approved") (VInt 1) |}).
  assert (vendor_profile d' <> [] /\
          forall row, In row (vendor_profile d') -> read row = expected) as [Hne Hall].
  { destruct (saveVendorProfile_run vendor d) as ((path & Ht) & _).
    fold d' in Ht. rewrite Ht.
    destruct (0 <? Z.of_nat (length (List.filter (profile_of (v_id vendor))
                                       (vendor_profile d)))) eqn:E.
    - apply Z.ltb_lt in E. split.
      + intros Hnil. apply (f_equal (@length Row)) in Hnil.
        rewrite update_where_length in Hnil.
        destruct (vendor_profile d); [simpl in E; lia|done].
      + intros row Hrow. unfold update_where in Hrow.
        apply in_map_iff in Hrow as (r0 & <- & Hr0).
        rewrite Forall_forall in Hmine.
        rewrite (Hmine r0) by (by apply list_elem_of_In).
        pose proof (sql_eq_text_inv _ _ (Hmine r0 ltac:(by apply list_elem_of_In))) as Hid.
        unfold read, expected, profile_update.
        f_equal; col_of_update; first [exact Hid | by destruct (v_is_approved vendor)].
    - assert (vendor_profile d = []) as ->.
      { apply Z.ltb_ge in E.
        destruct (vendor_profile d) as [|r t]; [done|]. exfalso.
        inversion Hmine as [|? ? Hr _]; subst. cbn [List.filter] in E.
        rewrite Hr in E. cbn [length] in E. lia. }
      split; [done|]. intros row [<-|[]].
      unfold read, expected, profile_insert. cbn.
      f_equal. by destruct (v_is_approved vendor). }
  unfold getVendorProfile. fold d'.
  pose proof (order_by_perm ge_updated_at (vendor_profile d')) as Hperm.
  destruct (order_by ge_updated_at (vendor_profile d')) as [|row rest] eqn:Ho.
  { symmetry in Hperm. apply Permutation_nil_r in Hperm. done. }
  cbn [take]. change (Some (read row) = Some expected). f_equal.
  apply Hall. apply list_elem_of_In. rewrite <- Hperm. by left.
Qed.

(** *** Signing in *)

(** X16. A rejected login stores nothing and always reports a message: the
    device is as it was but for the request that was sent, the result has
    [success = false], no data and an error text; a status of 403 gives the
    pending-approval text and a status of 401 the invalid-credentials text,
    whatever text the server sent along; and a rejection that carries no text
    at all gives the generic text. *)
Theorem rejected_login_stores_nothing (username password : string) (d : Device)
    (error : ApiError) :
  api_auth_login platform username password = Failed error ->
  exists text,
    login env platform username password d =
      ({| l_success := false; l_error := Some text; l_data := None |},
       send (PostAuthLogin username password (authorization d)) d) /\
    (forall response, e_response error = Some response -> e_status response = 403 ->
       text = "Your vendor account is pending approval. Please wait for admin approval."%string) /\
    (forall response, e_response error = Some response -> e_status response = 401 ->
       text = "Invalid username or password."%string) /\
    (forall response, e_response error = Some response ->
       e_status response <> 403 -> e_status response <> 401 ->
       forall given, or_null (e_data_error response) = Some given -> text = given) /\
    ((forall response, e_response error = Some response ->
        or_null (e_data_error response) = None /\
        or_null (e_data_message response) = None /\
        e_status response <> 403 /\ e_status response <> 401) ->
     (e_response error = None -> or_null (e_message error) = None) ->
     text = "Login failed. Please try again."%string).
Proof.
  intros Hapi. unfold login. rewrite Hapi.
  eexists. split; [reflexivity|].
  destruct (e_response error) as [response|].
  - split.
    { intros r [= <-] H403. by rewrite H403. }
    split.
    { intros r [= <-] H401. by rewrite H401. }
    split.
    { intros r [= <-] H403 H401 given Hgiven.
      apply Z.eqb_neq in H403, H401. by rewrite H403, H401, Hgiven. }
    intros Hnone _. destruct (Hnone response eq_refl) as (He & Hm & H403 & H401).
    apply Z.eqb_neq in H403, H401. by rewrite H403, H401, He, Hm.
  - split; [done|]. split; [done|]. split; [done|].
    intros _ Hnone. by rewrite (Hnone eq_refl).
Qed.

(** X17. An accepted login signs the user in: the token of the answer is
    stored, [isAuthenticated] holds, the user data stored under [@user_data]
    is the [AuthData] built from the answer (and is what [getUserData] reads
    back when the JSON text parses back), the [auth] table holds exactly one
    row, with that token and user, whatever it held before, and later
    requests carry the token. *)
Theorem accepted_login_signs_in (username password : string) (d : Device)
    (response : LoginResponse) :
  api_auth_login platform username password = Fulfilled response ->
  exists authData d',
    login env platform username password d =
      ({| l_success := true; l_error := None; l_data := Some authData |}, d') /\
    token authData = r_token response /\
    user_id authData = toString (r_user_id response) /\
    Auth.username authData = r_username response /\
    getAuthToken d' = Some (r_token response) /\
    isAuthenticated d' = true /\
    user_data (world d') = Some (JSON_stringify platform authData) /\
    (JSON_stringify platform authData <> EmptyString ->
     JSON_parse_AuthData platform (JSON_stringify platform authData) = Some authData ->
     getUserData platform d' = Some authData) /\
    (exists row, auth d' = [row] /\
       col row "token" = VText (r_token response) /\
       col row "user_id" = VText (toString (r_user_id response)) /\
       col row "username" = VText (r_username response)) /\
    sent d' = sent d ++ [PostAuthLogin username password (authorization d)] /\
    (r_token response <> EmptyString ->
     authorization d' = Some ("Token " ++ r_token response)%string).
Proof.
  intros Hapi. unfold login. rewrite Hapi.
  eexists _, _. split; [reflexivity|].
  split; [done|]. split; [done|]. split; [done|].
  set (authData := {| token := r_token response |}).
  set (d1 := saveUserData env platform authData
               (saveAuthToken (r_token response)
                  (send (PostAuthLogin username password (authorization d)) d))).
  assert (auth_token d1 = Some (r_token response) /\
          user_data (world d1) = Some (JSON_stringify platform authData) /\
          (exists row, auth d1 = [row] /\
             col row "token" = VText (r_token response) /\
             col row "user_id" = VText (toString (r_user_id response)) /\
             col row "username" = VText (r_username response)) /\
          sent d1 = sent d ++ [PostAuthLogin username password (authorization d)])
    as (Htoken & Huser & Hauth & Hsent).
  { repeat split; try done. eexists. split; [reflexivity|]. by repeat split. }
  set (d2 := match r_vendor response with
             | Some vendor => saveVendorProfile env vendor d1
             | None => d1
             end).
  assert (auth_token d2 = auth_token d1 /\ auth d2 = auth d1 /\ sent d2 = sent d1 /\
          user_data (world d2) = user_data (world d1)) as (Ht2 & Ha2 & Hs2 & Hu2).
  { unfold d2. destruct (r_vendor response) as [vendor|]; [|done].
    destruct (saveVendorProfile_run vendor d1) as (_ & H1 & H2 & H3 & H4 & _). done. }
  unfold getAuthToken, isAuthenticated, getAuthToken, getUserData, authorization,
    getAuthToken.
  rewrite Ht2, Ha2, Hs2, Hu2, Htoken, Huser.
  repeat split; try done.
  - intros Hne Hparse. unfold or_null.
    destruct (String.eqb (JSON_stringify platform authData) EmptyString) eqn:E;
      [by apply String.eqb_eq in E|done].
  - intros Hne. unfold or_null.
    destruct (String.eqb (r_token response) EmptyString) eqn:E;
      [by apply String.eqb_eq in E|done].
Qed.

(** X26. [updateVendorProfile] never changes who is signed in.  The token
    is as it was in every case; a rejected update changes nothing but the
    list of requests sent; with no user stored, none is stored afterwards (an
    update cannot create a session); and with a user stored and a vendor in
    the answer, the stored user keeps its token, user id, username and vendor
    id and takes the seven business fields of the vendor, an empty one being
    dropped. *)
Theorem updateVendorProfile_keeps_the_session (d : Device) :
  exists answer d',
    updateVendorProfile env platform d = (answer, d') /\
    getAuthToken d' = getAuthToken d /\
    sent d' = sent d ++ [PatchAuthProfile (authorization d)] /\
    (forall error, answer = Failed error ->
       d' = send (PatchAuthProfile (authorization d)) d) /\
    (getUserData platform d = None ->
       user_data (world d') = user_data (world d) /\ auth d' = auth d) /\
    (forall userData vendor,
       getUserData platform d = Some userData -> answer = Fulfilled (Some vendor) ->
       exists merged,
         user_data (world d') = Some (JSON_stringify platform merged) /\
         token merged = token userData /\ user_id merged = user_id userData /\
         Auth.username merged = Auth.username userData /\
         vendor_id merged = vendor_id userData /\
         business_name merged = or_null (v_business_name vendor) /\
         phone merged = or_null (v_phone vendor) /\
         exists row, auth d' = [row] /\ col row "token" = VText (token userData)).
Proof.
  unfold updateVendorProfile.
  set (d0 := send (PatchAuthProfile (authorization d)) d).
  destruct (api_auth_updateProfile platform) as [[vendor|]|error].
  - destruct (saveVendorProfile_run vendor d0) as (_ & Ht & Ha & Hs & Hu & _).
    set (d1 := saveVendorProfile env vendor d0) in *.
    assert (getUserData platform d1 = getUserData platform d) as Hget
      by (unfold getUserData; by rewrite Hu).
    rewrite Hget. destruct (getUserData platform d) as [userData|].
    + eexists _, _. split; [reflexivity|]. split; [exact Ht|].
      split; [exact Hs|]. split; [done|]. split; [done|].
      intros u v [= <-] [= <-]. eexists. split; [reflexivity|].
      repeat (split; [reflexivity|]). by eexists.
    + eexists _, _. split; [reflexivity|]. split; [exact Ht|].
      split; [exact Hs|]. split; [done|]. split; [|done].
      intros _. by rewrite Hu, Ha.
  - destruct (getUserData platform d0) as [userData|];
      (eexists _, _; split; [reflexivity|]; repeat split; try done;
       intros ? ? ? [=]).
  - eexists _, _. split; [reflexivity|]. split; [done|]. split; [done|].
    split; [done|]. split; [done|]. intros ? ? ? [=].
Qed.

(** *** Signing out *)

(** X18. [logout] signs the user out whatever the server answers: the token
    and the stored user are gone, [isAuthenticated] is false, the [auth] and
    [vendor_profile] tables are empty, later requests carry no token; the one
    request it sent still carried the token there was.  It leaves the
    operation queue, the bills, the image cache and the files as they
    were. *)
Theorem logout_signs_out (d : Device) :
  let d' := logout platform d in
  getAuthToken d' = None /\
  isAuthenticated d' = false /\
  getUserData platform d' = None /\
  checkAuthStatus platform d' = (false, None) /\
  auth d' = [] /\ vendor_profile d' = [] /\
  authorization d' = None /\
  sent d' = sent d ++ [PostAuthLogout (authorization d)] /\
  sync_queue (world d') = sync_queue (world d) /\
  bills (world d') = bills (world d) /\
  image_cache (world d') = image_cache (world d) /\
  files (world d') = files (world d).
Proof.
  unfold logout. destruct (api_auth_logout platform); by repeat split.
Qed.

(** X19. After [logout] no cycle of the sync service reports success, and
    none uploads a bill or records a history entry: whatever is pending and
    whether or not the device is connected, [syncAll] returns
    [success = false] with a bills count of 0, and leaves the bills and the
    sync history as they were before the logout. *)
Theorem no_successful_cycle_after_logout (d : Device) :
  exists r w',
    syncAll env (world (logout platform d)) = (Return r, w') /\
    all_success r = false /\ billsSynced r = 0 /\
    bills w' = bills (world d) /\
    sync_history w' = sync_history (world d) /\
    user_data w' = None.
Proof.
  set (w := world (logout platform d)).
  assert (user_data w = None /\ bills w = bills (world d) /\
          sync_history w = sync_history (world d)) as (Hu & Hb & Hh).
  { unfold w, logout. by destruct (api_auth_logout platform). }
  destruct (netinfo_isConnected env) as [[|]|] eqn:Hnet.
  - destruct (syncAll_online env w Hnet) as (c & w1 & i & w2 & b & w3 & v & w4 &
      Hc & Hi & Hbills & Hv & Hall).
    assert (user_data w2 = None /\ bills w2 = bills w /\ sync_history w2 = sync_history w)
      as (Hu2 & Hb2 & Hh2).
    { rewrite (syncItems_keeps env user_data ltac:(done) ltac:(done) ltac:(done)
                 ltac:(done) ltac:(done) ltac:(done) _ _ _ Hi),
              (syncItems_keeps env bills ltac:(done) ltac:(done) ltac:(done)
                 ltac:(done) ltac:(done) ltac:(done) _ _ _ Hi),
              (syncItems_keeps env sync_history ltac:(done) ltac:(done) ltac:(done)
                 ltac:(done) ltac:(done) ltac:(done) _ _ _ Hi),
              (syncCategories_keeps env user_data ltac:(done) ltac:(done) ltac:(done)
                 ltac:(done) _ _ _ Hc),
              (syncCategories_keeps env bills ltac:(done) ltac:(done) ltac:(done)
                 ltac:(done) _ _ _ Hc),
              (syncCategories_keeps env sync_history ltac:(done) ltac:(done) ltac:(done)
                 ltac:(done) _ _ _ Hc). done. }
    rewrite (syncBills_no_user env w2 Hu2) in Hbills. inversion Hbills; subst b w3.
    assert (user_data w4 = None /\ bills w4 = bills w2 /\ sync_history w4 = sync_history w2)
      as (Hu4 & Hb4 & Hh4).
    { rewrite (syncInventory_keeps env user_data ltac:(done) ltac:(done) _ _ _ Hv),
              (syncInventory_keeps env bills ltac:(done) ltac:(done) _ _ _ Hv),
              (syncInventory_keeps env sync_history ltac:(done) ltac:(done) _ _ _ Hv).
      done. }
    eexists _, _. split; [exact Hall|].
    assert (cycle_success c i {| success := false; synced := 0 |} v = false) as Hfail.
    { unfold cycle_success. cbn [success]. by rewrite andb_false_r. }
    unfold after_cycle, cycle_result. rewrite Hfail. cbn.
    by rewrite Hb4, Hb2, Hb, Hh4, Hh2, Hh.
  - rewrite syncAll_offline by (by rewrite Hnet). by eexists _, _.
  - rewrite syncAll_offline by (by rewrite Hnet). by eexists _, _.
Qed.

(** *** The image cache *)

Lemma cache_entry_update_keeps (et id url path now : string) (r : Row) :
  cache_entry_of et id
    (set_cols [("remote_url", VText url); ("local_path", VText path);
               ("cached_at", VText now); ("expires_at", VNull)]%string r) =
  cache_entry_of et id r.
Proof. unfold cache_entry_of. by col_of_update. Qed.

(** After the block "Save to database" the entity has an entry, and each of
    its entries points to the file just downloaded. *)
Lemma save_cache_entry_run (et id url path : string) (w : World) :
  let w' := save_cache_entry env et id url path w in
  files w' = files w /\ items w' = items w /\
  (exists row rest,
     List.filter (cache_entry_of et id) (image_cache w') = row :: rest /\
     col row "local_path" = VText path) /\
  length (List.filter (cache_entry_of et id) (image_cache w')) =
    Nat.max (length (List.filter (cache_entry_of et id) (image_cache w))) 1.
Proof.
  cbv zeta. unfold save_cache_entry, read_clock. cbn [image_cache tick].
  destruct (0 <? Z.of_nat (length (List.filter (cache_entry_of et id) (image_cache w))))
    eqn:E.
  - apply Z.ltb_lt in E. cbn [files items image_cache set_image_cache tick].
    split; [done|]. split; [done|].
    rewrite update_where_selected by (intros r; apply cache_entry_update_keeps).
    destruct (List.filter (cache_entry_of et id) (image_cache w)) as [|r0 rest];
      [simpl in E; lia|].
    split; [|cbn [map length]; rewrite length_map; lia].
    cbn [map]. eexists _, _. split; [reflexivity|]. by col_of_update.
  - apply Z.ltb_ge in E. cbn [files items image_cache set_image_cache tick].
    assert (List.filter (cache_entry_of et id) (image_cache w) = []) as Hnil.
    { apply length_zero_iff_nil. lia. }
    split; [done|]. split; [done|]. rewrite List.filter_app, Hnil. cbn [List.filter app].
    assert (cache_entry_of et id
              (bind_columns image_cache_columns
                 [VText et; VText id; VText url; VText path;
                  VText (date_iso env (ticks w)); VNull]) = true) as ->.
    { unfold cache_entry_of. simpl. by rewrite !String.eqb_refl. }
    split; [|done]. by eexists _, _.
Qed.

Lemma append_not_empty (a b : string) : b <> EmptyString -> (a ++ b)%string <> EmptyString.
Proof. intros Hb. destruct a; simpl; [done|discriminate]. Qed.

(** X20. A cached image is the image served.  When [cacheVendorLogo]
    (resp. [cacheItemImage]) returns a path and the file is there, the path is
    the one the image of that vendor (item) always gets,
    [getLocalImagePath] finds it without changing anything, and
    [getImageSource] serves the local file, whatever remote URL it is given;
    this also when the entity had several cache entries before. *)
Theorem cached_image_is_served (kind : EntityKind) (id url : string)
    (remote : option string) (w w1 : World) (path : string) :
  match kind with
  | vendor_kind => cacheVendorLogo env id url w
  | item_kind => cacheItemImage env id url w
  end = (Some path, w1) ->
  existsb (String.eqb path) (files w1) = true ->
  path = match kind with
         | vendor_kind => (VENDOR_LOGO_DIR env ++ "/logo_" ++ id ++ ".jpg")%string
         | item_kind => (ITEM_IMAGE_DIR env ++ "/item_" ++ id ++ ".jpg")%string
         end /\
  getLocalImagePath kind id w1 = (Some path, w1) /\
  getImageSource kind id remote w1 = (Some ("file://" ++ path)%string, w1).
Proof.
  intros Hcache Hfile.
  assert (path = match kind with
                 | vendor_kind => (VENDOR_LOGO_DIR env ++ "/logo_" ++ id ++ ".jpg")%string
                 | item_kind => (ITEM_IMAGE_DIR env ++ "/item_" ++ id ++ ".jpg")%string
                 end /\
          exists row rest,
            List.filter (cache_entry_of (kind_name kind) id) (image_cache w1) = row :: rest /\
            col row "local_path" = VText path) as [Hpath (row & rest & Hrows & Hrow)].
  { destruct kind.
    - unfold cacheVendorLogo in Hcache.
      destruct (downloadImage env url _ w) as [[p|] w0]; [|done].
      inversion Hcache; subst path w1. split; [done|].
      by destruct (save_cache_entry_run "vendor" id url
                     (VENDOR_LOGO_DIR env ++ "/" ++ "logo_" ++ id ++ ".jpg") w0)
        as (_ & _ & H & _).
    - unfold cacheItemImage in Hcache.
      destruct (downloadImage env url _ w) as [[p|] w0]; [|done].
      inversion Hcache; subst path w1. split; [done|].
      by destruct (save_cache_entry_run "item" id url
                     (ITEM_IMAGE_DIR env ++ "/" ++ "item_" ++ id ++ ".jpg") w0)
        as (_ & _ & H & _). }
  split; [exact Hpath|].
  assert (getLocalImagePath kind id w1 = (Some path, w1)) as Hget.
  { unfold getLocalImagePath. by rewrite Hrows, Hrow, Hfile. }
  split; [exact Hget|].
  unfold getImageSource. rewrite Hget. unfold or_null.
  destruct (String.eqb path EmptyString) eqn:E; [|done].
  apply String.eqb_eq in E. exfalso. rewrite Hpath in E.
  destruct kind; by apply append_not_empty in E.
Qed.

Lemma kind_name_inj (k k' : EntityKind) : kind_name k = kind_name k' -> k = k'.
Proof. by destruct k, k'. Qed.

Lemma other_entity (k k' : EntityKind) (id id' : string) (r : Row) :
  (k', id') <> (k, id) ->
  cache_entry_of (kind_name k) id r = true ->
  cache_entry_of (kind_name k') id' r = false.
Proof.
  intros Hne Hr. destruct (cache_entry_of (kind_name k') id' r) eqn:E; [|done].
  exfalso. apply Hne. unfold cache_entry_of in *.
  apply andb_true_iff in Hr as [H1 H2]. apply andb_true_iff in E as [H1' H2'].
  apply sql_eq_text_inv in H1, H2, H1', H2'.
  rewrite H1 in H1'. rewrite H2 in H2'. inversion H1' as [Hk]. inversion H2'.
  apply kind_name_inj in Hk. by subst.
Qed.

Lemma delete_where_selected (p : Row -> bool) (t : Table) :
  List.filter p (delete_where p t) = [].
Proof.
  unfold delete_where. induction t as [|r t IH]; [done|]. simpl.
  destruct (p r) eqn:E; simpl; [done|]. by rewrite E.
Qed.

Lemma delete_where_others (p q : Row -> bool) (t : Table) :
  (forall r, p r = true -> q r = false) ->
  List.filter q (delete_where p t) = List.filter q t.
Proof.
  intros Hpq. unfold delete_where. induction t as [|r t IH]; [done|]. simpl.
  destruct (p r) eqn:E; simpl.
  - by rewrite (Hpq r E).
  - by rewrite IH.
Qed.

(** X21. [getLocalImagePath] never answers with a file that is not there.
    A path it returns is a file that exists, and then nothing was changed;
    when the file of the entry is gone it answers null and forgets the
    entries of that entity, those of every other entity staying as they were;
    and once it has answered null it answers null again, with no further
    change.  It never touches the files. *)
Theorem getLocalImagePath_never_serves_a_missing_file (kind : EntityKind)
    (id : string) (w : World) :
  exists answer w',
    getLocalImagePath kind id w = (answer, w') /\
    files w' = files w /\
    (forall path, answer = Some path ->
       existsb (String.eqb path) (files w) = true /\ w' = w) /\
    (answer = None -> getLocalImagePath kind id w' = (None, w')) /\
    (forall kind' id', (kind', id') <> (kind, id) ->
       List.filter (cache_entry_of (kind_name kind') id') (image_cache w') =
       List.filter (cache_entry_of (kind_name kind') id') (image_cache w)).
Proof.
  unfold getLocalImagePath at 1.
  destruct (List.filter (cache_entry_of (kind_name kind) id) (image_cache w))
    as [|row rest] eqn:Hrows.
  { exists None, w. repeat split; try done.
    intros _. unfold getLocalImagePath. by rewrite Hrows. }
  destruct (col row "local_path") as [| | |localPath] eqn:Hpath.
  1-3: exists None, w; repeat split; try done;
       intros _; unfold getLocalImagePath; by rewrite Hrows, Hpath.
  destruct (existsb (String.eqb localPath) (files w)) eqn:Hfile.
  - exists (Some localPath), w. split; [done|]. split; [done|].
    split; [by intros path [= <-]|]. by split.
  - eexists None, _. split; [reflexivity|].
    cbn [files image_cache set_image_cache]. repeat split; try done.
    + intros _. unfold getLocalImagePath. cbn [image_cache set_image_cache].
      by rewrite delete_where_selected.
    + intros kind' id' Hne. apply delete_where_others.
      intros r Hr. by apply (other_entity kind kind' id id').
Qed.

(** X22. [clearImageCache] forgets the entity: afterwards
    [getLocalImagePath] answers null, [getImageSource] falls back to the
    remote URL (or to null when there is none), the file of the entry that
    was found first is gone, and the entries of every other entity are as
    they were. *)
Theorem clearImageCache_forgets (kind : EntityKind) (id : string)
    (remote : option string) (w : World) :
  let w' := clearImageCache kind id w in
  getLocalImagePath kind id w' = (None, w') /\
  getImageSource kind id remote w' = (or_null remote, w') /\
  (forall row rest path,
     List.filter (cache_entry_of (kind_name kind) id) (image_cache w) = row :: rest ->
     col row "local_path" = VText path ->
     existsb (String.eqb path) (files w') = false) /\
  (forall kind' id', (kind', id') <> (kind, id) ->
     List.filter (cache_entry_of (kind_name kind') id') (image_cache w') =
     List.filter (cache_entry_of (kind_name kind') id') (image_cache w)).
Proof.
  intros w'.
  assert (image_cache w' =
          delete_where (cache_entry_of (kind_name kind) id) (image_cache w)) as Hcache.
  { unfold w', clearImageCache.
    destruct (List.filter (cache_entry_of (kind_name kind) id) (image_cache w))
      as [|row rest]; [done|].
    unfold unlink. by destruct (col row "local_path"). }
  assert (getLocalImagePath kind id w' = (None, w')) as Hget.
  { unfold getLocalImagePath. by rewrite Hcache, delete_where_selected. }
  split; [exact Hget|]. split.
  { unfold getImageSource. rewrite Hget. cbn [or_null].
    by destruct (or_null remote). }
  split.
  - intros row rest path Hrows Hpath. unfold w', clearImageCache.
    rewrite Hrows, Hpath. cbn [unlink files set_image_cache set_files].
    induction (files w) as [|f fs IH]; [done|]. cbn [List.filter].
    destruct (String.eqb f path) eqn:E; cbn [negb]; [exact IH|].
    cbn [existsb]. rewrite IH, orb_false_r. by rewrite String.eqb_sym.
  - intros kind' id' Hne. rewrite Hcache. apply delete_where_others.
    intros r Hr. by apply (other_entity kind kind' id id').
Qed.

End AuthProperties.

End AuthFacts.

(** ** The cart of the billing screen *)

Module BillingFacts.
Import Billing.

Section CartProperties.

Context {MenuItem : Type} (id : MenuItem -> string).

Lemma find_map_same (p : @CartItem MenuItem -> bool) (f : CartItem -> CartItem) (cart : list (@CartItem MenuItem)) :
  (forall c, p (f c) = p c) ->
  List.find p (map f cart) = option_map f (List.find p cart).
Proof.
  intros Hp. induction cart as [|c cart IH]; [done|]. simpl.
  rewrite Hp. by destruct (p c).
Qed.

Lemma find_in_app (p : @CartItem MenuItem -> bool) (cart cart' : list (@CartItem MenuItem)) :
  List.find p (cart ++ cart') =
  match List.find p cart with Some c => Some c | None => List.find p cart' end.
Proof.
  induction cart as [|c cart IH]; [done|]. simpl. by destruct (p c).
Qed.

Lemma find_filter_other (p q : @CartItem MenuItem -> bool) (cart : list (@CartItem MenuItem)) :
  (forall c, p c = true -> q c = true) ->
  List.find p (List.filter q cart) = List.find p cart.
Proof.
  intros Hpq. induction cart as [|c cart IH]; [done|]. simpl.
  destruct (p c) eqn:Ep.
  - rewrite (Hpq c Ep). simpl. by rewrite Ep.
  - destruct (q c); simpl; [by rewrite Ep|done].
Qed.

Lemma find_filter_none (p : @CartItem MenuItem -> bool) (cart : list (@CartItem MenuItem)) :
  List.find p (List.filter (fun c => negb (p c)) cart) = None.
Proof.
  induction cart as [|c cart IH]; [done|]. simpl.
  destruct (p c) eqn:Ep; simpl; [done|]. by rewrite Ep.
Qed.

Lemma is_item_requantified (i j : string) (g : @CartItem MenuItem -> Z)
    (c : @CartItem MenuItem) :
  is_item id i (if is_item id j c then {| item := item c; quantity := g c |} else c) =
  is_item id i c.
Proof. unfold is_item. by destruct (String.eqb (id (item c)) j). Qed.

Lemma is_item_other (i j : string) (c : @CartItem MenuItem) :
  String.eqb j i = false -> is_item id i c = true -> is_item id j c = false.
Proof.
  unfold is_item. intros Hji Hi. apply String.eqb_eq in Hi. rewrite Hi.
  by rewrite String.eqb_sym.
Qed.

Lemma total_from (cart : list (@CartItem MenuItem)) (a : Z) :
  fold_left (fun sum cartItem => sum + quantity cartItem) cart a =
  a + getTotalItems cart.
Proof.
  unfold getTotalItems. revert a. induction cart as [|c cart IH]; intros a;
    cbn [fold_left].
  - lia.
  - rewrite (IH (a + quantity c)), (IH (0 + quantity c)). lia.
Qed.

Lemma total_cons (c : @CartItem MenuItem) (cart : list (@CartItem MenuItem)) :
  getTotalItems (c :: cart) = quantity c + getTotalItems cart.
Proof. unfold getTotalItems at 1. simpl. by rewrite total_from. Qed.

Lemma total_app (cart cart' : list (@CartItem MenuItem)) :
  getTotalItems (cart ++ cart') = getTotalItems cart + getTotalItems cart'.
Proof.
  induction cart as [|c cart IH]; [done|]. simpl. rewrite !total_cons, IH. lia.
Qed.

Lemma not_in_cart (i : string) (cart : list (@CartItem MenuItem)) :
  List.find (is_item id i) cart = None -> i ∉ map (fun c : @CartItem MenuItem => id (item c)) cart.
Proof.
  intros Hnone Hin. apply list_elem_of_In, in_map_iff in Hin as (c & Hc & Hin).
  pose proof (find_none _ _ Hnone c Hin) as H. unfold is_item in H.
  rewrite Hc, String.eqb_refl in H. done.
Qed.

(** With no item twice, the cart changes in one place. *)
Lemma change_one (i : string) (f : @CartItem MenuItem -> CartItem) (cart : list (@CartItem MenuItem))
    (e : CartItem) :
  NoDup (map (fun c : @CartItem MenuItem => id (item c)) cart) ->
  List.find (is_item id i) cart = Some e ->
  exists before after,
    cart = before ++ e :: after /\
    map (fun c => if is_item id i c then f c else c) cart = before ++ f e :: after /\
    List.filter (fun c => negb (is_item id i c)) cart = before ++ after.
Proof.
  intros Hnd Hfind. induction cart as [|c cart IH]; [done|].
  simpl in Hfind. simpl in Hnd. apply NoDup_cons in Hnd as [Hc Hnd].
  destruct (is_item id i c) eqn:Ec.
  - inversion Hfind; subst c. exists [], cart. simpl. rewrite Ec. simpl.
    assert (forall c, In c cart -> is_item id i c = false) as Hrest.
    { intros c Hin. destruct (is_item id i c) eqn:E; [|done]. exfalso. apply Hc.
      unfold is_item in *. apply String.eqb_eq in Ec, E. rewrite Ec, <- E.
      apply list_elem_of_In, in_map_iff. by exists c. }
    split; [done|]. split; f_equal.
    + rewrite <- (map_id cart) at 2. apply map_ext_in. intros c Hin.
      by rewrite (Hrest c Hin).
    + clear -Hrest. induction cart as [|c cart IH]; [done|]. simpl.
      rewrite (Hrest c) by (by left). simpl. f_equal. apply IH.
      intros c' Hc'. apply Hrest. by right.
  - destruct (IH Hnd Hfind) as (before & after & -> & Hmap & Hfilter).
    exists (c :: before), after. simpl. rewrite Ec. simpl.
    by rewrite Hmap, Hfilter.
Qed.

(** X23. Each press changes the quantity shown for one item by one: after
    [addToCart] the quantity of the item is one more, after [removeFromCart]
    it is one less but never below zero, and the quantity of every other item
    is as it was.  This holds for every cart. *)
Theorem press_changes_one_quantity_by_one (cart : list (@CartItem MenuItem)) (i : string) :
  (forall it,
     getItemQuantity id i (addToCart id it cart) =
     getItemQuantity id i cart + (if String.eqb (id it) i then 1 else 0)) /\
  (forall j,
     getItemQuantity id i (removeFromCart id j cart) =
     if String.eqb j i then Z.max 0 (getItemQuantity id i cart - 1)
     else getItemQuantity id i cart).
Proof.
  split.
  - intros it. unfold getItemQuantity, addToCart.
    destruct (List.find (is_item id (id it)) cart) as [e|] eqn:Hfind.
    + rewrite find_map_same by (intros c; apply (is_item_requantified _ _ (fun c => quantity c + 1))).
      destruct (String.eqb (id it) i) eqn:E.
      * apply String.eqb_eq in E. subst i. rewrite Hfind. cbn [option_map].
        apply find_some in Hfind as [_ ->]. simpl. lia.
      * destruct (List.find (is_item id i) cart) as [c|] eqn:Hc; cbn [option_map]; [|lia].
        apply find_some in Hc as [_ Hc].
        rewrite (is_item_other i (id it) c E Hc). lia.
    + rewrite find_in_app.
      destruct (String.eqb (id it) i) eqn:E.
      * apply String.eqb_eq in E. subst i. rewrite Hfind. simpl.
        unfold is_item. simpl. by rewrite String.eqb_refl.
      * destruct (List.find (is_item id i) cart) as [c|]; [lia|]. simpl.
        unfold is_item. simpl. rewrite E. lia.
  - intros j. unfold getItemQuantity, removeFromCart.
    destruct (String.eqb j i) eqn:E.
    + apply String.eqb_eq in E. subst j.
      destruct (List.find (is_item id i) cart) as [e|] eqn:Hfind.
      * destruct (1 <? quantity e) eqn:Hq.
        -- rewrite find_map_same
             by (intros c; apply (is_item_requantified _ _ (fun c => quantity c - 1))).
           rewrite Hfind. cbn [option_map]. apply find_some in Hfind as [_ ->].
           simpl. apply Z.ltb_lt in Hq. lia.
        -- rewrite find_filter_none. apply Z.ltb_ge in Hq. lia.
      * rewrite find_filter_none. lia.
    + assert (forall c : CartItem, is_item id i c = true ->
                negb (is_item id j c) = true) as Hother
        by (intros c Hc; by rewrite (is_item_other i j c E Hc)).
      destruct (List.find (is_item id j) cart) as [e|] eqn:Hfind.
      * destruct (1 <? quantity e).
        -- rewrite find_map_same
             by (intros c; apply (is_item_requantified _ _ (fun c => quantity c - 1))).
           destruct (List.find (is_item id i) cart) as [c|] eqn:Hc; cbn [option_map]; [|done].
           apply find_some in Hc as [_ Hc].
           by rewrite (is_item_other i j c E Hc).
        -- by rewrite find_filter_other.
      * by rewrite find_filter_other.
Qed.

Lemma press_well_formed (cart : list (@CartItem MenuItem)) (p : Press) :
  well_formed id cart -> well_formed id (press id cart p).
Proof.
  intros [Hnd Hq]. destruct p as [it|j]; cbn [press].
  - unfold addToCart.
    destruct (List.find (is_item id (id it)) cart) as [e|] eqn:Hfind.
    + split.
      * rewrite map_map.
        erewrite map_ext; [exact Hnd|]. intros c. simpl. by destruct (is_item id (id it) c).
      * apply Forall_forall. intros c Hc. apply list_elem_of_In, in_map_iff in Hc
          as (c0 & <- & Hc0).
        rewrite Forall_forall in Hq.
        pose proof (Hq c0 ltac:(by apply list_elem_of_In)).
        destruct (is_item id (id it) c0); simpl; lia.
    + split.
      * rewrite map_app. simpl. apply NoDup_app. split; [done|].
        split; [|apply NoDup_singleton].
        intros x Hx Hx'. apply list_elem_of_singleton in Hx'. subst x.
        by apply (not_in_cart _ _ Hfind).
      * apply Forall_app. split; [done|]. constructor; [simpl; lia|done].
  - unfold removeFromCart.
    assert (well_formed id (List.filter (fun c => negb (is_item id j c)) cart)) as Hfilter.
    { split.
      - clear Hq. induction cart as [|c cart IH]; [done|]. simpl in *.
        apply NoDup_cons in Hnd as [Hc Hnd].
        destruct (negb (is_item id j c)); [|by apply IH]. simpl.
        apply NoDup_cons. split; [|by apply IH].
        intros Hin. apply Hc. apply list_elem_of_In, in_map_iff in Hin as (c' & Hc' & Hin).
        apply filter_In in Hin as [Hin _]. apply list_elem_of_In, in_map_iff.
        by exists c'.
      - apply Forall_forall. intros c Hc. apply list_elem_of_In, filter_In in Hc as [Hc _].
        rewrite Forall_forall in Hq. apply Hq. by apply list_elem_of_In. }
    destruct (List.find (is_item id j) cart) as [e|] eqn:Hfind; [|exact Hfilter].
    destruct (1 <? quantity e) eqn:Hlt; [|exact Hfilter]. apply Z.ltb_lt in Hlt.
    destruct (change_one j (fun c => {| item := item c; quantity := quantity c - 1 |})
                cart e Hnd Hfind) as (before & after & Hcart & -> & _).
    rewrite Hcart in Hnd, Hq. split.
    + by rewrite map_app in *.
    + apply Forall_app in Hq as [Hb Ha]. apply Forall_app. split; [done|].
      inversion Ha; subst. constructor; [simpl; lia|done].
Qed.

(** X24. Whatever buttons are pressed, starting from the empty cart: no
    item is in the cart twice, every item in the cart has a quantity of at
    least one (an item whose quantity would drop to zero leaves the cart), and
    the total shown is not negative. *)
Theorem cart_stays_well_formed (presses : list (@Press MenuItem)) :
  let cart := fold_left (press id) presses [] in
  well_formed id cart /\
  0 <= getTotalItems cart /\
  (forall i, getItemQuantity id i cart = 0 \/ 1 <= getItemQuantity id i cart).
Proof.
  cbv zeta.
  assert (forall start, well_formed id start ->
            well_formed id (fold_left (press id) presses start)) as Hrun.
  { induction presses as [|p presses IH]; intros start Hs; [done|].
    simpl. apply IH. by apply press_well_formed. }
  specialize (Hrun [] ltac:(split; constructor)).
  destruct Hrun as [Hnd Hq]. split; [by split|].
  set (cart := fold_left (press id) presses []) in *. clearbody cart. split.
  - clear Hnd. induction Hq as [|c cart Hc Hq IH]; [done|].
    rewrite total_cons. lia.
  - intros i. unfold getItemQuantity.
    destruct (List.find (is_item id i) cart) as [c|] eqn:Hfind; [|by left].
    right. apply find_some in Hfind as [Hin _]. rewrite Forall_forall in Hq.
    apply Hq. by apply list_elem_of_In.
Qed.

(** X25. On a cart with no item twice and no quantity below one (every
    cart the screen can reach): the minus button undoes the plus button,
    [removeFromCart] after [addToCart] gives back the very cart; [addToCart]
    raises the total by exactly one; and [removeFromCart] lowers it by one
    when the item is in the cart and leaves it when it is not. *)
Theorem minus_undoes_plus (cart : list (@CartItem MenuItem)) (it : MenuItem) (j : string) :
  well_formed id cart ->
  removeFromCart id (id it) (addToCart id it cart) = cart /\
  getTotalItems (addToCart id it cart) = getTotalItems cart + 1 /\
  getTotalItems (removeFromCart id j cart) =
    getTotalItems cart - (if 0 <? getItemQuantity id j cart then 1 else 0).
Proof.
  intros [Hnd Hq].
  assert (forall e : @CartItem MenuItem,
            {| item := item e; quantity := quantity e + 1 - 1 |} = e) as Hback.
  { intros [m q]. simpl. f_equal. lia. }
  split; [|split].
  - unfold addToCart.
    destruct (List.find (is_item id (id it)) cart) as [e|] eqn:Hfind.
    + destruct (change_one (id it)
                  (fun c => {| item := item c; quantity := quantity c + 1 |})
                  cart e Hnd Hfind) as (before & after & Hcart & Hmap & _).
      rewrite Hmap.
      set (e' := {| item := item e; quantity := quantity e + 1 |}).
      assert (NoDup (map (fun c : @CartItem MenuItem => id (item c)) (before ++ e' :: after))) as Hnd'
        by (rewrite Hcart in Hnd; by rewrite map_app in * ).
      assert (List.find (is_item id (id it)) (before ++ e' :: after) = Some e') as Hfind'.
      { unfold e'. rewrite <- Hmap.
        rewrite find_map_same by (intros c; apply (is_item_requantified _ _ (fun c => quantity c + 1))).
        rewrite Hfind. cbn [option_map]. apply find_some in Hfind as [_ ->]. done. }
      unfold removeFromCart. rewrite Hfind'.
      assert (1 <= quantity e) as He.
      { rewrite Forall_forall in Hq. apply Hq, list_elem_of_In.
        by apply find_some in Hfind as [Hin _]. }
      assert ((1 <? quantity e') = true) as -> by (apply Z.ltb_lt; simpl; lia).
      destruct (change_one (id it)
                  (fun c => {| item := item c; quantity := quantity c - 1 |})
                  _ e' Hnd' Hfind') as (b2 & a2 & Hsame & Hmap2 & _).
      rewrite Hmap2. rewrite Hcart.
      assert (b2 = before /\ a2 = after) as [-> ->].
      { clear -Hsame Hnd'. revert b2 Hsame.
        induction before as [|c before IH]; intros b2 Hsame.
        - destruct b2 as [|c2 b2]; simpl in *.
          + by inversion Hsame.
          + exfalso. inversion Hsame; subst c2. subst after.
            apply NoDup_cons in Hnd' as [Hnot _]. apply Hnot.
            rewrite map_app. simpl. apply elem_of_app. right. by left.
        - destruct b2 as [|c2 b2]; simpl in *.
          + exfalso. inversion Hsame; subst c.
            apply NoDup_cons in Hnd' as [Hnot _]. apply Hnot.
            rewrite map_app. simpl. apply elem_of_app. right. by left.
          + inversion Hsame; subst c2.
            apply NoDup_cons in Hnd' as [_ Hnd'].
            destruct (IH Hnd' b2) as [-> ->]; done. }
      unfold e'. simpl. by rewrite Hback.
    + unfold removeFromCart. rewrite find_in_app, Hfind. simpl.
      unfold is_item at 1. simpl. rewrite String.eqb_refl.
      change (1 <? 1) with false. cbv iota.
      rewrite List.filter_app. simpl. unfold is_item at 2. simpl.
      rewrite String.eqb_refl. simpl. rewrite app_nil_r.
      pose proof (find_none _ _ Hfind) as Hnone.
      clear -Hnone. induction cart as [|c cart IH]; [done|]. simpl.
      rewrite (Hnone c) by (by left). simpl. f_equal. apply IH.
      intros c' Hc'. apply Hnone. by right.
  - unfold addToCart.
    destruct (List.find (is_item id (id it)) cart) as [e|] eqn:Hfind.
    + destruct (change_one (id it)
                  (fun c => {| item := item c; quantity := quantity c + 1 |})
                  cart e Hnd Hfind) as (before & after & Hcart & -> & _).
      rewrite Hcart, !total_app, !total_cons. simpl. lia.
    + rewrite total_app. change (getTotalItems [_]) with 1. lia.
  - unfold removeFromCart, getItemQuantity.
    destruct (List.find (is_item id j) cart) as [e|] eqn:Hfind.
    + assert (1 <= quantity e) as He.
      { rewrite Forall_forall in Hq. apply Hq, list_elem_of_In.
        by apply find_some in Hfind as [Hin _]. }
      assert ((0 <? quantity e) = true) as -> by (apply Z.ltb_lt; lia).
      destruct (change_one j (fun c => {| item := item c; quantity := quantity c - 1 |})
                  cart e Hnd Hfind) as (before & after & Hcart & -> & ->).
      rewrite Hcart, !total_app, !total_cons.
      destruct (1 <? quantity e) eqn:Hlt.
      * rewrite total_app, total_cons. simpl. lia.
      * apply Z.ltb_ge in Hlt. rewrite total_app. lia.
    + change (0 <? 0) with false. cbv iota. rewrite Z.sub_0_r. f_equal.
      pose proof (find_none _ _ Hfind) as Hnone.
      clear -Hnone. induction cart as [|c cart IH]; [done|]. simpl.
      rewrite (Hnone c) by (by left). simpl. f_equal. apply IH.
      intros c' Hc'. apply Hnone. by right.
Qed.

End CartProperties.

End BillingFacts.

(** ** Bill and invoice numbers *)

Module BillNumberingFacts.
Import BillNumbering.

Section NumberingProperties.

Context (platform : Platform).

Lemma generateBillNumber_run (prefix : string) (number : option Z) (includeDate : bool)
    (t : Till) :
  exists text,
    generateBillNumber platform prefix number includeDate t = (text, snd (read_clock t)).
Proof. unfold generateBillNumber. cbn [read_clock snd]. destruct includeDate; by eexists. Qed.

Lemma generateBillNumber_same_day (prefix : string) (number : option Z)
    (includeDate : bool) (t t' : Till) :
  same_day platform (readings t) (readings t') ->
  fst (generateBillNumber platform prefix number includeDate t) =
  fst (generateBillNumber platform prefix number includeDate t').
Proof.
  intros (Hy & Hm & Hd). unfold generateBillNumber, read_clock. cbn [fst snd].
  rewrite Hy, Hm, Hd. by destruct includeDate.
Qed.

(** X27. Bill numbers count up.  With settings stored whose counter (or,
    the counter being missing or 0, whose starting number) is [n], and the
    settings written back being read back as written: [getNextBillNumber]
    returns the bill number of [n] and stores the counter [n + 1], and the
    next call returns the bill number of [n + 1] and stores [n + 2]; prefix,
    starting number and date flag are never changed, nor are the invoice
    sequences. *)
Theorem bill_numbers_count_up (t : Till) (text : string)
    (settings : BillNumberingSettings) (n : Z) :
  settingsJson t = Some text ->
  JSON_parse platform text = Some settings ->
  number_or (currentNumber settings)
            (parseInt platform (startingNumber settings)) = Some n ->
  n + 1 <> 0 ->
  JSON_stringify platform (with_currentNumber (Some (n + 1)) settings) <> EmptyString ->
  JSON_parse platform (JSON_stringify platform (with_currentNumber (Some (n + 1)) settings))
    = Some (with_currentNumber (Some (n + 1)) settings) ->
  exists t1 t2,
    getNextBillNumber platform t =
      (fst (generateBillNumber platform (prefix settings) (Some n)
              (includeDate settings) t), t1) /\
    getNextBillNumber platform t1 =
      (fst (generateBillNumber platform (prefix settings) (Some (n + 1))
              (includeDate settings) t1), t2) /\
    bill_numbering t1 =
      Some (JSON_stringify platform (with_currentNumber (Some (n + 1)) settings)) /\
    bill_numbering t2 =
      Some (JSON_stringify platform (with_currentNumber (Some (n + 2)) settings)) /\
    invoice_sequences t2 = invoice_sequences t.
Proof.
  intros Hjson Hparse Hn Hnz Hne Hback.
  set (next := with_currentNumber (Some (n + 1)) settings) in *.
  destruct (generateBillNumber_run (prefix settings) (Some n) (includeDate settings) t)
    as (b1 & Hb1).
  set (t1 := set_bill_numbering (JSON_stringify platform next) (snd (read_clock t))).
  assert (getNextBillNumber platform t = (b1, t1)) as H1.
  { unfold getNextBillNumber. rewrite Hjson, Hparse. cbv zeta. rewrite Hn, Hb1.
    reflexivity. }
  assert (settingsJson t1 = Some (JSON_stringify platform next)) as Hjson1.
  { unfold settingsJson, t1. cbn [bill_numbering set_bill_numbering].
    destruct (String.eqb (JSON_stringify platform next) EmptyString) eqn:E; [|done].
    by apply String.eqb_eq in E. }
  assert (number_or (currentNumber next) (parseInt platform (startingNumber next))
          = Some (n + 1)) as Hn1.
  { unfold next. cbn [currentNumber with_currentNumber number_or].
    destruct (n + 1 =? 0) eqn:E; [|done]. by apply Z.eqb_eq in E. }
  destruct (generateBillNumber_run (prefix settings) (Some (n + 1)) (includeDate settings) t1)
    as (b2 & Hb2).
  exists t1, (set_bill_numbering
                (JSON_stringify platform (with_currentNumber (Some (n + 2)) settings))
                (snd (read_clock t1))).
  split; [by rewrite Hb1|]. split.
  { unfold getNextBillNumber. rewrite Hjson1, Hback. cbv zeta. rewrite Hn1.
    change (prefix next) with (prefix settings).
    change (includeDate next) with (includeDate settings).
    rewrite Hb2. cbn [fst plus_one]. do 3 f_equal.
    unfold with_currentNumber, next. cbn. do 2 f_equal. lia. }
  by repeat split.
Qed.

(** X28. [previewBillNumber] changes nothing that is stored, and announces
    the number the next [getNextBillNumber] returns, when the stored text is
    absent or parses and the clock shows the same day at both calls.  With
    nothing stored the preview is that of the default settings, number 1001
    with the date; with a text that does not parse the preview is
    [BILL-1001], whereas [getNextBillNumber] then returns [BILL-] followed by
    the clock in milliseconds and leaves the stored text as it is. *)
Theorem preview_announces_next_bill_number (t : Till) :
  same_day platform (readings t) (S (readings t)) ->
  exists number t1,
    previewBillNumber platform t = (number, t1) /\
    bill_numbering t1 = bill_numbering t /\
    invoice_sequences t1 = invoice_sequences t /\
    (settingsJson t = None ->
       number = fst (generateBillNumber platform "BILL-" (Some 1001) true t)) /\
    ((settingsJson t = None \/
      exists text settings,
        settingsJson t = Some text /\ JSON_parse platform text = Some settings) ->
     fst (getNextBillNumber platform t1) = number) /\
    (forall text, settingsJson t = Some text -> JSON_parse platform text = None ->
       number = "BILL-1001"%string /\
       getNextBillNumber platform t =
         (("BILL-" ++ number_text (Some (Date_now platform (readings t))))%string,
          snd (read_clock t))).
Proof.
  intros Hday.
  assert (forall settings,
            (match settingsJson t with
             | Some text => JSON_parse platform text
             | None => Some default_settings
             end) = Some settings ->
            exists number t1,
              previewBillNumber platform t = (number, t1) /\
              bill_numbering t1 = bill_numbering t /\
              invoice_sequences t1 = invoice_sequences t /\
              number = fst (generateBillNumber platform (prefix settings)
                              (number_or (currentNumber settings)
                                 (parseInt platform (startingNumber settings)))
                              (includeDate settings) t) /\
              fst (getNextBillNumber platform t1) = number) as Hparsed.
  { intros settings Hsettings.
    destruct (generateBillNumber_run (prefix settings)
                (number_or (currentNumber settings)
                   (parseInt platform (startingNumber settings)))
                (includeDate settings) t) as (b & Hb).
    exists b, (snd (read_clock t)).
    assert (previewBillNumber platform t = (b, snd (read_clock t))) as Hprev
      by (unfold previewBillNumber; by rewrite Hsettings).
    split; [exact Hprev|]. split; [done|]. split; [done|].
    split; [by rewrite Hb|].
    unfold getNextBillNumber.
    change (settingsJson (snd (read_clock t))) with (settingsJson t).
    rewrite Hsettings. cbv zeta.
    destruct (generateBillNumber_run (prefix settings)
                (number_or (currentNumber settings)
                   (parseInt platform (startingNumber settings)))
                (includeDate settings) (snd (read_clock t))) as (b' & Hb').
    rewrite Hb'. cbn [fst].
    change b' with (fst (b', snd (read_clock (snd (read_clock t))))).
    rewrite <- Hb'. change b with (fst (b, snd (read_clock t))). rewrite <- Hb.
    symmetry. by apply generateBillNumber_same_day. }
  destruct (settingsJson t) as [text|] eqn:Hjson.
  - destruct (JSON_parse platform text) as [settings|] eqn:Hparse.
    + destruct (Hparsed settings eq_refl) as (number & t1 & Hprev & Hb & Hi & _ & Hnext).
      exists number, t1. split; [exact Hprev|]. split; [exact Hb|]. split; [exact Hi|].
      split; [done|]. split; [intros _; exact Hnext|].
      intros text' [= <-]. by rewrite Hparse.
    + exists "BILL-1001"%string, t.
      assert (previewBillNumber platform t = ("BILL-1001"%string, t)) as Hprev
        by (unfold previewBillNumber; by rewrite Hjson, Hparse).
      split; [exact Hprev|]. split; [done|]. split; [done|]. split; [done|].
      split.
      * intros [H|(text' & settings & [= <-] & H)]; [done|]. by rewrite Hparse in H.
      * intros text' [= <-] _. split; [done|].
        unfold getNextBillNumber. by rewrite Hjson, Hparse.
  - destruct (Hparsed default_settings eq_refl) as (number & t1 & Hprev & Hb & Hi & Hn & Hnext).
    exists number, t1. split; [exact Hprev|]. split; [exact Hb|]. split; [exact Hi|].
    split; [intros _; exact Hn|]. split; [intros _; exact Hnext|]. done.
Qed.

(** X30. [resetBillNumbering] puts the counter back to the starting
    number: with settings stored, and the settings written back being read
    back as written, it stores the settings with the counter
    [parseInt(startingNumber)] and everything else unchanged, which is what
    [getBillNumberingSettings] then returns, and the next preview is the bill
    number of the starting number.  It reads no clock and leaves the invoice
    sequences alone. *)
Theorem reset_returns_to_starting_number (t : Till) (text : string)
    (settings : BillNumberingSettings) :
  settingsJson t = Some text ->
  JSON_parse platform text = Some settings ->
  let fresh :=
    with_currentNumber (parseInt platform (startingNumber settings)) settings in
  JSON_stringify platform fresh <> EmptyString ->
  JSON_parse platform (JSON_stringify platform fresh) = Some fresh ->
  exists t',
    resetBillNumbering platform t = Some t' /\
    getBillNumberingSettings platform t' = fresh /\
    previewBillNumber platform t' =
      generateBillNumber platform (prefix settings)
        (parseInt platform (startingNumber settings)) (includeDate settings) t' /\
    invoice_sequences t' = invoice_sequences t /\
    readings t' = readings t.
Proof.
  intros Hjson Hparse fresh Hne Hback.
  exists (set_bill_numbering (JSON_stringify platform fresh) t).
  assert (settingsJson (set_bill_numbering (JSON_stringify platform fresh) t)
          = Some (JSON_stringify platform fresh)) as Hjson'.
  { unfold settingsJson. cbn [bill_numbering set_bill_numbering].
    destruct (String.eqb (JSON_stringify platform fresh) EmptyString) eqn:E; [|done].
    by apply String.eqb_eq in E. }
  split; [unfold resetBillNumbering; by rewrite Hjson, Hparse|].
  split; [unfold getBillNumberingSettings; by rewrite Hjson', Hback|].
  split; [|done].
  unfold previewBillNumber. rewrite Hjson', Hback.
  change (prefix fresh) with (prefix settings).
  change (includeDate fresh) with (includeDate settings).
  change (startingNumber fresh) with (startingNumber settings).
  change (currentNumber fresh) with (parseInt platform (startingNumber settings)).
  f_equal. unfold number_or.
  destruct (parseInt platform (startingNumber settings)) as [z|]; [|done].
  by destruct (z =? 0).
Qed.

Lemma sequence_of_other (m m' : string) (y y' : Z) (r : SequenceRow) :
  (m', y') <> (m, y) -> sequence_of m y r = true -> sequence_of m' y' r = false.
Proof.
  intros Hne Hr. destruct (sequence_of m' y' r) eqn:E; [|done]. exfalso. apply Hne.
  unfold sequence_of in *.
  apply andb_true_iff in Hr as [H1 H2]. apply andb_true_iff in E as [H1' H2'].
  apply String.eqb_eq in H1, H1'. apply Z.eqb_eq in H2, H2'. congruence.
Qed.

(** X29. Invoice sequences count up per billing mode and year.  On a table
    with at most one sequence per billing mode and year,
    [generateInvoiceNumber] returns the prefix of the mode ([GST] for [gst],
    [NGST] otherwise), the year the clock shows and the sequence reached so
    far plus one, padded to four digits; the first number of a year has
    sequence 1.  Afterwards the mode has exactly one sequence for that year,
    holding the new value, which is what [getInvoiceSequence] returns in that
    year; the sequences of every other mode and year are as they were, and
    the table still has at most one sequence per mode and year. *)
Theorem invoice_sequences_count_up (billingMode : string) (t : Till) :
  one_sequence_each (invoice_sequences t) ->
  let year := getFullYear platform (readings t) in
  let reached := sequence_reached billingMode year (invoice_sequences t) in
  exists t',
    generateInvoiceNumber platform billingMode t =
      (((if String.eqb billingMode "gst" then "GST" else "NGST") ++ "-"
        ++ number_text (Some year) ++ "-"
        ++ padStart 4 "0" (number_text (Some (reached + 1))))%string, t') /\
    one_sequence_each (invoice_sequences t') /\
    (exists row, List.filter (sequence_of billingMode year) (invoice_sequences t') = [row] /\
                 s_sequence row = reached + 1) /\
    (getFullYear platform (readings t') = year ->
     fst (getInvoiceSequence platform billingMode t') = reached + 1) /\
    (forall mode' year', (mode', year') <> (billingMode, year) ->
       List.filter (sequence_of mode' year') (invoice_sequences t') =
       List.filter (sequence_of mode' year') (invoice_sequences t)) /\
    bill_numbering t' = bill_numbering t.
Proof.
  intros Hone year reached.
  unfold generateInvoiceNumber, read_clock. cbn [invoice_sequences readings].
  fold year. unfold reached, sequence_reached.
  set (now := toISOString platform (S (readings t))).
  set (rows := invoice_sequences t) in *.
  assert (forall r, In r rows -> sequence_of billingMode year r = true ->
            List.filter (sequence_of billingMode year) rows = [r]) as Hunique.
  { unfold one_sequence_each in Hone. clearbody rows. clear -Hone.
    induction rows as [|r0 rows IH]; [done|]. intros r Hin Hr.
    simpl in Hone. apply NoDup_cons in Hone as [Hnot Hone]. simpl.
    assert (forall r', In r' rows -> sequence_of billingMode year r0 = true ->
              sequence_of billingMode year r' = false) as Hrest.
    { intros r' Hr' H0. destruct (sequence_of billingMode year r') eqn:E; [|done].
      exfalso. apply Hnot. unfold sequence_of in *.
      apply andb_true_iff in H0 as [H1 H2]. apply andb_true_iff in E as [H1' H2'].
      apply String.eqb_eq in H1, H1'. apply Z.eqb_eq in H2, H2'.
      apply list_elem_of_In, in_map_iff. exists r'. split; [|done]. congruence. }
    destruct Hin as [->|Hin].
    - rewrite Hr. f_equal. apply filter_all_false. intros r' Hr'. by apply Hrest.
    - destruct (sequence_of billingMode year r0) eqn:E0.
      + by rewrite (Hrest r Hin eq_refl) in Hr.
      + by apply IH. }
  destruct (List.filter (sequence_of billingMode year) rows) as [|row rest] eqn:Hfilter.
  - eexists. split; [reflexivity|]. cbn [invoice_sequences set_invoice_sequences readings
                                         bill_numbering].
    fold rows.
    assert (List.filter (sequence_of billingMode year)
              (rows ++ [ {| s_billing_mode := billingMode; s_year := year; s_sequence := 1;
                            s_prefix := if String.eqb billingMode "gst" then "GST" else "NGST";
                            s_created_at := now; s_updated_at := now |} ]) =
            [ {| s_billing_mode := billingMode; s_year := year; s_sequence := 1;
                 s_prefix := if String.eqb billingMode "gst" then "GST" else "NGST";
                 s_created_at := now; s_updated_at := now |} ]) as Hnew.
    { rewrite List.filter_app, Hfilter. simpl. unfold sequence_of. simpl.
      by rewrite String.eqb_refl, Z.eqb_refl. }
    split.
    { unfold one_sequence_each. rewrite map_app. simpl. apply NoDup_app.
      split; [exact Hone|]. split; [|apply NoDup_singleton].
      intros key Hkey Hkey'. apply list_elem_of_singleton in Hkey'. subst key.
      apply list_elem_of_In, in_map_iff in Hkey as (r & Hr & Hin).
      assert (In r (List.filter (sequence_of billingMode year) rows)) as Hin'.
      { apply filter_In. split; [done|]. unfold sequence_of. inversion Hr.
        by rewrite String.eqb_refl, Z.eqb_refl. }
      by rewrite Hfilter in Hin'. }
    split; [by eexists|]. split.
    { intros Hyear. unfold getInvoiceSequence, read_clock.
      cbn [invoice_sequences readings set_invoice_sequences] in Hyear |- *.
      rewrite Hyear, Hnew. done. }
    split; [|done].
    intros mode' year' Hne. rewrite List.filter_app. simpl.
    assert (sequence_of mode' year'
              {| s_billing_mode := billingMode; s_year := year; s_sequence := 1;
                 s_prefix := if String.eqb billingMode "gst" then "GST" else "NGST";
                 s_created_at := now; s_updated_at := now |} = false) as ->.
    { apply (sequence_of_other billingMode mode' year year'); [done|].
      unfold sequence_of. simpl. by rewrite String.eqb_refl, Z.eqb_refl. }
    by rewrite app_nil_r.
  - assert (In row rows /\ sequence_of billingMode year row = true) as [Hin Hrow].
    { apply filter_In. rewrite Hfilter. by left. }
    assert (rest = []) as -> by (specialize (Hunique row Hin Hrow); by inversion Hunique).
    eexists. split; [reflexivity|]. cbn [invoice_sequences set_invoice_sequences readings
                                         bill_numbering].
    fold rows.
    set (bump := fun r => if sequence_of billingMode year r
                          then {| s_billing_mode := s_billing_mode r; s_year := s_year r;
                                  s_sequence := s_sequence row + 1; s_prefix := s_prefix r;
                                  s_created_at := s_created_at r; s_updated_at := now |}
                          else r).
    assert (forall m y r, sequence_of m y (bump r) = sequence_of m y r) as Hkeep.
    { intros m y r. unfold bump. by destruct (sequence_of billingMode year r). }
    assert (forall m y, List.filter (sequence_of m y) (map bump rows) =
                        map bump (List.filter (sequence_of m y) rows)) as Hcommute.
    { intros m y. clearbody rows. clear -Hkeep. induction rows as [|r rows IH]; [done|].
      simpl. rewrite Hkeep. destruct (sequence_of m y r); simpl; by rewrite IH. }
    split.
    { unfold one_sequence_each. rewrite map_map.
      erewrite map_ext; [exact Hone|]. intros r. unfold bump. simpl.
      by destruct (sequence_of billingMode year r). }
    assert (List.filter (sequence_of billingMode year) (map bump rows) = [bump row]) as Hnew
      by (by rewrite Hcommute, Hfilter).
    split.
    { exists (bump row). split; [exact Hnew|]. unfold bump. by rewrite Hrow. }
    split.
    { intros Hyear. unfold getInvoiceSequence, read_clock.
      cbn [invoice_sequences readings set_invoice_sequences] in Hyear |- *.
      rewrite Hyear, Hnew. unfold bump.
      by rewrite Hrow. }
    split; [|done].
    intros mode' year' Hne. rewrite Hcommute.
    rewrite <- (map_id (List.filter (sequence_of mode' year') rows)) at 2.
    apply map_ext_in. intros r Hr. apply filter_In in Hr as [_ Hr].
    unfold bump.
    destruct (sequence_of billingMode year r) eqn:E; [|done].
    by rewrite (sequence_of_other billingMode mode' year year' r Hne E) in Hr.
Qed.

End NumberingProperties.

End BillNumberingFacts.

(** ** The further properties at work *)

Module CoverageFacts.
Import Scenario AuthScenario.

Lemma shop_ids_distinct : NoDup (map q_id (sync_queue shop)).
Proof.
  vm_compute. apply NoDup_cons. split; [|apply NoDup_singleton].
  intros H. apply list_elem_of_singleton in H. discriminate H.
Defined.

(** X2 on the shop: the category drain keeps the item operation as it is. *)
Lemma category_drain_on_shop :
  NoDup (map q_id (sync_queue shop)) /\
  exists r w',
    @syncCategories all_up rowid_engine shop = (Return r, w') /\
    Forall2 (kept_or_marked [Category]) (sync_queue shop) (sync_queue w') /\
    map q_id (sync_queue w') = map q_id (sync_queue shop) /\
    (forall op, In op (sync_queue shop) ->
       q_entity_type op <> Category \/ q_synced op <> 0 -> In op (sync_queue w')).
Proof.
  split; [exact shop_ids_distinct|].
  exact (@drain_marks_only_its_own all_up rowid_engine Category _ _ _ shop
           (drain_categories all_up) shop_ids_distinct).
Defined.

(** X3 on the shop. *)
Lemma cycle_on_shop_keeps_other_operations :
  NoDup (map q_id (sync_queue shop)) /\
  exists r w',
    @syncAll all_up rowid_engine shop = (Return r, w') /\
    Forall2 (kept_or_marked [Category; Item]) (sync_queue shop) (sync_queue w') /\
    (forall op, In op (sync_queue shop) ->
       q_entity_type op = Bill \/ q_entity_type op = Inventory ->
       In op (sync_queue w') /\
       (q_synced op = 0 ->
        In op (@pending_operations rowid_engine (q_entity_type op) w'))).
Proof.
  split; [exact shop_ids_distinct|].
  exact (@cycle_never_clears_bill_or_inventory_operations all_up rowid_engine shop
           shop_ids_distinct).
Defined.

(** X5 on the shop: its one unsynced bill is uploaded and none is left. *)
Lemma bills_drain_on_shop :
  exists r w',
    @syncBills all_up rowid_engine shop = (Return r, w') /\
    success r = true /\
    Forall (fun b => text_id b = true) (List.filter unsynced (bills shop)) /\
    NoDup (map (fun b => col b "id") (List.filter unsynced (bills shop))) /\
    synced r = 1 /\
    length (List.filter unsynced (bills w')) = 0%nat.
Proof.
  destruct (@syncBills all_up rowid_engine shop) as [o w'] eqn:Hrun.
  assert (o = Return {| success := true; synced := 1 |}) as ->
    by (vm_compute in Hrun; by inversion Hrun).
  assert (Forall (fun b => text_id b = true) (List.filter unsynced (bills shop))) as Htext
    by (vm_compute; by repeat constructor).
  assert (NoDup (map (fun b => col b "id") (List.filter unsynced (bills shop)))) as Hnd
    by (vm_compute; apply NoDup_singleton).
  eexists _, w'. split; [reflexivity|]. split; [reflexivity|].
  split; [exact Htext|]. split; [exact Hnd|].
  exact (@syncBills_drains_fifty_at_a_time all_up rowid_engine shop w' _
           Hrun eq_refl Htext Hnd).
Defined.

(** X8 on the shop with the item endpoint down: the cycle fails and records
    nothing. *)
Lemma failed_cycle_on_shop_records_nothing :
  exists r w',
    @syncAll items_down rowid_engine shop = (Return r, w') /\
    all_success r = false /\
    sync_history w' = sync_history shop /\ last_sync_time w' = last_sync_time shop.
Proof.
  destruct (@syncAll items_down rowid_engine shop) as [o w'] eqn:Hrun.
  assert (exists r, o = Return r /\ all_success r = false) as (r & -> & Hfail)
    by (vm_compute in Hrun; inversion Hrun; by eexists).
  exists r, w'. split; [reflexivity|]. split; [exact Hfail|].
  exact (@failed_or_empty_cycle_records_nothing items_down rowid_engine shop w' r
           Hrun (or_introl Hfail)).
Defined.

(** X9 on a device that is signed in and has nothing to upload. *)
Lemma idle_cycle_on_idle_device :
  netinfo_isConnected all_up = Some true /\
  @pending_operations rowid_engine Category idle = [] /\
  @pending_operations rowid_engine Item idle = [] /\
  @unsynced_bills rowid_engine idle = [] /\
  List.filter unsynced (inventory_items idle) = [] /\
  @syncAll all_up rowid_engine idle =
    (Return {| all_success := true; categoriesSynced := 0; itemsSynced := 0;
               billsSynced := 0; inventorySynced := 0 |}, idle).
Proof.
  repeat (split; [reflexivity|]).
  exact (@idle_cycle_succeeds_and_changes_nothing all_up rowid_engine idle
           (Some {| json_text := "[4]"; json_truthy := true |})
           eq_refl eq_refl eq_refl eq_refl eq_refl eq_refl eq_refl).
Defined.

(** X12 on the stocked shop: the item endpoint echoes the tea with its
    image.  The tea is flagged, takes the stamp and the image of the
    snapshot and the place of the cached image; the scone is as it was. *)
Lemma echoed_tea_on_stocked_shop :
  @applied_snapshots echoing rowid_engine Item (api_items_sync echoing) stocked_shop
    = [tea_snapshot] /\
  exists w',
    @syncItems echoing rowid_engine stocked_shop
      = (Return {| success := true; synced := 1 |}, w') /\
    Forall2 (item_flagged echoing [tea_snapshot] 2 (ticks w')) [tea; scone] (items w') /\
    items w' =
      [ [("id", VText "i1"); ("name", VText "Tea"); ("price", VInt 20);
         ("is_synced", VInt 1); ("updated_at", VText "2024-01-01T10:00:03.000Z");
         ("server_updated_at", VText "2024-01-01T10:00:09.000Z");
         ("image_url", VText "https://cdn.example/i1.jpg");
         ("local_image_path", VText "/data/images/items/item_i1.jpg")]%string;
        scone ] /\
    files w' = ["/data/images/items/item_i1.jpg"%string].
Proof.
  split; [reflexivity|].
  destruct (@drains_only_flag_echoed_rows echoing rowid_engine stocked_shop)
    as [_ (r & w' & Hrun & HF & _)].
  exists w'.
  assert (r = {| success := true; synced := 1 |} /\
          items w' =
            [ [("id", VText "i1"); ("name", VText "Tea"); ("price", VInt 20);
               ("is_synced", VInt 1); ("updated_at", VText "2024-01-01T10:00:03.000Z");
               ("server_updated_at", VText "2024-01-01T10:00:09.000Z");
               ("image_url", VText "https://cdn.example/i1.jpg");
               ("local_image_path", VText "/data/images/items/item_i1.jpg")]%string;
              scone ] /\
          files w' = ["/data/images/items/item_i1.jpg"%string]) as (-> & Hitems & Hfiles).
  { pose proof Hrun as Hc. vm_compute in Hc. inversion Hc. by repeat split. }
  split; [exact Hrun|]. split; [exact HF|]. split; [exact Hitems|exact Hfiles].
Defined.

(** X15 on the handset: the profile saved on a device without profiles. *)
Lemma profile_of_asha_is_read_back :
  Forall (fun r => Auth.profile_of "v1" r = true) (Auth.vendor_profile signed_out) /\
  @Auth.getVendorProfile rowid_engine
    (Auth.saveVendorProfile all_up asha signed_out) =
  Some {| Auth.sp_id := VText "v1";
          Auth.sp_username := VText "asha";
          Auth.sp_email := VNull;
          Auth.sp_business_name := VText "Asha Stores";
          Auth.sp_address := VText "1 Main Street";
          Auth.sp_phone := VText "5550100";
          Auth.sp_gst_no := VNull;
          Auth.sp_fssai_license := VNull;
          Auth.sp_logo_url := VText "https://cdn.example/logo.jpg";
          Auth.sp_footer_note := VNull;
          Auth.sp_is_approved := true |}.
Proof.
  assert (Forall (fun r => Auth.profile_of "v1" r = true)
                 (Auth.vendor_profile signed_out)) as H by constructor.
  split; [exact H|].
  exact (@AuthFacts.saved_profile_is_read_back all_up rowid_engine asha
           signed_out H).
Defined.

(** X16 on the handset: a wrong password. *)
Lemma wrong_password_on_handset :
  exists text,
    Auth.login all_up handset "asha" "wrong" signed_out =
      ({| Auth.l_success := false; Auth.l_error := Some text; Auth.l_data := None |},
       Auth.send (Auth.PostAuthLogin "asha" "wrong" None) signed_out) /\
    text = "Invalid username or password."%string.
Proof.
  destruct (@AuthFacts.rejected_login_stores_nothing all_up handset "asha" "wrong"
              signed_out _ eq_refl) as (text & Hlogin & _ & H401 & _).
  exists text. split; [exact Hlogin|]. exact (H401 _ eq_refl eq_refl).
Defined.

(** X17 on the handset: the right password. *)
Lemma right_password_on_handset :
  exists authData d',
    Auth.login all_up handset "asha" "secret" signed_out =
      ({| Auth.l_success := true; Auth.l_error := None; Auth.l_data := Some authData |}, d') /\
    Auth.getAuthToken d' = Some "t0k3n"%string /\
    Auth.isAuthenticated d' = true /\
    Auth.authorization d' = Some "Token t0k3n"%string.
Proof.
  destruct (@AuthFacts.accepted_login_signs_in all_up handset "asha" "secret"
              signed_out _ eq_refl)
    as (authData & d' & Hlogin & _ & _ & _ & Htoken & Hauth & _ & _ & _ & _ & Hhdr).
  exists authData, d'. split; [exact Hlogin|]. split; [exact Htoken|].
  split; [exact Hauth|]. apply Hhdr. discriminate.
Defined.

(** X20 on an empty device: the logo of the vendor. *)
Lemma logo_of_asha_is_served :
  exists w1,
    cacheVendorLogo all_up "v1" "https://cdn.example/logo.jpg" empty_world
      = (Some "/data/images/vendors/logo_v1.jpg"%string, w1) /\
    existsb (String.eqb "/data/images/vendors/logo_v1.jpg") (files w1) = true /\
    getLocalImagePath vendor_kind "v1" w1
      = (Some "/data/images/vendors/logo_v1.jpg"%string, w1) /\
    getImageSource vendor_kind "v1" None w1
      = (Some "file:///data/images/vendors/logo_v1.jpg"%string, w1).
Proof.
  eexists. split; [reflexivity|]. split; [reflexivity|].
  exact (proj2 (@AuthFacts.cached_image_is_served all_up vendor_kind
                  "v1" "https://cdn.example/logo.jpg" None empty_world _ _
                  eq_refl eq_refl)).
Defined.

(** X25 on two teas and a samosa, one more tea being added and taken back. *)
Lemma tea_added_and_taken_back :
  Billing.well_formed (fun name : string => name) Billing.tea_and_samosa /\
  Billing.removeFromCart (fun name => name) "tea"
    (Billing.addToCart (fun name => name) "tea"%string Billing.tea_and_samosa)
    = Billing.tea_and_samosa /\
  Billing.getTotalItems
    (Billing.addToCart (fun name => name) "tea"%string Billing.tea_and_samosa) = 4 /\
  Billing.getTotalItems
    (Billing.removeFromCart (fun name => name) "samosa" Billing.tea_and_samosa) = 2.
Proof.
  assert (Billing.well_formed (fun name : string => name) Billing.tea_and_samosa) as H.
  { split.
    - apply NoDup_cons. split; [|apply NoDup_singleton].
      intros Hin. apply list_elem_of_singleton in Hin. discriminate Hin.
    - repeat constructor; simpl; discriminate. }
  split; [exact H|].
  exact (@BillingFacts.minus_undoes_plus string (fun name => name)
           Billing.tea_and_samosa "tea"%string "samosa"%string H).
Defined.

(** X27 on a till whose counter is at 7. *)
Lemma bills_seven_and_eight :
  BillNumbering.settingsJson BillNumbering.counter_at_7 = Some "IIIIIII"%string /\
  exists t1 t2,
    BillNumbering.getNextBillNumber BillNumbering.march_2024 BillNumbering.counter_at_7
      = ("BILL-20240305-7"%string, t1) /\
    BillNumbering.getNextBillNumber BillNumbering.march_2024 t1
      = ("BILL-20240305-8"%string, t2).
Proof.
  split; [reflexivity|].
  destruct (BillNumberingFacts.bill_numbers_count_up BillNumbering.march_2024
              BillNumbering.counter_at_7 "IIIIIII"
              (BillNumbering.with_currentNumber (Some 7) BillNumbering.default_settings)
              7 eq_refl eq_refl eq_refl ltac:(discriminate) ltac:(discriminate) eq_refl)
    as (t1 & t2 & H1 & H2 & _).
  exists t1, t2. split; [exact H1|exact H2].
Defined.

(** X28 on a new till: the preview and the first bill number agree. *)
Lemma first_bill_number_is_announced :
  BillNumbering.same_day BillNumbering.march_2024 0 1 /\
  exists t1,
    BillNumbering.previewBillNumber BillNumbering.march_2024 BillNumbering.new_till
      = ("BILL-20240305-1001"%string, t1) /\
    fst (BillNumbering.getNextBillNumber BillNumbering.march_2024 t1)
      = "BILL-20240305-1001"%string.
Proof.
  assert (BillNumbering.same_day BillNumbering.march_2024 0 1) as Hday by (by repeat split).
  split; [exact Hday|].
  destruct (BillNumberingFacts.preview_announces_next_bill_number BillNumbering.march_2024
              BillNumbering.new_till Hday)
    as (number & t1 & Hprev & _ & _ & Hdefault & Hnext & _).
  rewrite (Hdefault eq_refl) in Hprev, Hnext.
  exists t1. split; [exact Hprev|]. exact (Hnext (or_introl eq_refl)).
Defined.

(** X29 on a new till: the first GST invoice of 2024. *)
Lemma first_invoice_of_the_year :
  BillNumbering.one_sequence_each (BillNumbering.invoice_sequences BillNumbering.new_till) /\
  exists t',
    BillNumbering.generateInvoiceNumber BillNumbering.march_2024 "gst" BillNumbering.new_till
      = ("GST-2024-0001"%string, t') /\
    fst (BillNumbering.getInvoiceSequence BillNumbering.march_2024 "gst" t') = 1.
Proof.
  assert (BillNumbering.one_sequence_each
            (BillNumbering.invoice_sequences BillNumbering.new_till)) as Hone
    by apply NoDup_nil_2.
  split; [exact Hone|].
  destruct (BillNumberingFacts.invoice_sequences_count_up BillNumbering.march_2024
              "gst" BillNumbering.new_till Hone)
    as (t' & Hrun & _ & _ & Hseq & _).
  exists t'. split; [exact Hrun|]. exact (Hseq eq_refl).
Defined.

(** X30 on the till whose counter is at 7: back to 1001. *)
Lemma counter_reset_to_1001 :
  BillNumbering.settingsJson BillNumbering.counter_at_7 = Some "IIIIIII"%string /\
  exists t',
    BillNumbering.resetBillNumbering BillNumbering.march_2024 BillNumbering.counter_at_7
      = Some t' /\
    BillNumbering.currentNumber
      (BillNumbering.getBillNumberingSettings BillNumbering.march_2024 t') = Some 1001 /\
    fst (BillNumbering.previewBillNumber BillNumbering.march_2024 t')
      = "BILL-20240305-1001"%string.
Proof.
  split; [reflexivity|].
  destruct (BillNumberingFacts.reset_returns_to_starting_number BillNumbering.march_2024
              BillNumbering.counter_at_7 "IIIIIII"
              (BillNumbering.with_currentNumber (Some 7) BillNumbering.default_settings)
              eq_refl eq_refl)
    as (t' & Hreset & Hsettings & Hpreview & _).
  - vm_compute. discriminate.
  - vm_compute. reflexivity.
  - exists t'. split; [exact Hreset|]. rewrite Hsettings, Hpreview. by split.
Defined.

End CoverageFacts.
